(** * Relative Output Stability (Quantus): the objective and the sampling loop

    A shallow embedding of [quantus/metrics/robustness/relative_output_stability.py]:
    [relative_output_stability_objective] and [evaluate_batch], over the
    fragment of NumPy they use.

    - Numbers are binary64 floats ([PrimFloat.float]), the [float64] of NumPy:
      NaN, the infinities, the signed zeros and rounding are those of the
      source.  Arrays of another dtype are outside the model.
    - An array is its shape and its elements in row-major order; broadcasting,
      norms over trailing axes, item assignment and [np.max] over axis 0 are
      defined on that representation.
    - Python exceptions are values of [exn]; a computation that can raise
      returns a [res].
    - The collaborators ([model.predict], [perturb_batch], [explain_batch],
      [changed_prediction_indices_func], [aggregate_func]) are fields of the
      records [model] and [metric].  The stateful ones thread a world [W]
      (random generator, model state), and every call is logged in a trace
      with its arguments and its result.  They are total: an exception
      raised inside a collaborator is outside the model.
    - Sample indices and labels are natural numbers. *)

From Stdlib Require Import String.
From Stdlib Require Import List ZArith Lia Bool Floats PeanoNat.
Import ListNotations.

Set Implicit Arguments.

(** ** Exceptions and results *)

Inductive exn : Type :=
| ValueError (msg : string)
| IndexError (msg : string)
| TypeError (msg : string).

Inductive res (A : Type) : Type :=
| Ok (a : A)
| Raise (e : exn).

Arguments Ok {A} a.
Arguments Raise {A} e.

Definition res_bind {A B : Type} (c : res A) (k : A -> res B) : res B :=
  match c with
  | Ok a => k a
  | Raise e => Raise e
  end.

Definition res_map {A B : Type} (f : A -> B) (c : res A) : res B :=
  res_bind c (fun a => Ok (f a)).

Definition is_ok {A : Type} (c : res A) : bool :=
  match c with
  | Ok _ => true
  | Raise _ => false
  end.

Declare Scope res_scope.
Delimit Scope res_scope with res.
Notation "'let?' x ':=' c 'in' k" := (res_bind c (fun x => k))
  (at level 10, x name, c at level 100, k at level 200) : res_scope.

(** The message of the [ValueError] raised by the rank dispatch of the
    objective; the specification calls this error UnsupportedShape. *)
Definition UnsupportedShape : exn :=
  ValueError "Relative Output Stability only supports 4D, 3D and 2D inputs (batch dimension inclusive).".

Definition BroadcastError : exn :=
  ValueError "operands could not be broadcast together".

Definition AssignBroadcastError : exn :=
  ValueError "could not broadcast input array into shape".

Definition AxisError : exn :=
  ValueError "axis is out of bounds for array".

Definition ZeroSizeReduction : exn :=
  ValueError "zero-size array to reduction operation maximum which has no identity".

(** ** Classes of binary64 values, read on their specification *)

Module F64.

Definition SF_is_zero (f : spec_float) : bool :=
  match f with
  | S754_zero _ => true
  | _ => false
  end.

Definition SF_is_finite (f : spec_float) : bool :=
  match f with
  | S754_zero _ | S754_finite _ _ _ => true
  | _ => false
  end.

Definition SF_is_nan (f : spec_float) : bool :=
  match f with
  | S754_nan => true
  | _ => false
  end.

(** [x == 0] in NumPy: true of both zeros. *)
Definition is_zero (x : float) : bool := (x =? 0)%float.

(** A key whose lexicographic order is the order of the values that are not
    NaN (the zeros share a key). *)
Definition order_key (f : spec_float) : Z * Z * Z :=
  match f with
  | S754_infinity true => (0, 0, 0)
  | S754_finite true m e => (1, - e, - Zpos m)
  | S754_zero _ => (2, 0, 0)
  | S754_finite false m e => (3, e, Zpos m)
  | S754_infinity false => (4, 0, 0)
  | S754_nan => (5, 0, 0)
  end%Z.

Definition key_le (k1 k2 : Z * Z * Z) : Prop :=
  let '(a1, b1, c1) := k1 in
  let '(a2, b2, c2) := k2 in
  (a1 < a2 \/ (a1 = a2 /\ (b1 < b2 \/ (b1 = b2 /\ c1 <= c2))))%Z.

End F64.

(** ** The fragment of NumPy *)

Module Np.

Open Scope float_scope.

Section Lists.
Variables A B C : Type.

Fixpoint map2 (f : A -> B -> C) (l1 : list A) (l2 : list B) : list C :=
  match l1, l2 with
  | x :: l1', y :: l2' => f x y :: map2 f l1' l2'
  | _, _ => []
  end.

(** [chunks sz cnt l]: the first [cnt] consecutive blocks of [sz] elements. *)
Fixpoint chunks (sz cnt : nat) (l : list A) : list (list A) :=
  match cnt with
  | O => []
  | S c => firstn sz l :: chunks sz c (skipn sz l)
  end.

(** Overwrite positions [start, start + len) with [f 0 .. f (len - 1)]. *)
Definition write_range (start len : nat) (f : nat -> A) (l : list A) : list A :=
  map (fun kx => if (start <=? fst kx)%nat && (fst kx <? start + len)%nat
                 then f (fst kx - start)%nat else snd kx)
      (combine (seq 0 (length l)) l).
End Lists.

(** An n-dimensional array: shape and row-major data. *)
Record array (A : Type) : Type := mk_array { shape : list nat; data : list A }.

Definition ndarray := array float.

Definition size_of (s : list nat) : nat := fold_right Nat.mul 1%nat s.

Definition ndim {A} (a : array A) : nat := length (shape a).

(** The invariant of every array NumPy builds. *)
Definition wf {A} (a : array A) : Prop := length (data a) = size_of (shape a).

Definition wfb {A} (a : array A) : bool := (length (data a) =? size_of (shape a))%nat.

(** *** Broadcasting *)

Definition pad_shape (n : nat) (s : list nat) : list nat :=
  repeat 1%nat (n - length s) ++ s.

(** Shapes of equal length, dimension by dimension. *)
Fixpoint broadcast_dims (s1 s2 : list nat) : option (list nat) :=
  match s1, s2 with
  | [], [] => Some []
  | a :: s1', b :: s2' =>
      match broadcast_dims s1' s2' with
      | Some r =>
          if (a =? b)%nat then Some (a :: r)
          else if (a =? 1)%nat then Some (b :: r)
          else if (b =? 1)%nat then Some (a :: r)
          else None
      | None => None
      end
  | _, _ => None
  end.

Definition broadcast_shapes (s1 s2 : list nat) : option (list nat) :=
  let n := Nat.max (length s1) (length s2) in
  broadcast_dims (pad_shape n s1) (pad_shape n s2).

(** Data of an array of shape [src] seen at shape [tgt] (same length, each
    dimension of [src] equal to that of [tgt] or 1). *)
Fixpoint broadcast_data {A} (src tgt : list nat) (d : list A) : list A :=
  match src, tgt with
  | a :: src', b :: tgt' =>
      if (a =? b)%nat
      then concat (map (broadcast_data src' tgt') (chunks (size_of src') a d))
      else concat (repeat (broadcast_data src' tgt' d) b)
  | _, _ => d
  end.

Definition broadcast_to {A} (a : array A) (tgt : list nat) : list A :=
  broadcast_data (pad_shape (length tgt) (shape a)) tgt (data a).

(** A binary ufunc ([-], [+], [/]) on two arrays. *)
Definition ufunc2 (f : float -> float -> float) (a b : ndarray) : res ndarray :=
  match broadcast_shapes (shape a) (shape b) with
  | Some s => Ok (mk_array s (map2 f (broadcast_to a s) (broadcast_to b s)))
  | None => Raise BroadcastError
  end.

Definition subtract := ufunc2 PrimFloat.sub.
Definition add := ufunc2 PrimFloat.add.
Definition divide := ufunc2 PrimFloat.div.

(** [arr == 0]: a boolean array. *)
Definition equal_scalar (a : ndarray) (c : float) : array bool :=
  mk_array (shape a) (map (fun x => x =? c) (data a)).

(** NumPy casts [True] to [1.0] and [False] to [0.0] in float arithmetic. *)
Definition float_of_bool (b : bool) : float := if b then 1 else 0.

(** [mask * c] for a boolean array and a Python float. *)
Definition multiply_scalar (m : array bool) (c : float) : ndarray :=
  mk_array (shape m) (map (fun b => float_of_bool b * c) (data m)).

(** [sqrt(add.reduce(x * x))] over one block.  The squares are summed from
    the left; the order NumPy sums in is internal to [add.reduce]. *)
Definition norm2 (v : list float) : float :=
  sqrt (fold_left PrimFloat.add (map (fun x => x * x) v) 0).

(** [np.linalg.norm(arr, axis=-1)] is [linalg_norm 1], and
    [np.linalg.norm(arr, axis=(-1, -2))] is [linalg_norm 2]: the Euclidean
    (Frobenius) norm over the last [k] axes. *)
Definition linalg_norm (k : nat) (a : ndarray) : res ndarray :=
  if (ndim a <? k)%nat then Raise AxisError
  else
    let lead := firstn (ndim a - k) (shape a) in
    let blk := size_of (skipn (ndim a - k) (shape a)) in
    Ok (mk_array lead (map norm2 (chunks blk (size_of lead) (data a)))).

(** [np.expand_dims(arr, axis=-1)]. *)
Definition expand_dims_last {A} (a : array A) : array A :=
  mk_array (shape a ++ [1%nat]) (data a).

Definition zeros (s : list nat) : ndarray :=
  mk_array s (repeat 0 (size_of s)).

(** *** Item assignment *)

Fixpoint strip_ones (n : nat) (s : list nat) : list nat :=
  match n, s with
  | S n', 1%nat :: s' => strip_ones n' s'
  | _, _ => s
  end.

Fixpoint fits_dims (src tgt : list nat) : bool :=
  match src, tgt with
  | [], [] => true
  | a :: src', b :: tgt' => ((a =? b)%nat || (a =? 1)%nat) && fits_dims src' tgt'
  | _, _ => false
  end.

(** The value assigned, broadcast to the shape of the target: leading axes
    of length 1 in excess are dropped, then every axis is the target's or 1. *)
Definition assign_broadcast {A} (v : array A) (tgt : list nat) : option (list A) :=
  let s := strip_ones (length (shape v) - length tgt) (shape v) in
  if (length s <=? length tgt)%nat && fits_dims (pad_shape (length tgt) s) tgt
  then Some (broadcast_data (pad_shape (length tgt) s) tgt (data v))
  else None.

(** [arr[index] = v]. *)
Definition setitem_row (arr : ndarray) (index : nat) (v : ndarray) : res ndarray :=
  match shape arr with
  | [] => Raise (IndexError "too many indices for array")
  | n :: rest =>
      if (index <? n)%nat then
        match assign_broadcast v rest with
        | Some src =>
            Ok (mk_array (shape arr)
                  (write_range (index * size_of rest) (size_of rest)
                     (fun k => nth k src 0) (data arr)))
        | None => Raise AssignBroadcastError
        end
      else Raise (IndexError "index is out of bounds for axis 0")
  end.

(** [arr[index, indices] = c]: for every [i] of [indices], the whole of
    [arr[index, i]] (one cell of a matrix, one row of a rank-3 array). *)
Definition setitem_cells (arr : ndarray) (index : nat) (indices : list nat) (c : float)
  : res ndarray :=
  match shape arr with
  | n :: m :: rest =>
      if (index <? n)%nat then
        if forallb (fun i => (i <? m)%nat) indices then
          let inner := size_of rest in
          Ok (mk_array (shape arr)
                (fold_left
                   (fun d i => write_range (index * (m * inner) + i * inner) inner
                                 (fun _ => c) d)
                   indices (data arr)))
        else Raise (IndexError "index is out of bounds for axis 1")
      else Raise (IndexError "index is out of bounds for axis 0")
  | _ => Raise (IndexError "too many indices for array")
  end.

(** [arr[i, j]] of a matrix. *)
Definition getitem2 (arr : ndarray) (i j : nat) : res float :=
  match shape arr with
  | [n; m] =>
      if (i <? n)%nat then
        if (j <? m)%nat then Ok (nth (i * m + j) (data arr) 0)
        else Raise (IndexError "index is out of bounds for axis 1")
      else Raise (IndexError "index is out of bounds for axis 0")
  | _ => Raise (IndexError "too many indices for array")
  end.

(** *** Maximum *)

(** The loop body of [maximum.reduce] on floats:
    [io1 = (io1 >= in2 || npy_isnan(io1)) ? io1 : in2]. *)
Definition maximum (a b : float) : float :=
  if (b <=? a) || is_nan a then a else b.

(** [np.max(arr, axis=0)]. *)
Definition max_axis0 (arr : ndarray) : res ndarray :=
  match shape arr with
  | [] => Raise AxisError
  | n :: rest =>
      match chunks (size_of rest) n (data arr) with
      | [] => Raise ZeroSizeReduction
      | row0 :: rows => Ok (mk_array rest (fold_left (map2 maximum) rows row0))
      end
  end.

End Np.

(** ** The metric *)

Module ROS.

Import Np.
Open Scope float_scope.
Open Scope res_scope.

(** [y_batch]: one label per input, or a list of labels per input. *)
Inductive labels : Type :=
| SingleLabels (ys : list nat)
| MultiLabels (ys : list (list nat)).

(** What [evaluate_batch] can return: the array [np.max] gives, the nested
    list of the multi-label reshape, or the one-element list of the aggregate. *)
Inductive scores : Type :=
| ScArray (a : ndarray)
| ScNested (l : list (list float))
| ScList (l : list float).

Section Metric.

(** The state of the collaborators: random generator, model internals. *)
Variable W : Type.

(** [ModelInterface]: only [predict] is used. *)
Record model : Type := mk_model {
  predict : ndarray -> W -> ndarray * W
}.

(** The attributes of [RelativeOutputStability] read by the two methods,
    with the collaborators it holds. *)
Record metric : Type := mk_metric {
  multi_label : bool;
  nr_samples : nat;
  eps_min : float;
  return_aggregate : bool;
  aggregate_func : scores -> float;
  perturb_batch : ndarray -> W -> ndarray * W;
  explain_batch : model -> ndarray -> labels -> W -> ndarray * W;
  changed_prediction_indices_func : model -> ndarray -> ndarray -> W -> list nat * W
}.

(** *** relative_output_stability_objective *)

(** [e_x + (e_x == 0) * self._eps_min], the divisor of the nominator. *)
Definition guarded (self : metric) (e_x : ndarray) : res ndarray :=
  add e_x (multiply_scalar (equal_scalar e_x 0) (eps_min self)).

(** The rank dispatch selecting [norm_function]. *)
Definition norm_function (self : metric) (num_dim : nat)
  : res (ndarray -> res ndarray) :=
  if (num_dim =? 4)%nat then
    Ok (fun arr => let? t := linalg_norm 2 arr in linalg_norm 1 t)
  else if (num_dim =? 3)%nat then
    Ok (fun arr => linalg_norm 2 arr)
  else if (num_dim =? 2)%nat then
    Ok (fun arr => linalg_norm 1 arr)
  else if (num_dim =? 5)%nat && multi_label self then
    Ok (fun arr => let? t := linalg_norm 2 arr in linalg_norm 1 t)
  else Raise UnsupportedShape.

(** [denominator = norm(h_x - h_xs, axis=-1);
    denominator += (denominator == 0) * self._eps_min]. *)
Definition denominator (self : metric) (h_x h_xs : ndarray) : res ndarray :=
  let? d := subtract h_x h_xs in
  let? d := linalg_norm 1 d in
  add d (multiply_scalar (equal_scalar d 0) (eps_min self)).

(** [(e_x - e_xs) / (e_x + (e_x == 0) * self._eps_min)], element-wise. *)
Definition elementwise_quotient (self : metric) (e_x e_xs : ndarray) : res ndarray :=
  let? diff := subtract e_x e_xs in
  let? g := guarded self e_x in
  divide diff g.

Definition relative_output_stability_objective
    (self : metric) (h_x h_xs e_x e_xs : ndarray) : res ndarray :=
  let num_dim := ndim e_x in
  let? norm_f := norm_function self num_dim in
  let? nominator := elementwise_quotient self e_x e_xs in
  let? nominator := norm_f nominator in
  let? denom := denominator self h_x h_xs in
  if multi_label self then
    divide nominator (expand_dims_last denom)
  else
    divide nominator denom.

(** *** evaluate_batch *)

(** The calls made to the collaborators, with what they returned. *)
Inductive event : Type :=
| EvPredict (x out : ndarray)
| EvPerturb (x out : ndarray)
| EvExplain (x : ndarray) (y : labels) (out : ndarray)
| EvChanged (x x_perturbed : ndarray) (out : list nat).

Record state : Type := mk_state { world : W; trace : list event }.

(** State and exceptions. *)
Definition M (A : Type) : Type := state -> res A * state.

Definition ret {A} (a : A) : M A := fun s => (Ok a, s).

Definition bind {A B} (c : M A) (k : A -> M B) : M B :=
  fun s => match c s with
           | (Ok a, s') => k a s'
           | (Raise e, s') => (Raise e, s')
           end.

Definition lift {A} (c : res A) : M A := fun s => (c, s).

Notation "x <- c ;; k" := (bind c (fun x => k))
  (at level 61, c at next level, right associativity).

Definition call_predict (m : model) (x : ndarray) : M ndarray :=
  fun s => let (out, w) := predict m x (world s) in
           (Ok out, mk_state w (trace s ++ [EvPredict x out])).

Definition call_perturb_batch (self : metric) (x : ndarray) : M ndarray :=
  fun s => let (out, w) := perturb_batch self x (world s) in
           (Ok out, mk_state w (trace s ++ [EvPerturb x out])).

Definition call_explain_batch (self : metric) (m : model) (x : ndarray) (y : labels)
  : M ndarray :=
  fun s => let (out, w) := explain_batch self m x y (world s) in
           (Ok out, mk_state w (trace s ++ [EvExplain x y out])).

Definition call_changed_prediction_indices
    (self : metric) (m : model) (x x_perturbed : ndarray) : M (list nat) :=
  fun s => let (out, w) := changed_prediction_indices_func self m x x_perturbed (world s) in
           (Ok out, mk_state w (trace s ++ [EvChanged x x_perturbed out])).

(** [arr.shape[i]]. *)
Definition shape_at {A} (a : array A) (i : nat) : res nat :=
  match nth_error (shape a) i with
  | Some n => Ok n
  | None => Raise (IndexError "tuple index out of range")
  end.

(** [x_batch[0]], read for its [size] and [ndim] when the indices handed to
    [perturb_batch] are built. *)
Definition first_item_shape {A} (a : array A) : res (list nat) :=
  match shape a with
  | [] => Raise (IndexError "too many indices for array")
  | O :: _ => Raise (IndexError "index 0 is out of bounds for axis 0 with size 0")
  | S _ :: rest => Ok rest
  end.

(** One pass of the body of [for index in range(self._nr_samples)]. *)
Definition sampling_draw (self : metric) (m : model)
    (logits x_batch : ndarray) (y_batch : labels) (a_batch : ndarray)
    (ros_batch : ndarray) (index : nat) : M ndarray :=
  _ <- lift (first_item_shape x_batch) ;;
  x_perturbed <- call_perturb_batch self x_batch ;;
  a_batch_perturbed <- call_explain_batch self m x_perturbed y_batch ;;
  logits_perturbed <- call_predict m x_perturbed ;;
  ros <- lift (relative_output_stability_objective self
                 logits logits_perturbed a_batch a_batch_perturbed) ;;
  ros_batch <- lift (setitem_row ros_batch index ros) ;;
  changed_prediction_indices <-
    call_changed_prediction_indices self m x_batch x_perturbed ;;
  if negb (length changed_prediction_indices =? 0)%nat then
    lift (setitem_cells ros_batch index changed_prediction_indices nan)
  else ret ros_batch.

Fixpoint sampling_loop (self : metric) (m : model)
    (logits x_batch : ndarray) (y_batch : labels) (a_batch : ndarray)
    (indices : list nat) (ros_batch : ndarray) : M ndarray :=
  match indices with
  | [] => ret ros_batch
  | index :: rest =>
      ros_batch <- sampling_draw self m logits x_batch y_batch a_batch ros_batch index ;;
      sampling_loop self m logits x_batch y_batch a_batch rest ros_batch
  end.

(** [ros_batch] when the loop is over: the first part of [evaluate_batch]. *)
Definition draw_matrix (self : metric) (m : model)
    (x_batch : ndarray) (y_batch : labels) (a_batch : ndarray) : M ndarray :=
  batch_size <- lift (shape_at x_batch 0) ;;
  logits <- call_predict m x_batch ;;
  ros_batch <-
    (if multi_label self then
       lift (let? n := shape_at a_batch 0 in
             let? l := shape_at a_batch 1 in
             Ok (zeros [nr_samples self; n; l]))
     else
       ret (zeros [nr_samples self; batch_size])) ;;
  sampling_loop self m logits x_batch y_batch a_batch
    (seq 0 (nr_samples self)) ros_batch.

(** [[result[index, label] for label in label_list]]. *)
Fixpoint select_labels (result : ndarray) (index : nat) (label_list : list nat)
  : res (list float) :=
  match label_list with
  | [] => Ok []
  | label :: rest =>
      let? v := getitem2 result index label in
      let? tmp_list := select_labels result index rest in
      Ok (v :: tmp_list)
  end.

Fixpoint select_rows (result : ndarray) (index : nat) (ys : list (list nat))
  : res (list (list float)) :=
  match ys with
  | [] => Ok []
  | label_list :: rest =>
      let? tmp_list := select_labels result index label_list in
      let? result_list := select_rows result (S index) rest in
      Ok (tmp_list :: result_list)
  end.

(** The multi-label reshape; iterating over a label that is an integer is a
    [TypeError]. *)
Definition multi_label_reshape (result : ndarray) (y_batch : labels)
  : res (list (list float)) :=
  match y_batch with
  | MultiLabels ys => select_rows result 0 ys
  | SingleLabels [] => Ok []
  | SingleLabels (_ :: _) => Raise (TypeError "object is not iterable")
  end.

Definition evaluate_batch (self : metric) (m : model)
    (x_batch : ndarray) (y_batch : labels) (a_batch : ndarray) : M scores :=
  ros_batch <- draw_matrix self m x_batch y_batch a_batch ;;
  result <- lift (max_axis0 ros_batch) ;;
  result <-
    (if multi_label self then
       lift (res_map ScNested (multi_label_reshape result y_batch))
     else ret (ScArray result)) ;;
  if return_aggregate self then ret (ScList [aggregate_func self result])
  else ret result.

(** *** Reference formulas and the run of one draw *)

(** The objective with no guard: [norm((e_x - e_xs) / e_x)] over
    [norm(h_x - h_xs)], as in the docstring of the class. *)
Definition unguarded_objective
    (self : metric) (h_x h_xs e_x e_xs : ndarray) : res ndarray :=
  let? norm_f := norm_function self (ndim e_x) in
  let? diff := subtract e_x e_xs in
  let? nominator := divide diff e_x in
  let? nominator := norm_f nominator in
  let? d := subtract h_x h_xs in
  let? denom := linalg_norm 1 d in
  if multi_label self then
    divide nominator (expand_dims_last denom)
  else
    divide nominator denom.

(** The formula in the words of the specification:
    [norm(e_x - e_xs) / norm(e_x)] divided by [norm(h_x - h_xs)]. *)
Definition claimed_objective
    (self : metric) (h_x h_xs e_x e_xs : ndarray) : res ndarray :=
  let? norm_f := norm_function self (ndim e_x) in
  let? diff := subtract e_x e_xs in
  let? n_diff := norm_f diff in
  let? n_e := norm_f e_x in
  let? nominator := divide n_diff n_e in
  let? d := subtract h_x h_xs in
  let? denom := linalg_norm 1 d in
  divide nominator denom.

(** What the collaborators returned in one draw. *)
Record draw : Type := mk_draw {
  d_x : ndarray;            (* x_perturbed *)
  d_a : ndarray;            (* a_batch_perturbed *)
  d_h : ndarray;            (* logits_perturbed *)
  d_changed : list nat      (* changed_prediction_indices *)
}.

Definition draw_events (x_batch : ndarray) (y_batch : labels) (d : draw) : list event :=
  [ EvPerturb x_batch (d_x d);
    EvExplain (d_x d) y_batch (d_a d);
    EvPredict (d_x d) (d_h d);
    EvChanged x_batch (d_x d) (d_changed d) ].

(** The four calls of one draw, in the order of the loop body. *)
Definition run_collaborators (self : metric) (m : model)
    (x_batch : ndarray) (y_batch : labels) (s : state) : draw * state :=
  let (x_perturbed, w1) := perturb_batch self x_batch (world s) in
  let (a_batch_perturbed, w2) := explain_batch self m x_perturbed y_batch w1 in
  let (logits_perturbed, w3) := predict m x_perturbed w2 in
  let (changed, w4) := changed_prediction_indices_func self m x_batch x_perturbed w3 in
  let d := mk_draw x_perturbed a_batch_perturbed logits_perturbed changed in
  (d, mk_state w4 (trace s ++ draw_events x_batch y_batch d)).

(** What one draw does to [ros_batch], given what the collaborators returned. *)
Definition store_draw (self : metric) (logits a_batch ros_batch : ndarray)
    (index : nat) (d : draw) : res ndarray :=
  let? ros := relative_output_stability_objective self logits (d_h d) a_batch (d_a d) in
  let? ros_batch := setitem_row ros_batch index ros in
  if negb (length (d_changed d) =? 0)%nat then
    setitem_cells ros_batch index (d_changed d) nan
  else Ok ros_batch.

Fixpoint store_draws (self : metric) (logits a_batch : ndarray)
    (indices : list nat) (ds : list draw) (ros_batch : ndarray) : res ndarray :=
  match indices, ds with
  | index :: indices', d :: ds' =>
      let? ros_batch := store_draw self logits a_batch ros_batch index d in
      store_draws self logits a_batch indices' ds' ros_batch
  | _, _ => Ok ros_batch
  end.

(** The shape [ros_batch] is allocated with: [nr_samples :: n :: rest]. *)
Definition matrix_shape (self : metric) (x_batch a_batch : ndarray)
    (n : nat) (rest : list nat) : Prop :=
  if multi_label self
  then exists l, shape_at a_batch 0 = Ok n /\ shape_at a_batch 1 = Ok l /\ rest = [l]
  else shape_at x_batch 0 = Ok n /\ rest = [].

(** The inputs [model.predict] was called on, in order. *)
Fixpoint predict_inputs (tr : list event) : list ndarray :=
  match tr with
  | [] => []
  | EvPredict x _ :: tr' => x :: predict_inputs tr'
  | _ :: tr' => predict_inputs tr'
  end.

Definition with_return_aggregate (b : bool) (self : metric) : metric :=
  mk_metric (multi_label self) (nr_samples self) (eps_min self) b
    (aggregate_func self) (perturb_batch self) (explain_batch self)
    (changed_prediction_indices_func self).

End Metric.

End ROS.

(** ** Stub collaborators and concrete inputs *)

Module Ex.

Import Np ROS.
Open Scope float_scope.

(** [1e-6], the default of [eps_min], as the binary64 value Python reads. *)
Definition eps_default : float := 0x1.0c6f7a0b5ed8dp-20.

Definition float_of_nat (n : nat) : float := of_uint63 (Uint63.of_Z (Z.of_nat n)).

Definition block_of {A} (a : array A) : nat := size_of (tl (shape a)).

Definition rows_of {A} (a : array A) : list (list A) :=
  chunks (block_of a) (hd 0%nat (shape a)) (data a).

(** A model with two outputs per input: the sum of the input and half of it.
    The world counts the calls of the perturbation. *)
Definition stub_model : model nat :=
  mk_model (fun x w =>
    (mk_array [hd 0%nat (shape x); 2%nat]
       (flat_map (fun r => let s := fold_left PrimFloat.add r 0 in [s; s / 2]) (rows_of x)),
     w)).

(** The [k]-th perturbation adds [k / 8] to every element. *)
Definition stub_perturb (x : ndarray) (w : nat) : ndarray * nat :=
  (mk_array (shape x) (map (fun v => v + float_of_nat (S w) / 8) (data x)), S w).

(** Single-label explanations have the shape of the input. *)
Definition stub_explain (m : model nat) (x : ndarray) (y : labels) (w : nat)
  : ndarray * nat :=
  (mk_array (shape x) (map (fun v => v * v + 1) (data x)), w).

(** Multi-label explanations of shape [(N, L, 1, 1, F)]: label [l] scales the
    input by [l + 1]. *)
Definition stub_explain_labels (L : nat) (m : model nat) (x : ndarray) (y : labels)
    (w : nat) : ndarray * nat :=
  (mk_array [hd 0%nat (shape x); L; 1%nat; 1%nat; block_of x]
     (flat_map (fun r => flat_map (fun l => map (fun v => v * float_of_nat (S l) + 1) r)
                           (seq 0 L))
        (rows_of x)),
   w).

(** Multi-label explanations of rank 3 with the labels last: [(N, F, L)]. *)
Definition stub_explain_trailing (L : nat) (m : model nat) (x : ndarray) (y : labels)
    (w : nat) : ndarray * nat :=
  (mk_array [hd 0%nat (shape x); block_of x; L]
     (flat_map (fun v => map (fun l => v * float_of_nat (S l) + 1) (seq 0 L)) (data x)),
   w).

(** The detector reports [chg k] in the [k]-th draw. *)
Definition stub_changed (chg : nat -> list nat) (m : model nat) (x xp : ndarray) (w : nat)
  : list nat * nat :=
  (chg w, w).

Definition mean (s : scores) : float :=
  match s with
  | ScArray a => fold_left PrimFloat.add (data a) 0 / float_of_nat (length (data a))
  | ScNested l => fold_left PrimFloat.add (concat l) 0 / float_of_nat (length (concat l))
  | ScList l => fold_left PrimFloat.add l 0 / float_of_nat (length l)
  end.

Definition metric_of (multi : bool) (nr : nat) (agg : bool)
    (explain : model nat -> ndarray -> labels -> nat -> ndarray * nat)
    (chg : nat -> list nat) : metric nat :=
  mk_metric multi nr eps_default agg mean stub_perturb explain (stub_changed chg).

(** Single-label, three draws, guard silent. *)
Definition plain : metric nat :=
  metric_of false 3 false stub_explain (fun _ => []).

(** Single-label, three draws, sample 0 flips in the second draw. *)
Definition flipping : metric nat :=
  metric_of false 3 false stub_explain (fun k => if (k =? 2)%nat then [0%nat] else []).

Definition aggregating : metric nat :=
  metric_of false 3 true stub_explain (fun _ => []).

Definition one_draw : metric nat :=
  metric_of false 1 false stub_explain (fun _ => []).

(** Multi-label, three labels, explanations of rank 5. *)
Definition multi5 : metric nat :=
  metric_of true 3 false (stub_explain_labels 3)
    (fun k => if (k =? 2)%nat then [1%nat] else []).

(** Multi-label, three labels, explanations of rank 3 with the labels last. *)
Definition multi3 : metric nat :=
  metric_of true 3 false (stub_explain_trailing 3) (fun _ => []).

(** The value a computation returned (and [default] if it raised). *)
Definition returned {A : Type} (default : A) (r : res A) : A :=
  match r with
  | Ok a => a
  | Raise _ => default
  end.

Definition x_batch : ndarray := mk_array [2%nat; 4%nat] [1; 2; 3; 4; 5; 6; 7; 8].
Definition y_single : labels := SingleLabels [0%nat; 1%nat].
Definition y_multi : labels := MultiLabels [[0%nat; 1%nat]; [2%nat]].

Definition s0 : state nat := mk_state 0%nat [].

Definition a_batch : ndarray := fst (stub_explain stub_model x_batch y_single 0%nat).
Definition a_batch5 : ndarray := fst (stub_explain_labels 3 stub_model x_batch y_multi 0%nat).
Definition a_batch3 : ndarray := fst (stub_explain_trailing 3 stub_model x_batch y_multi 0%nat).

(** The second draw of [flipping]: the state after the first draw, what the
    collaborators return, the objective and the matrix with the row stored. *)
Definition logits : ndarray := fst (predict stub_model x_batch 0%nat).
Definition st1 : state nat := mk_state 1%nat [].
Definition draw1 : draw := fst (run_collaborators flipping stub_model x_batch y_single st1).
Definition st2 : state nat := snd (run_collaborators flipping stub_model x_batch y_single st1).
Definition ros1 : ndarray :=
  returned (zeros [])
    (relative_output_stability_objective flipping logits (d_h draw1) a_batch (d_a draw1)).
Definition ros_batch0 : ndarray := zeros [3%nat; 2%nat].
Definition ros_stored1 : ndarray := returned (zeros []) (setitem_row ros_batch0 1 ros1).

(** The score of sample 0 when no prediction changes. *)
Definition score0 : float :=
  match fst (evaluate_batch plain stub_model x_batch y_single a_batch s0) with
  | Ok (ScArray r) => nth 0 (data r) nan
  | _ => nan
  end.

(** Inputs of the objective. *)
Definition e_x : ndarray := mk_array [1%nat; 2%nat] [3; 4].
Definition e_xs : ndarray := mk_array [1%nat; 2%nat] [0; 4].
Definition e_zero : ndarray := mk_array [1%nat; 2%nat] [0; 4].
Definition e_zero_s : ndarray := mk_array [1%nat; 2%nat] [1; 4].
Definition h_x : ndarray := mk_array [1%nat; 1%nat] [1].
Definition h_xs : ndarray := mk_array [1%nat; 1%nat] [0].

(** Two samples whose logits differ in the second sample only. *)
Definition e_x2 : ndarray := mk_array [2%nat; 2%nat] [3; 4; 3; 4].
Definition e_xs2 : ndarray := mk_array [2%nat; 2%nat] [0; 4; 0; 4].
Definition h_x2 : ndarray := mk_array [2%nat; 1%nat] [1; 2].
Definition h_xs2 : ndarray := mk_array [2%nat; 1%nat] [1; 3].

End Ex.

(** ** Signs of binary64 values *)

Module Sign.

(** NaN, or a value whose sign bit is clear: [+0.0], a positive number or
    [+inf]. *)
Definition SF_not_negative (f : spec_float) : bool :=
  match f with
  | S754_zero false | S754_infinity false | S754_finite false _ _ | S754_nan => true
  | _ => false
  end.

(** NaN, a positive number or [+inf]. *)
Definition SF_positive (f : spec_float) : bool :=
  match f with
  | S754_infinity false | S754_finite false _ _ | S754_nan => true
  | _ => false
  end.

Definition is_not_negative (x : float) : bool := SF_not_negative (Prim2SF x).

Definition is_positive (x : float) : bool := SF_positive (Prim2SF x).

(** A value with the sign of [f] replaced by [s]. *)
Definition SF_with_sign (s : bool) (f : spec_float) : spec_float :=
  match f with
  | S754_zero _ => S754_zero s
  | S754_infinity _ => S754_infinity s
  | S754_finite _ m e => S754_finite s m e
  | S754_nan => S754_nan
  end.

End Sign.

(** ** The objective of one sample and the score of one draw *)

Module PerSample.

Import Np ROS.
Open Scope float_scope.

(** [x + (x == 0) * eps], the guard of the nominator and of the denominator. *)
Definition guard (eps x : float) : float := x + float_of_bool (x =? 0) * eps.

(** [arr[i]], flattened. *)
Definition row {A} (a : array A) (i : nat) : list A :=
  nth i (chunks (size_of (tl (shape a))) (hd 0%nat (shape a)) (data a)) [].

(** The norm the rank dispatch takes of one sample of shape [rest]: for
    [(C, H, W)] the norm over the channels of the norms over [(H, W)], else
    the norm of all the elements. *)
Definition sample_norm (rest : list nat) (v : list float) : float :=
  match rest with
  | [c; h; w] => norm2 (map norm2 (chunks (size_of [h; w]) c v))
  | _ => norm2 v
  end.

(** The objective on the logits and the explanations of one sample. *)
Definition sample_objective (eps : float) (rest : list nat)
    (h_x h_xs e_x e_xs : list float) : float :=
  sample_norm rest (map2 (fun x xs => (x - xs) / guard eps x) e_x e_xs)
  / guard eps (norm2 (map2 PrimFloat.sub h_x h_xs)).

(** What one draw leaves in [ros_batch[index, j]] in single-label mode, for
    [samples] inputs: NaN when the detector reported [j], else entry [j] of
    the objective (broadcast to the row).  The value 0 stands where the
    objective raised or does not fit the row: no draw of a run that returns
    is in that case. *)
Definition draw_score {W : Type} (self : metric W) (logits a_batch : ndarray)
    (samples j : nat) (d : draw) : float :=
  if existsb (Nat.eqb j) (d_changed d) then nan
  else
    match relative_output_stability_objective self logits (d_h d) a_batch (d_a d) with
    | Ok ros =>
        match assign_broadcast ros [samples] with
        | Some src => nth j src 0
        | None => 0
        end
    | Raise _ => 0
    end.

End PerSample.

(** ** Further stub inputs *)

Module Ex2.

Import Np ROS.
Open Scope float_scope.

(** Single-label, no draw at all. *)
Definition no_draws : metric nat :=
  Ex.metric_of false 0 false Ex.stub_explain (fun _ => []).

(** Single-label, three draws, a detector that reports sample 5 in every
    draw. *)
Definition stray : metric nat :=
  Ex.metric_of false 3 false Ex.stub_explain (fun _ => [5%nat]).

(** A batch of no input, of four features. *)
Definition empty_batch : ndarray := mk_array [0%nat; 4%nat] [].


(** A reduced result for two samples and three labels. *)
Definition result23 : ndarray := mk_array [2%nat; 3%nat] [1; 2; 3; 4; 5; 6].

(** Explanations of three samples, for a batch of two. *)
Definition e_xs3 : ndarray := mk_array [3%nat; 2%nat] [0; 4; 0; 4; 0; 4].

End Ex2.

(** * Verification *)

Import F64 Np ROS.
Open Scope nat_scope.

Unset Implicit Arguments.

(** ** Facts on binary64 arithmetic *)

Lemma SF_one : Prim2SF 1 = S754_finite false 4503599627370496 (-52).
Proof. reflexivity. Qed.

Lemma SF_zero : Prim2SF 0 = S754_zero false.
Proof. reflexivity. Qed.

(** The product of [2^52 * 2^(-52)] and a valid finite float rounds back to
    that float. *)
Lemma SFmul_one_finite s m e :
  bounded prec emax m e = true ->
  SF64mul (S754_finite false 4503599627370496 (-52)) (S754_finite s m e)
  = S754_finite s m e.
Proof.
  intros Hb.
  unfold SF64mul, SFmul.
  unfold bounded, canonical_mantissa in Hb.
  apply andb_prop in Hb. destruct Hb as [Hc He].
  apply Z.eqb_eq in Hc.
  unfold binary_round_aux.
  assert (Hs: shr_fexp prec emax (Z.pos (4503599627370496 * m)) (-52 + e) loc_Exact
              = ({| shr_m := Zpos m; shr_r := false; shr_s := false |}, e)).
  { unfold shr_fexp.
    assert (Hd: (Zdigits2 (Z.pos (4503599627370496 * m))
                 = Zpos (digits2_pos m) + 52)%Z).
    { cbn [Pos.mul Zdigits2 digits2_pos]. rewrite !Pos2Z.inj_succ. lia. }
    rewrite Hd.
    replace (Z.pos (digits2_pos m) + 52 + (-52 + e))%Z
      with (Z.pos (digits2_pos m) + e)%Z by lia.
    rewrite Hc. replace (e - (-52 + e))%Z with 52%Z by lia.
    unfold shr. cbn [iter_pos shr_1 shr_record_of_loc Pos.mul]. f_equal. lia. }
  rewrite Hs. cbn [shr_m loc_of_shr_record round_nearest_even].
  unfold shr_fexp. cbn [Zdigits2]. rewrite Hc. rewrite Z.sub_diag.
  cbn [shr shr_record_of_loc shr_m].
  rewrite He. destruct s; reflexivity.
Qed.

(** Multiplying by [1.0] is exact: [True * eps_min] is [eps_min]. *)
Lemma mul_one_l (x : float) : (1 * x)%float = x.
Proof.
  apply Prim2SF_inj. rewrite mul_spec, SF_one.
  pose proof (Prim2SF_valid x) as Hv.
  destruct (Prim2SF x) as [s | s | | s m e].
  - destruct s; reflexivity.
  - destruct s; reflexivity.
  - reflexivity.
  - apply SFmul_one_finite. exact Hv.
Qed.

Lemma is_zero_spec (x : float) : is_zero x = SF_is_zero (Prim2SF x).
Proof.
  unfold is_zero. rewrite eqb_spec, SF_zero.
  destruct (Prim2SF x) as [s | s | | s m e]; try reflexivity; destruct s; reflexivity.
Qed.

Lemma is_nan_spec (x : float) : is_nan x = SF_is_nan (Prim2SF x).
Proof.
  unfold is_nan. rewrite eqb_spec. unfold SFeqb.
  destruct (Prim2SF x) as [s | s | | s m e]; try reflexivity.
  - destruct s; reflexivity.
  - cbn. destruct s; rewrite Z.compare_refl, Pos.compare_cont_refl; reflexivity.
Qed.

Lemma is_finite_spec (x : float) : is_finite x = SF_is_finite (Prim2SF x).
Proof.
  unfold is_finite, is_infinity. rewrite is_nan_spec, eqb_spec, abs_spec.
  change (Prim2SF infinity) with (S754_infinity false).
  destruct (Prim2SF x) as [s | s | | s m e]; reflexivity.
Qed.

Lemma is_nan_eq (x : float) : is_nan x = true -> x = nan.
Proof.
  rewrite is_nan_spec. intros H. apply Prim2SF_inj.
  destruct (Prim2SF x); try discriminate. reflexivity.
Qed.

(** [x + False * eps_min] is [x] when [x] is not a zero. *)
Lemma add_false_mul (x eps : float) :
  is_zero x = false -> is_finite eps = true -> (x + 0 * eps)%float = x.
Proof.
  rewrite is_zero_spec, is_finite_spec. intros Hx He.
  apply Prim2SF_inj. rewrite add_spec, mul_spec, SF_zero.
  destruct (Prim2SF eps) as [s | s | | s m e]; try discriminate;
  destruct (Prim2SF x) as [sx | sx | | sx mx ex]; try discriminate; reflexivity.
Qed.

(** [x + True * eps_min] is [eps_min] when [x] is a zero. *)
Lemma add_true_mul (x eps : float) :
  is_zero x = true -> is_zero eps = false -> (x + 1 * eps)%float = eps.
Proof.
  rewrite !is_zero_spec. intros Hx He.
  rewrite mul_one_l. apply Prim2SF_inj. rewrite add_spec.
  destruct (Prim2SF x) as [sx | sx | | sx mx ex]; try discriminate.
  destruct (Prim2SF eps) as [s | s | | s m e]; try discriminate; reflexivity.
Qed.

(** The per-element guard: [x + (x == 0) * eps_min]. *)
Lemma guard_element (x eps : float) :
  is_finite eps = true -> is_zero eps = false ->
  (x + float_of_bool (x =? 0) * eps)%float = if is_zero x then eps else x.
Proof.
  intros Hf Hz. fold (is_zero x). destruct (is_zero x) eqn:Hx; cbn [float_of_bool].
  - apply add_true_mul; assumption.
  - apply add_false_mul; assumption.
Qed.

Lemma guard_element_nonzero (x eps : float) :
  is_finite eps = true -> is_zero x = false ->
  (x + float_of_bool (x =? 0) * eps)%float = x.
Proof.
  intros Hf Hx. fold (is_zero x). rewrite Hx. cbn [float_of_bool].
  apply add_false_mul; assumption.
Qed.

(** Equal finite floats have a zero difference. *)
Lemma sub_eqb_zero (x y : float) :
  is_finite x = true -> (x =? y)%float = true -> is_zero (x - y) = true.
Proof.
  rewrite is_finite_spec, eqb_spec, is_zero_spec, sub_spec. unfold SFeqb.
  intros Hf H.
  destruct (Prim2SF x) as [sx | sx | | sx mx ex]; try discriminate;
  destruct (Prim2SF y) as [sy | sy | | sy my ey];
  cbn [SFcompare] in H; try discriminate;
  try (destruct sx; discriminate); try (destruct sy; discriminate).
  - destruct sx, sy; reflexivity.
  - assert (sx = sy /\ ex = ey /\ mx = my) as (-> & -> & ->).
    { destruct sx, sy; try discriminate;
      destruct (Z.compare_spec ex ey); try discriminate;
      change (Pos.compare_cont Eq mx my) with (Pos.compare mx my) in H;
      destruct (Pos.compare_spec mx my) as [Hm | Hm | Hm];
      cbn in H; try discriminate; auto. }
    unfold SF64sub, SFsub. rewrite Z.min_id, Z.sub_diag. reflexivity.
Qed.

Lemma square_zero (z : float) : is_zero z = true -> (z * z)%float = 0%float.
Proof.
  rewrite is_zero_spec. intros H. apply Prim2SF_inj. rewrite mul_spec.
  destruct (Prim2SF z) as [s | s | | s m e]; try discriminate. destruct s; reflexivity.
Qed.

(** The norm of a block of zeros is [+0.0]. *)
Lemma norm2_zeros (v : list float) :
  Forall (fun z => is_zero z = true) v -> norm2 v = 0%float.
Proof.
  intros H. unfold norm2.
  assert (Hs : fold_left PrimFloat.add (map (fun x => (x * x)%float) v) 0%float = 0%float).
  { induction H as [|z v Hz _ IH]; cbn [map fold_left]; [reflexivity|].
    rewrite (square_zero z Hz). exact IH. }
  rewrite Hs. reflexivity.
Qed.

(** ** Facts on lists and blocks *)

Section ListFacts.
Variables A B C : Type.

Lemma map2_length (f : A -> B -> C) l1 l2 :
  length (map2 f l1 l2) = Nat.min (length l1) (length l2).
Proof.
  revert l2; induction l1 as [|x l1 IH]; intros [|y l2]; cbn; auto.
Qed.

Lemma map2_map_r (f : A -> B -> C) (g : A -> B) l :
  map2 f l (map g l) = map (fun x => f x (g x)) l.
Proof. induction l as [|x l IH]; cbn; congruence. Qed.

Lemma nth_map2 (f : A -> B -> C) l1 l2 p da db dc :
  p < length l1 -> p < length l2 ->
  nth p (map2 f l1 l2) dc = f (nth p l1 da) (nth p l2 db).
Proof.
  revert l2 p; induction l1 as [|x l1 IH]; intros [|y l2] [|p] H1 H2;
    cbn in *; try lia; auto.
  apply IH; lia.
Qed.

Lemma chunks_length sz cnt (l : list A) : length (chunks sz cnt l) = cnt.
Proof. revert l; induction cnt as [|c IH]; intros l; cbn; auto. Qed.

Lemma concat_chunks sz cnt (l : list A) :
  length l = cnt * sz -> concat (chunks sz cnt l) = l.
Proof.
  revert l; induction cnt as [|c IH]; intros l H; cbn in *.
  - destruct l; [reflexivity | discriminate].
  - rewrite IH.
    + apply firstn_skipn.
    + rewrite length_skipn. lia.
Qed.

Lemma chunks_block_length sz cnt (l : list A) :
  length l = cnt * sz -> Forall (fun c => length c = sz) (chunks sz cnt l).
Proof.
  revert l; induction cnt as [|c IH]; intros l H; cbn in *; constructor.
  - rewrite length_firstn. lia.
  - apply IH. rewrite length_skipn. lia.
Qed.

Lemma write_range_length start len (f : nat -> A) l :
  length (write_range start len f l) = length l.
Proof.
  unfold write_range. rewrite length_map, length_combine, length_seq. lia.
Qed.

Lemma nth_write_range start len (f : nat -> A) l p d :
  p < length l ->
  nth p (write_range start len f l) d =
  if (start <=? p) && (p <? start + len) then f (p - start) else nth p l d.
Proof.
  intros Hp. unfold write_range.
  set (g := fun kx : nat * A => _).
  rewrite (nth_indep _ d (g (0, d))).
  2:{ rewrite length_map, length_combine, length_seq. lia. }
  rewrite map_nth. rewrite combine_nth by (rewrite length_seq; reflexivity).
  rewrite seq_nth by assumption. reflexivity.
Qed.
End ListFacts.

(** ** Facts on shapes and broadcasting *)

Lemma pad_shape_same (s : list nat) : pad_shape (length s) s = s.
Proof. unfold pad_shape. rewrite Nat.sub_diag. reflexivity. Qed.

Lemma broadcast_dims_same (s : list nat) : broadcast_dims s s = Some s.
Proof.
  induction s as [|a s IH]; cbn; [reflexivity|].
  rewrite IH, Nat.eqb_refl. reflexivity.
Qed.

Lemma broadcast_shapes_same (s : list nat) : broadcast_shapes s s = Some s.
Proof.
  unfold broadcast_shapes. rewrite Nat.max_id, pad_shape_same.
  apply broadcast_dims_same.
Qed.

Lemma broadcast_data_same (A : Type) (s : list nat) (d : list A) :
  length d = size_of s -> broadcast_data s s d = d.
Proof.
  revert d; induction s as [|a s IH]; intros d H; cbn [broadcast_data]; [reflexivity|].
  rewrite Nat.eqb_refl. cbn [size_of fold_right] in H. fold (size_of s) in H.
  rewrite <- (concat_chunks A (size_of s) a d H) at 2. f_equal.
  pose proof (chunks_block_length A (size_of s) a d H) as Hb.
  induction Hb as [|c cs Hc _ IHb]; cbn [map]; [reflexivity|].
  rewrite (IH c Hc), IHb. reflexivity.
Qed.

Lemma broadcast_to_same (A : Type) (a : array A) :
  wf a -> broadcast_to a (shape a) = data a.
Proof.
  intros H. unfold broadcast_to. rewrite pad_shape_same.
  apply broadcast_data_same. exact H.
Qed.

(** On operands of one shape a ufunc works element by element. *)
Lemma ufunc2_same_shape (f : float -> float -> float) (a b : ndarray) :
  shape b = shape a -> wf a -> wf b ->
  ufunc2 f a b = Ok (mk_array (shape a) (map2 f (data a) (data b))).
Proof.
  intros Hs Ha Hb. unfold ufunc2. rewrite Hs, broadcast_shapes_same.
  rewrite (broadcast_to_same float a Ha). rewrite <- Hs at 2.
  rewrite (broadcast_to_same float b Hb). reflexivity.
Qed.

(** Whether a ufunc raises depends on the shapes only. *)
Lemma ufunc2_shape (f : float -> float -> float) (a b : ndarray) (s : list nat) :
  broadcast_shapes (shape a) (shape b) = Some s ->
  exists r, ufunc2 f a b = Ok r /\ shape r = s.
Proof.
  intros H. unfold ufunc2. rewrite H. eexists. split; reflexivity.
Qed.

Lemma linalg_norm_shape (k : nat) (a : ndarray) :
  k <= ndim a ->
  exists r, linalg_norm k a = Ok r /\ shape r = firstn (ndim a - k) (shape a) /\ wf r.
Proof.
  intros H. unfold linalg_norm.
  destruct (Nat.ltb_spec (ndim a) k) as [Hlt | _]; [lia|].
  eexists. split; [reflexivity|]. split; [reflexivity|].
  unfold wf. cbn [data shape]. rewrite length_map, chunks_length. reflexivity.
Qed.

(** ** The guards of the objective *)

Section Guards.
Variable W : Type.
Variable self : metric W.

(** [arr + (arr == 0) * eps_min] element by element. *)
Lemma add_mask_data (a : ndarray) :
  wf a ->
  add a (multiply_scalar (equal_scalar a 0%float) (eps_min self))
  = Ok (mk_array (shape a)
          (map (fun x => (x + float_of_bool (x =? 0) * (eps_min self))%float) (data a))).
Proof.
  intros Ha. unfold add. rewrite ufunc2_same_shape.
  - cbn [multiply_scalar equal_scalar data shape].
    rewrite map_map, map2_map_r. reflexivity.
  - reflexivity.
  - exact Ha.
  - unfold wf. cbn [multiply_scalar equal_scalar data shape].
    rewrite !length_map. exact Ha.
Qed.

Lemma guarded_data (e_x : ndarray) :
  wf e_x -> is_finite (eps_min self) = true -> is_zero (eps_min self) = false ->
  guarded self e_x
  = Ok (mk_array (shape e_x) (map (fun x => if is_zero x then (eps_min self) else x) (data e_x))).
Proof.
  intros Ha Hf Hz. unfold guarded. rewrite (add_mask_data e_x Ha).
  do 2 f_equal. apply map_ext. intros x. apply guard_element; assumption.
Qed.

Lemma guarded_id (e_x : ndarray) :
  wf e_x -> is_finite (eps_min self) = true ->
  Forall (fun x => is_zero x = false) (data e_x) ->
  guarded self e_x = Ok e_x.
Proof.
  intros Ha Hf Hnz. unfold guarded. rewrite (add_mask_data e_x Ha).
  destruct e_x as [s d]. cbn [shape data] in *.
  assert (Hm : map (fun x => (x + float_of_bool (x =? 0) * (eps_min self))%float) d = d).
  { clear Ha. induction Hnz as [|x l Hx _ IH]; cbn [map]; [reflexivity|].
    rewrite IH. f_equal. apply guard_element_nonzero; assumption. }
  rewrite Hm. reflexivity.
Qed.
End Guards.

Lemma map2_sub_guard (eps : float) (l1 l2 : list float) :
  map2 PrimFloat.div (map2 PrimFloat.sub l1 l2)
       (map (fun x => if is_zero x then eps else x) l1)
  = map2 (fun x xs => ((x - xs) / (if is_zero x then eps else x))%float) l1 l2.
Proof.
  revert l2; induction l1 as [|x l1 IH]; intros [|y l2]; cbn; try reflexivity.
  f_equal. apply IH.
Qed.

Lemma guard_never_zero (eps : float) (l : list float) :
  is_zero eps = false ->
  Forall (fun v => is_zero v = false) (map (fun x => if is_zero x then eps else x) l).
Proof.
  intros Hz. apply Forall_map, Forall_forall. intros x _.
  destruct (is_zero x) eqn:Hx; assumption.
Qed.

(** C2. In the nominator, the divisor [e_x + (e_x == 0) * eps_min] is
    [eps_min] at every exactly-zero element of [e_x] and the element itself
    elsewhere; no divisor is a zero, so the element-wise quotient
    [(e_x - e_xs) / guarded(e_x)] never divides by zero.  [eps_min] is a
    finite non-zero float. *)
Theorem C2_guard_is_per_element (W : Type) (self : metric W) (e_x e_xs : ndarray) :
  wf e_x -> wf e_xs -> shape e_xs = shape e_x ->
  is_finite (eps_min self) = true -> is_zero (eps_min self) = false ->
  exists g q,
    guarded self e_x = Ok g /\
    shape g = shape e_x /\
    data g = map (fun x => if is_zero x then eps_min self else x) (data e_x) /\
    Forall (fun v => is_zero v = false) (data g) /\
    elementwise_quotient self e_x e_xs = Ok q /\
    data q = map2 (fun x xs => ((x - xs) / (if is_zero x then eps_min self else x))%float)
               (data e_x) (data e_xs).
Proof.
  intros Ha Hb Hs Hf Hz.
  eexists. eexists. split; [apply guarded_data; assumption|].
  cbn [shape data]. repeat split.
  - apply guard_never_zero. exact Hz.
  - unfold elementwise_quotient, subtract. rewrite (ufunc2_same_shape _ _ _ Hs Ha Hb).
    cbn [res_bind]. rewrite (guarded_data W self e_x Ha Hf Hz). cbn [res_bind].
    unfold divide. rewrite ufunc2_same_shape.
    + cbn [shape data]. rewrite map2_sub_guard. reflexivity.
    + reflexivity.
    + unfold wf. cbn [shape data]. rewrite map2_length, <- Ha.
      unfold wf in Ha, Hb. rewrite Hb, Hs, <- Ha. apply Nat.min_id.
    + unfold wf. cbn [shape data]. rewrite length_map. exact Ha.
  - reflexivity.
Qed.

(** C2 on [e_x = [[0, 4]]], [e_xs = [[1, 4]]] and the default [eps_min]. *)
Lemma C2_guard_is_per_element_witness :
  exists g q,
    guarded Ex.plain Ex.e_zero = Ok g /\
    shape g = shape Ex.e_zero /\
    data g = map (fun x => if is_zero x then eps_min Ex.plain else x) (data Ex.e_zero) /\
    Forall (fun v => is_zero v = false) (data g) /\
    elementwise_quotient Ex.plain Ex.e_zero Ex.e_zero_s = Ok q /\
    data q = map2 (fun x xs => ((x - xs) / (if is_zero x then eps_min Ex.plain else x))%float)
               (data Ex.e_zero) (data Ex.e_zero_s).
Proof.
  apply (C2_guard_is_per_element nat Ex.plain Ex.e_zero Ex.e_zero_s);
    vm_compute; reflexivity.
Defined.

(** ** The denominator *)

Section BlockFacts.
Variable A : Type.
Variable P : A -> Prop.

Lemma Forall_firstn n (l : list A) : Forall P l -> Forall P (firstn n l).
Proof.
  intros H. revert n; induction H as [|x l Hx _ IH]; intros [|n]; cbn; auto.
Qed.

Lemma Forall_skipn n (l : list A) : Forall P l -> Forall P (skipn n l).
Proof.
  intros H. revert n; induction H as [|x l Hx Hl IH]; intros [|n]; cbn; auto.
Qed.

Lemma Forall_chunks sz cnt (l : list A) :
  Forall P l -> Forall (Forall P) (chunks sz cnt l).
Proof.
  revert l; induction cnt as [|c IH]; intros l H; cbn; constructor.
  - apply Forall_firstn; assumption.
  - apply IH, Forall_skipn; assumption.
Qed.
End BlockFacts.

Lemma map_const_repeat (A B : Type) (f : A -> B) (b : B) (l : list A) :
  Forall (fun x => f x = b) l -> map f l = repeat b (length l).
Proof.
  induction 1 as [|x l Hx _ IH]; cbn; [reflexivity|]. rewrite Hx, IH. reflexivity.
Qed.

Lemma map2_sub_zero (l1 l2 : list float) :
  Forall (fun x => is_finite x = true) l1 ->
  Forall2 (fun x y => (x =? y)%float = true) l1 l2 ->
  Forall (fun z => is_zero z = true) (map2 PrimFloat.sub l1 l2).
Proof.
  intros Hf H. induction H as [|x y l1 l2 Hxy _ IH]; cbn; constructor.
  - apply sub_eqb_zero; [inversion Hf; assumption | exact Hxy].
  - apply IH. inversion Hf; assumption.
Qed.

Lemma firstn_map2 (A B C : Type) (f : A -> B -> C) (n : nat) :
  forall l1 l2, firstn n (map2 f l1 l2) = map2 f (firstn n l1) (firstn n l2).
Proof.
  induction n as [|n IH]; intros [|x l1] [|y l2]; cbn; try reflexivity.
  f_equal. apply IH.
Qed.

Lemma skipn_map2 (A B C : Type) (f : A -> B -> C) (n : nat) :
  forall l1 l2, skipn n (map2 f l1 l2) = map2 f (skipn n l1) (skipn n l2).
Proof.
  induction n as [|n IH]; intros [|x l1] [|y l2]; cbn; try reflexivity.
  - destruct (skipn n l1); reflexivity.
  - apply IH.
Qed.

(** The blocks of an element-wise result are the element-wise results of the
    blocks. *)
Lemma chunks_map2 (A B C : Type) (f : A -> B -> C) (sz cnt : nat) :
  forall l1 l2,
  chunks sz cnt (map2 f l1 l2) = map2 (map2 f) (chunks sz cnt l1) (chunks sz cnt l2).
Proof.
  induction cnt as [|c IH]; intros l1 l2; cbn [chunks map2]; [reflexivity|].
  rewrite firstn_map2, skipn_map2, IH. reflexivity.
Qed.

(** [norm(h_x - h_xs, axis=-1)] for logits of shape [(N, C)]. *)
Lemma logit_norm_data (h_x h_xs : ndarray) (N C : nat) :
  wf h_x -> wf h_xs -> shape h_x = [N; C] -> shape h_xs = [N; C] ->
  (let? d := subtract h_x h_xs in linalg_norm 1 d)%res
  = Ok (mk_array [N]
          (map norm2 (chunks C N (map2 PrimFloat.sub (data h_x) (data h_xs))))).
Proof.
  intros Ha Hb Hsa Hsb. unfold subtract.
  rewrite ufunc2_same_shape by (assumption || congruence).
  cbn [res_bind]. unfold linalg_norm, ndim. cbn [shape data]. rewrite Hsa.
  cbn [length Nat.ltb Nat.leb Nat.sub firstn skipn size_of fold_right].
  rewrite !Nat.mul_1_r. reflexivity.
Qed.

(** C3. The denominator is the L2 norm of [h_x - h_xs] over the class axis,
    one scalar per sample, with every exactly-zero norm replaced by
    [eps_min]; it is never zero, and for every sample whose (finite) logits
    are equal element-wise it is exactly [eps_min].  [eps_min] is a finite
    non-zero float. *)
Theorem C3_denominator_guard (W : Type) (self : metric W) (h_x h_xs : ndarray) (N C : nat) :
  wf h_x -> wf h_xs -> shape h_x = [N; C] -> shape h_xs = [N; C] ->
  is_finite (eps_min self) = true -> is_zero (eps_min self) = false ->
  let norms := map norm2 (chunks C N (map2 PrimFloat.sub (data h_x) (data h_xs))) in
  exists d,
    denominator self h_x h_xs = Ok d /\
    shape d = [N] /\
    data d = map (fun v => if is_zero v then eps_min self else v) norms /\
    Forall (fun v => is_zero v = false) (data d) /\
    (forall i, i < N ->
       Forall (fun x => is_finite x = true) (nth i (chunks C N (data h_x)) []) ->
       Forall2 (fun x y => (x =? y)%float = true)
         (nth i (chunks C N (data h_x)) []) (nth i (chunks C N (data h_xs)) []) ->
       nth i (data d) 0%float = eps_min self) /\
    (Forall (fun x => is_finite x = true) (data h_x) ->
     Forall2 (fun x y => (x =? y)%float = true) (data h_x) (data h_xs) ->
     data d = repeat (eps_min self) N).
Proof.
  intros Ha Hb Hsa Hsb Hf Hz norms.
  pose proof (logit_norm_data h_x h_xs N C Ha Hb Hsa Hsb) as Hn. fold norms in Hn.
  assert (Hd : denominator self h_x h_xs
               = Ok (mk_array [N] (map (fun v => if is_zero v then eps_min self else v) norms))).
  { unfold denominator.
    destruct (subtract h_x h_xs) as [t|e]; cbn [res_bind] in *; [|discriminate].
    rewrite Hn. cbn [res_bind].
    apply (guarded_data W self (mk_array [N] norms)); try assumption.
    unfold wf, norms. cbn [shape data size_of fold_right].
    rewrite length_map, chunks_length. lia. }
  eexists. split; [exact Hd|]. cbn [shape data]. repeat split.
  - apply guard_never_zero. exact Hz.
  - intros i Hi Hfin Heq.
    assert (Hlen : i < length norms).
    { unfold norms. rewrite length_map, chunks_length. exact Hi. }
    rewrite (nth_indep _ 0%float
               ((fun v => if is_zero v then eps_min self else v) (norm2 [])))
      by (rewrite length_map; exact Hlen).
    rewrite (map_nth (fun v => if is_zero v then eps_min self else v)).
    unfold norms. rewrite (map_nth norm2). rewrite chunks_map2.
    rewrite (nth_map2 _ _ _ (map2 PrimFloat.sub) _ _ i [] [] [])
      by (rewrite chunks_length; exact Hi).
    rewrite (norm2_zeros _ (map2_sub_zero _ _ Hfin Heq)). reflexivity.
  - intros Hfin Heq.
    assert (Hzero : Forall (fun v => (if is_zero v then eps_min self else v) = eps_min self)
                      norms).
    { unfold norms. apply Forall_map.
      eapply Forall_impl; [| apply Forall_chunks, (map2_sub_zero _ _ Hfin Heq)].
      intros blk Hblk. cbn beta. rewrite (norm2_zeros blk Hblk). reflexivity. }
    rewrite (map_const_repeat _ _ _ _ _ Hzero). unfold norms.
    rewrite length_map, chunks_length. reflexivity.
Qed.

(** C3 on equal logits [[[1]]] and the default [eps_min]. *)
Lemma C3_denominator_guard_witness :
  exists d,
    denominator Ex.plain Ex.h_x Ex.h_x = Ok d /\
    shape d = [1] /\
    data d = map (fun v => if is_zero v then eps_min Ex.plain else v)
               (map norm2 (chunks 1 1 (map2 PrimFloat.sub (data Ex.h_x) (data Ex.h_x)))) /\
    Forall (fun v => is_zero v = false) (data d) /\
    (forall i, i < 1 ->
       Forall (fun x => is_finite x = true) (nth i (chunks 1 1 (data Ex.h_x)) []) ->
       Forall2 (fun x y => (x =? y)%float = true)
         (nth i (chunks 1 1 (data Ex.h_x)) []) (nth i (chunks 1 1 (data Ex.h_x)) []) ->
       nth i (data d) 0%float = eps_min Ex.plain) /\
    (Forall (fun x => is_finite x = true) (data Ex.h_x) ->
     Forall2 (fun x y => (x =? y)%float = true) (data Ex.h_x) (data Ex.h_x) ->
     data d = repeat (eps_min Ex.plain) 1).
Proof.
  apply (C3_denominator_guard nat Ex.plain Ex.h_x Ex.h_x 1 1); vm_compute; reflexivity.
Defined.

(** ** The objective *)

Lemma Ok_inj (A : Type) (a b : A) : Ok a = Ok b -> a = b.
Proof.
  intros H.
  exact (f_equal (fun r => match r with Ok x => x | Raise _ => a end) H).
Qed.

Lemma linalg_norm_wf (k : nat) (a r : ndarray) : linalg_norm k a = Ok r -> wf r.
Proof.
  unfold linalg_norm. destruct (ndim a <? k); [discriminate|].
  intros E. apply Ok_inj in E. subst r. unfold wf. cbn [shape data].
  rewrite length_map, chunks_length. reflexivity.
Qed.

(** C1, as stated, fails: on [e_x = [[3, 4]]], [e_xs = [[0, 4]]],
    [h_x = [[1]]], [h_xs = [[0]]] ([e_x] has no zero and [h_x] differs from
    [h_xs]) the objective is [1.0], the norm of the element-wise quotient
    [[1, 0]], while [norm(e_x - e_xs) / norm(e_x) / norm(h_x - h_xs)] is
    [3 / 5].  And logits that differ can still agree on one sample: on
    [h_x = [[1], [2]]], [h_xs = [[1], [3]]] the guard of the denominator is
    active for the first sample, whose objective is [1 / eps_min] and not the
    [1 / 0] of the unguarded quotient. *)
Lemma C1_counterexample :
  (Forall (fun x => is_zero x = false) (data Ex.e_x) /\
   Ex.h_x <> Ex.h_xs /\
   relative_output_stability_objective Ex.plain Ex.h_x Ex.h_xs Ex.e_x Ex.e_xs
     = Ok (mk_array [1] [1%float]) /\
   claimed_objective Ex.plain Ex.h_x Ex.h_xs Ex.e_x Ex.e_xs
     = Ok (mk_array [1] [(3 / 5)%float]) /\
   relative_output_stability_objective Ex.plain Ex.h_x Ex.h_xs Ex.e_x Ex.e_xs
     <> claimed_objective Ex.plain Ex.h_x Ex.h_xs Ex.e_x Ex.e_xs)
  /\
  (Forall (fun x => is_zero x = false) (data Ex.e_x2) /\
   Ex.h_x2 <> Ex.h_xs2 /\
   relative_output_stability_objective Ex.plain Ex.h_x2 Ex.h_xs2 Ex.e_x2 Ex.e_xs2
     = Ok (mk_array [2] [(1 / Ex.eps_default)%float; 1%float]) /\
   unguarded_objective Ex.plain Ex.h_x2 Ex.h_xs2 Ex.e_x2 Ex.e_xs2
     = Ok (mk_array [2] [infinity; 1%float])).
Proof.
  assert (Ho : relative_output_stability_objective Ex.plain Ex.h_x Ex.h_xs Ex.e_x Ex.e_xs
               = Ok (mk_array [1] [1%float])) by (vm_compute; reflexivity).
  assert (Hc : claimed_objective Ex.plain Ex.h_x Ex.h_xs Ex.e_x Ex.e_xs
               = Ok (mk_array [1] [(3 / 5)%float])) by (vm_compute; reflexivity).
  split.
  - split; [repeat constructor|].
    split.
    { intros E. apply (f_equal (fun a => map Prim2SF (data a))) in E.
      vm_compute in E. discriminate E. }
    split; [exact Ho|]. split; [exact Hc|].
    rewrite Ho, Hc. intros E.
    apply Ok_inj, (f_equal (fun a => map Prim2SF (data a))) in E.
    vm_compute in E. discriminate E.
  - split; [repeat constructor|].
    split.
    { intros E. apply (f_equal (fun a => map Prim2SF (data a))) in E.
      vm_compute in E. discriminate E. }
    split; vm_compute; reflexivity.
Qed.

(** C1, amended.  When [e_x] has no zero element and no sample has a zero
    norm of [h_x - h_xs] (and [eps_min] is finite), no guard is active: the
    objective is the norm of the element-wise quotient [(e_x - e_xs) / e_x]
    divided by the norm of [h_x - h_xs], exactly. *)
Theorem C1_objective_without_guard
    (W : Type) (self : metric W) (h_x h_xs e_x e_xs : ndarray) :
  wf e_x ->
  is_finite (eps_min self) = true ->
  Forall (fun x => is_zero x = false) (data e_x) ->
  (forall n, (let? d := subtract h_x h_xs in linalg_norm 1 d)%res = Ok n ->
             Forall (fun v => is_zero v = false) (data n)) ->
  relative_output_stability_objective self h_x h_xs e_x e_xs
  = unguarded_objective self h_x h_xs e_x e_xs.
Proof.
  intros Ha Hf Hnz Hh.
  unfold relative_output_stability_objective, unguarded_objective.
  destruct (norm_function self (ndim e_x)) as [norm_f|e]; cbn [res_bind]; [|reflexivity].
  unfold elementwise_quotient.
  destruct (subtract e_x e_xs) as [diff|e]; cbn [res_bind]; [|reflexivity].
  rewrite (guarded_id W self e_x Ha Hf Hnz). cbn [res_bind].
  destruct (divide diff e_x) as [q|e]; cbn [res_bind]; [|reflexivity].
  destruct (norm_f q) as [nominator|e]; cbn [res_bind]; [|reflexivity].
  unfold denominator.
  destruct (subtract h_x h_xs) as [t|e]; cbn [res_bind] in *; [|reflexivity].
  destruct (linalg_norm 1 t) as [n|e] eqn:Hn; cbn [res_bind]; [|reflexivity].
  change (add n (multiply_scalar (equal_scalar n 0%float) (eps_min self)))
    with (guarded self n).
  rewrite (guarded_id W self n (linalg_norm_wf _ _ _ Hn) Hf (Hh n eq_refl)).
  reflexivity.
Qed.

(** C1, amended, on the inputs of the counterexample. *)
Lemma C1_objective_without_guard_witness :
  relative_output_stability_objective Ex.plain Ex.h_x Ex.h_xs Ex.e_x Ex.e_xs
  = unguarded_objective Ex.plain Ex.h_x Ex.h_xs Ex.e_x Ex.e_xs.
Proof.
  apply (C1_objective_without_guard nat Ex.plain Ex.h_x Ex.h_xs Ex.e_x Ex.e_xs).
  - reflexivity.
  - reflexivity.
  - repeat constructor.
  - intros n E. vm_compute in E. apply Ok_inj in E. subst n. repeat constructor.
Defined.

(** ** Rank dispatch *)

Lemma elementwise_quotient_shape (W : Type) (self : metric W) (e_x e_xs : ndarray) :
  shape e_xs = shape e_x ->
  exists q, elementwise_quotient self e_x e_xs = Ok q /\ shape q = shape e_x.
Proof.
  intros Hs. unfold elementwise_quotient, subtract, guarded, add, divide.
  destruct (ufunc2_shape PrimFloat.sub e_x e_xs (shape e_x)) as (diff & -> & Hd).
  { rewrite Hs. apply broadcast_shapes_same. }
  cbn [res_bind].
  destruct (ufunc2_shape PrimFloat.add e_x
              (multiply_scalar (equal_scalar e_x 0%float) (eps_min self)) (shape e_x))
    as (g & -> & Hg).
  { apply broadcast_shapes_same. }
  cbn [res_bind].
  apply ufunc2_shape. rewrite Hd, Hg. apply broadcast_shapes_same.
Qed.

Lemma denominator_shape (W : Type) (self : metric W) (h_x h_xs : ndarray) (N C : nat) :
  shape h_x = [N; C] -> shape h_xs = [N; C] ->
  exists d, denominator self h_x h_xs = Ok d /\ shape d = [N].
Proof.
  intros Ha Hb. unfold denominator, subtract, add.
  destruct (ufunc2_shape PrimFloat.sub h_x h_xs [N; C]) as (t & -> & Ht).
  { rewrite Ha, Hb. apply broadcast_shapes_same. }
  cbn [res_bind].
  destruct (linalg_norm_shape 1 t) as (n & -> & Hn & _).
  { unfold ndim. rewrite Ht. cbn. lia. }
  cbn [res_bind]. unfold ndim in Hn. rewrite Ht in Hn. cbn in Hn.
  apply ufunc2_shape. cbn [multiply_scalar equal_scalar shape]. rewrite Hn.
  apply broadcast_shapes_same.
Qed.

(** For ranks 2, 3 and 4 the selected norm leaves the batch axis. *)
Lemma norm_function_batch_axis (W : Type) (self : metric W) (q : ndarray) (N : nat) :
  ndim q = 2 \/ ndim q = 3 \/ ndim q = 4 -> hd 0 (shape q) = N ->
  exists norm_f n,
    norm_function self (ndim q) = Ok norm_f /\ norm_f q = Ok n /\ shape n = [N].
Proof.
  intros Hr Hh. unfold ndim in *. destruct q as [s d]. cbn [shape] in *.
  destruct s as [|a [|b [|c [|e [|f s]]]]]; cbn [length] in Hr;
    try (exfalso; lia); cbn [hd] in Hh; subst a.
  - eexists. eexists. split; [reflexivity|]. split; reflexivity.
  - eexists. eexists. split; [reflexivity|]. split; reflexivity.
  - eexists. eexists. split; [reflexivity|]. split; reflexivity.
Qed.

Lemma broadcast_vector_column (N : nat) : broadcast_shapes [N] [N; 1] = Some [N; N].
Proof.
  unfold broadcast_shapes. cbn.
  destruct (Nat.eqb_spec N 1) as [->|H1]; [reflexivity|].
  destruct N as [|[|N]]; try reflexivity.
Qed.

(** On ranks 2, 3 and 4 the objective returns one value per sample (and, in
    multi-label mode, an [N] by [N] table: the label axis is not kept). *)
Lemma objective_batch_shape
    (W : Type) (self : metric W) (h_x h_xs e_x e_xs : ndarray) (N C : nat) :
  shape e_xs = shape e_x ->
  ndim e_x = 2 \/ ndim e_x = 3 \/ ndim e_x = 4 ->
  hd 0 (shape e_x) = N -> shape h_x = [N; C] -> shape h_xs = [N; C] ->
  exists r, relative_output_stability_objective self h_x h_xs e_x e_xs = Ok r /\
            shape r = if multi_label self then [N; N] else [N].
Proof.
  intros Hs Hr Hh Ha Hb. unfold relative_output_stability_objective.
  destruct (elementwise_quotient_shape W self e_x e_xs Hs) as (q & Hq & Hqs).
  destruct (norm_function_batch_axis W self q N) as (norm_f & n & Hnf & Hn & Hns).
  { unfold ndim in *. rewrite Hqs. exact Hr. }
  { rewrite Hqs. exact Hh. }
  replace (ndim e_x) with (ndim q) by (unfold ndim; rewrite Hqs; reflexivity).
  rewrite Hnf. cbn [res_bind]. rewrite Hq. cbn [res_bind]. rewrite Hn. cbn [res_bind].
  destruct (denominator_shape W self h_x h_xs N C Ha Hb) as (d & -> & Hd).
  cbn [res_bind]. unfold divide.
  destruct (multi_label self).
  - apply ufunc2_shape. cbn [expand_dims_last shape]. rewrite Hns, Hd.
    apply broadcast_vector_column.
  - apply ufunc2_shape. rewrite Hns, Hd. apply broadcast_shapes_same.
Qed.

(** C4, as stated, fails: in multi-label mode an explanation tensor of rank 5
    is dispatched to a norm and no error is raised. *)
Lemma C4_counterexample :
  ndim Ex.a_batch5 = 5 /\
  is_ok (relative_output_stability_objective Ex.multi5
           (fst (predict Ex.stub_model Ex.x_batch 0))
           (fst (predict Ex.stub_model Ex.x_batch 0))
           Ex.a_batch5 Ex.a_batch5) = true /\
  relative_output_stability_objective Ex.multi5
    (fst (predict Ex.stub_model Ex.x_batch 0))
    (fst (predict Ex.stub_model Ex.x_batch 0))
    Ex.a_batch5 Ex.a_batch5 <> Raise UnsupportedShape.
Proof.
  split; [reflexivity|]. split; [vm_compute; reflexivity|].
  intros E. apply (f_equal is_ok) in E. vm_compute in E. discriminate E.
Qed.

(** C4, amended.  On explanation tensors of rank 2, 3 or 4, with [e_xs] of
    the shape of [e_x] and logits of shape [(N, C)] for the [N] of the batch
    axis, the objective returns; for every rank other than 2, 3, 4 and, in
    multi-label mode, 5 it raises the UnsupportedShape error and returns
    nothing. *)
Theorem C4_rank_dispatch
    (W : Type) (self : metric W) (h_x h_xs e_x e_xs : ndarray) (N C : nat) :
  (shape e_xs = shape e_x ->
   ndim e_x = 2 \/ ndim e_x = 3 \/ ndim e_x = 4 ->
   hd 0 (shape e_x) = N -> shape h_x = [N; C] -> shape h_xs = [N; C] ->
   exists r, relative_output_stability_objective self h_x h_xs e_x e_xs = Ok r)
  /\
  (ndim e_x <> 2 -> ndim e_x <> 3 -> ndim e_x <> 4 ->
   ~ (ndim e_x = 5 /\ multi_label self = true) ->
   relative_output_stability_objective self h_x h_xs e_x e_xs = Raise UnsupportedShape).
Proof.
  split.
  - intros Hs Hr Hh Ha Hb.
    destruct (objective_batch_shape W self h_x h_xs e_x e_xs N C Hs Hr Hh Ha Hb)
      as (r & Hobj & _).
    exists r. exact Hobj.
  - intros H2 H3 H4 H5. unfold relative_output_stability_objective, norm_function.
    destruct (Nat.eqb_spec (ndim e_x) 4) as [|_]; [contradiction|].
    destruct (Nat.eqb_spec (ndim e_x) 3) as [|_]; [contradiction|].
    destruct (Nat.eqb_spec (ndim e_x) 2) as [|_]; [contradiction|].
    destruct (Nat.eqb_spec (ndim e_x) 5) as [E|_]; cbn [andb]; [|reflexivity].
    destruct (multi_label self); [|reflexivity].
    exfalso. apply H5. split; [exact E | reflexivity].
Qed.

(** C4, amended, on a rank-2 and on a rank-1 explanation tensor. *)
Lemma C4_rank_dispatch_witness :
  (exists r, relative_output_stability_objective Ex.plain Ex.h_x Ex.h_xs Ex.e_x Ex.e_xs = Ok r)
  /\
  relative_output_stability_objective Ex.plain Ex.h_x Ex.h_xs
    (mk_array [2] [3%float; 4%float]) (mk_array [2] [0%float; 4%float])
  = Raise UnsupportedShape.
Proof.
  split.
  - apply (proj1 (C4_rank_dispatch nat Ex.plain Ex.h_x Ex.h_xs Ex.e_x Ex.e_xs 1 1));
      try reflexivity. left. reflexivity.
  - apply (proj2 (C4_rank_dispatch nat Ex.plain Ex.h_x Ex.h_xs
                    (mk_array [2] [3%float; 4%float]) (mk_array [2] [0%float; 4%float]) 1 1));
      cbn; try discriminate. intros [E _]. discriminate E.
Defined.

(** ** The sampling loop and what it calls *)

Section Sampling.
Variable W : Type.
Variables (self : metric W) (m : model W).
Variables (logits x_batch : ndarray) (y_batch : labels) (a_batch : ndarray).

(** A draw that returns has made its four calls, and stored what
    [store_draw] computes from their results. *)
Lemma sampling_draw_run (ros_batch ros_batch' : ndarray) (index : nat) (st st' : state W) :
  sampling_draw self m logits x_batch y_batch a_batch ros_batch index st
    = (Ok ros_batch', st') ->
  exists d,
    run_collaborators self m x_batch y_batch st = (d, st') /\
    store_draw self logits a_batch ros_batch index d = Ok ros_batch'.
Proof.
  unfold sampling_draw, run_collaborators, store_draw, bind, lift, ret,
    call_perturb_batch, call_explain_batch, call_predict,
    call_changed_prediction_indices.
  destruct (first_item_shape x_batch) as [s|e]; [|discriminate].
  destruct (perturb_batch self x_batch (world st)) as [xp w1]. cbn [world trace].
  destruct (explain_batch self m xp y_batch w1) as [ap w2]. cbn [world trace].
  destruct (predict m xp w2) as [hp w3]. cbn [world trace].
  destruct (relative_output_stability_objective self logits hp a_batch ap) as [ros|e] eqn:Eo;
    [|discriminate].
  destruct (setitem_row ros_batch index ros) as [rb1|e] eqn:Er; [|discriminate].
  destruct (changed_prediction_indices_func self m x_batch xp w3) as [c w4].
  cbn [world trace].
  intros H. exists (mk_draw xp ap hp c).
  unfold draw_events. cbn [d_changed d_h d_a d_x].
  rewrite Eo. cbn [res_bind]. rewrite Er. cbn [res_bind].
  rewrite <- !app_assoc in H. cbn [app] in H.
  apply (f_equal fst) in H as H1. apply (f_equal snd) in H as H2.
  cbn [fst snd] in H1, H2. subst st'.
  destruct (negb (length c =? 0)).
  - destruct (setitem_cells rb1 index c nan) as [rb2|e] eqn:E.
    + split; [reflexivity | exact H1].
    + discriminate H1.
  - split; [reflexivity | exact H1].
Qed.

(** Conversely, with a batch that is not empty, the draw returns whatever
    [store_draw] computes. *)
Lemma sampling_draw_store (ros_batch : ndarray) (index : nat) (st st' : state W)
    (d : draw) (s : list nat) :
  first_item_shape x_batch = Ok s ->
  run_collaborators self m x_batch y_batch st = (d, st') ->
  is_ok (let? ros := relative_output_stability_objective self logits (d_h d) a_batch (d_a d) in
         setitem_row ros_batch index ros)%res = true ->
  sampling_draw self m logits x_batch y_batch a_batch ros_batch index st
    = (store_draw self logits a_batch ros_batch index d, st').
Proof.
  unfold sampling_draw, run_collaborators, store_draw, bind, lift, ret,
    call_perturb_batch, call_explain_batch, call_predict,
    call_changed_prediction_indices.
  intros ->.
  destruct (perturb_batch self x_batch (world st)) as [xp w1]. cbn [world trace].
  destruct (explain_batch self m xp y_batch w1) as [ap w2]. cbn [world trace].
  destruct (predict m xp w2) as [hp w3]. cbn [world trace].
  destruct (changed_prediction_indices_func self m x_batch xp w3) as [c w4].
  intros H. apply (f_equal fst) in H as Hd. apply (f_equal snd) in H as Hs.
  cbn [fst snd] in Hd, Hs. subst d st'. cbn [d_changed d_h d_a d_x draw_events].
  destruct (relative_output_stability_objective self logits hp a_batch ap) as [ros|e];
    cbn [res_bind is_ok]; [|discriminate].
  destruct (setitem_row ros_batch index ros) as [rb1|e]; cbn [is_ok]; [|discriminate].
  intros _. cbn [world trace].
  rewrite <- !app_assoc. cbn [app].
  destruct (negb (length c =? 0)); reflexivity.
Qed.

Lemma run_collaborators_trace (st st' : state W) (d : draw) :
  run_collaborators self m x_batch y_batch st = (d, st') ->
  trace st' = trace st ++ draw_events x_batch y_batch d.
Proof.
  unfold run_collaborators.
  destruct (perturb_batch self x_batch (world st)) as [xp w1].
  destruct (explain_batch self m xp y_batch w1) as [ap w2].
  destruct (predict m xp w2) as [hp w3].
  destruct (changed_prediction_indices_func self m x_batch xp w3) as [c w4].
  intros H. apply (f_equal fst) in H as Hd. apply (f_equal snd) in H as Hs.
  cbn [fst snd] in Hd, Hs. subst d st'. reflexivity.
Qed.

(** A loop that returns has made one draw per index, in order. *)
Lemma sampling_loop_run (indices : list nat) :
  forall (ros_batch ros_batch' : ndarray) (st st' : state W),
  sampling_loop self m logits x_batch y_batch a_batch indices ros_batch st
    = (Ok ros_batch', st') ->
  exists ds,
    length ds = length indices /\
    trace st' = trace st ++ flat_map (draw_events x_batch y_batch) ds /\
    store_draws self logits a_batch indices ds ros_batch = Ok ros_batch'.
Proof.
  induction indices as [|index rest IH]; intros rb rb' st st' H.
  - cbn in H. exists []. cbn. rewrite app_nil_r.
    apply (f_equal fst) in H as H1. apply (f_equal snd) in H as H2. cbn in H1, H2.
    subst st'. auto.
  - cbn [sampling_loop] in H. unfold bind in H.
    destruct (sampling_draw self m logits x_batch y_batch a_batch rb index st)
      as [[rb1|e] st1] eqn:Hd.
    + destruct (sampling_draw_run _ _ _ _ _ Hd) as (d & Hrun & Hstore).
      destruct (IH _ _ _ _ H) as (ds & Hlen & Htr & Hds).
      exists (d :: ds). cbn [length flat_map store_draws]. split; [congruence|]. split.
      * rewrite Htr, (run_collaborators_trace _ _ _ Hrun), <- app_assoc. reflexivity.
      * rewrite Hstore. cbn [res_bind]. exact Hds.
    + apply (f_equal fst) in H. discriminate H.
Qed.
End Sampling.

(** ** Cells of the draw matrix *)

Lemma setitem_row_frame (arr v arr' : ndarray) (index n : nat) (rest : list nat) :
  setitem_row arr index v = Ok arr' -> shape arr = n :: rest ->
  shape arr' = shape arr /\ length (data arr') = length (data arr) /\ index < n /\
  forall p, p < length (data arr) ->
    ~ (index * size_of rest <= p < index * size_of rest + size_of rest) ->
    nth p (data arr') 0%float = nth p (data arr) 0%float.
Proof.
  unfold setitem_row. intros H Hs. rewrite Hs in H.
  destruct (Nat.ltb_spec index n) as [Hi|Hi]; [|discriminate].
  destruct (assign_broadcast v rest) as [src|]; [|discriminate].
  apply Ok_inj in H. subst arr'. cbn [shape data].
  rewrite write_range_length. repeat split; auto.
  intros p Hp Hout. rewrite nth_write_range by exact Hp.
  destruct (Nat.leb_spec (index * size_of rest) p);
    destruct (Nat.ltb_spec p (index * size_of rest + size_of rest));
    cbn [andb]; try reflexivity. lia.
Qed.

Lemma nth_fold_write_range (A : Type) (c : list nat) (base inner : nat) (v d0 : A) :
  forall (d : list A) (p : nat), p < length d ->
  nth p (fold_left (fun d i => write_range (base + i * inner) inner (fun _ => v) d) c d) d0
  = if existsb (fun i => (base + i * inner <=? p) && (p <? base + i * inner + inner)) c
    then v else nth p d d0.
Proof.
  induction c as [|i c IH]; intros d p Hp; cbn [fold_left existsb]; [reflexivity|].
  rewrite IH by (rewrite write_range_length; exact Hp).
  rewrite nth_write_range by exact Hp.
  destruct ((base + i * inner <=? p) && (p <? base + i * inner + inner)); cbn [orb].
  - destruct (existsb _ c); reflexivity.
  - reflexivity.
Qed.

Lemma fold_write_range_length (A : Type) (c : list nat) (base inner : nat) (v : A) :
  forall d : list A,
  length (fold_left (fun d i => write_range (base + i * inner) inner (fun _ => v) d) c d)
  = length d.
Proof.
  induction c as [|i c IH]; intros d; cbn [fold_left]; [reflexivity|].
  rewrite IH. apply write_range_length.
Qed.

Lemma setitem_cells_spec (arr arr' : ndarray) (index : nat) (c : list nat) (v : float)
    (n m : nat) (rest : list nat) :
  setitem_cells arr index c v = Ok arr' -> shape arr = n :: m :: rest ->
  shape arr' = shape arr /\ length (data arr') = length (data arr) /\ index < n /\
  Forall (fun j => j < m) c /\
  forall p, p < length (data arr) ->
    nth p (data arr') 0%float =
    if existsb (fun i => (index * (m * size_of rest) + i * size_of rest <=? p)
                         && (p <? index * (m * size_of rest) + i * size_of rest + size_of rest)) c
    then v else nth p (data arr) 0%float.
Proof.
  unfold setitem_cells. intros H Hs. rewrite Hs in H.
  destruct (Nat.ltb_spec index n) as [Hi|Hi]; [|discriminate].
  destruct (forallb (fun i => i <? m) c) eqn:Hc; [|discriminate].
  apply Ok_inj in H. subst arr'. cbn [shape data].
  rewrite fold_write_range_length. repeat split; auto.
  - apply Forall_forall. intros j Hj.
    rewrite forallb_forall in Hc. apply Nat.ltb_lt, Hc, Hj.
  - intros p Hp. apply nth_fold_write_range. exact Hp.
Qed.

(** Writing NaN at in-range sample indices never raises. *)
Lemma setitem_cells_ok (arr : ndarray) (index : nat) (c : list nat) (v : float)
    (n m : nat) (rest : list nat) :
  shape arr = n :: m :: rest -> index < n -> Forall (fun j => j < m) c ->
  exists arr', setitem_cells arr index c v = Ok arr'.
Proof.
  intros Hs Hi Hc. unfold setitem_cells. rewrite Hs.
  destruct (Nat.ltb_spec index n) as [_|]; [|lia].
  assert (Hb : forallb (fun i => i <? m) c = true).
  { apply forallb_forall. intros j Hj. apply Nat.ltb_lt.
    rewrite Forall_forall in Hc. apply Hc, Hj. }
  rewrite Hb. eexists. reflexivity.
Qed.

(** Arithmetic of the cells: position [index * (m * inner) + j * inner + k]
    is cell [k] of sample [j] in row [index]. *)
Lemma cell_bound (n m inner index j k : nat) :
  index < n -> j < m -> k < inner ->
  index * (m * inner) + j * inner + k < n * (m * inner).
Proof.
  intros Hi Hj Hk.
  assert (j * inner + k < m * inner) by nia.
  assert (index * (m * inner) + m * inner <= n * (m * inner)) by nia.
  lia.
Qed.

Lemma cell_in_own_row (m inner index j k : nat) :
  j < m -> k < inner ->
  index * (m * inner) <= index * (m * inner) + j * inner + k
                      < index * (m * inner) + m * inner.
Proof. intros Hj Hk. assert (j * inner + k < m * inner) by nia. lia. Qed.

Lemma marked_cell_in_row (m inner base j p : nat) :
  j < m -> base + j * inner <= p -> p < base + j * inner + inner ->
  base <= p < base + m * inner.
Proof. intros Hj H1 H2. assert (j * inner + inner <= m * inner) by nia. lia. Qed.

Lemma rows_disjoint (R i i' p : nat) :
  i <> i' -> i * R <= p < i * R + R -> ~ (i' * R <= p < i' * R + R).
Proof.
  intros Hne Hp Hp'.
  destruct (Nat.lt_total i i') as [Hlt | [Heq | Hgt]]; [nia | contradiction | nia].
Qed.

Section StoreDraw.
Variable W : Type.
Variable self : metric W.
Variables logits a_batch : ndarray.
Variables (n m : nat) (rest : list nat).

Lemma store_draw_spec (ros_batch ros_batch' : ndarray) (index : nat) (d : draw) :
  store_draw self logits a_batch ros_batch index d = Ok ros_batch' ->
  shape ros_batch = n :: m :: rest -> wf ros_batch ->
  shape ros_batch' = shape ros_batch /\ wf ros_batch' /\ index < n /\
  Forall (fun j => j < m) (d_changed d) /\
  (forall j k, In j (d_changed d) -> k < size_of rest ->
     nth (index * (m * size_of rest) + j * size_of rest + k) (data ros_batch') 0%float = nan) /\
  (forall p, ~ (index * (m * size_of rest) <= p < index * (m * size_of rest) + (m * size_of rest)) ->
     nth p (data ros_batch') 0%float = nth p (data ros_batch) 0%float).
Proof.
  unfold store_draw. intros H Hs Hwf.
  destruct (relative_output_stability_objective self logits (d_h d) a_batch (d_a d))
    as [ros|e]; cbn [res_bind] in H; [|discriminate].
  destruct (setitem_row ros_batch index ros) as [rb1|e] eqn:Er;
    cbn [res_bind] in H; [|discriminate].
  destruct (setitem_row_frame _ _ _ _ _ _ Er Hs) as (Hs1 & Hl1 & Hi & Hf1).
  assert (Hlen : length (data ros_batch) = n * (m * size_of rest)).
  { unfold wf in Hwf. rewrite Hwf, Hs. reflexivity. }
  assert (Hframe1 : forall p, ~ (index * (m * size_of rest) <= p < index * (m * size_of rest) + (m * size_of rest)) ->
            nth p (data rb1) 0%float = nth p (data ros_batch) 0%float).
  { intros p Hp. destruct (Nat.lt_ge_cases p (length (data ros_batch))) as [Hlt|Hge].
    - apply Hf1; [exact Hlt|]. exact Hp.
    - rewrite !nth_overflow; auto. lia. }
  destruct (d_changed d) as [|j0 c0] eqn:Ec; cbn [length Nat.eqb negb] in H.
  - apply Ok_inj in H. subst ros_batch'. repeat split; auto.
    + unfold wf in *. congruence.
    + intros j k [].
  - rewrite <- Ec in *. clear Ec j0 c0.
    assert (Hs1' : shape rb1 = n :: m :: rest) by congruence.
    destruct (setitem_cells_spec _ _ _ _ _ _ _ _ H Hs1') as (Hs2 & Hl2 & _ & Hc & Hn).
    repeat split; auto.
    + congruence.
    + unfold wf in *. congruence.
    + intros j k Hj Hk.
      assert (Hjm : j < m) by (rewrite Forall_forall in Hc; apply Hc, Hj).
      rewrite Hn.
      * assert (Hex : existsb (fun i => (index * (m * size_of rest) + i * size_of rest
                                         <=? index * (m * size_of rest) + j * size_of rest + k)
                                 && (index * (m * size_of rest) + j * size_of rest + k
                                     <? index * (m * size_of rest) + i * size_of rest
                                        + size_of rest)) (d_changed d) = true).
        { apply existsb_exists. exists j. split; [exact Hj|].
          apply andb_true_intro. split.
          - apply Nat.leb_le. lia.
          - apply Nat.ltb_lt. lia. }
        rewrite Hex. reflexivity.
      * rewrite Hl1, Hlen. apply cell_bound; assumption.
    + intros p Hp. destruct (Nat.lt_ge_cases p (length (data rb1))) as [Hlt|Hge].
      * rewrite Hn by exact Hlt.
        assert (Hex : existsb (fun i => (index * (m * size_of rest) + i * size_of rest <=? p)
                                 && (p <? index * (m * size_of rest) + i * size_of rest
                                          + size_of rest)) (d_changed d) = false).
        { apply not_true_is_false. intros Hex. apply existsb_exists in Hex.
          destruct Hex as (j & Hj & Hr). apply andb_prop in Hr. destruct Hr as [H1 H2].
          apply Nat.leb_le in H1. apply Nat.ltb_lt in H2.
          assert (Hjm : j < m) by (rewrite Forall_forall in Hc; apply Hc, Hj).
          apply Hp. apply (marked_cell_in_row m (size_of rest) _ j p Hjm H1 H2). }
        rewrite Hex. apply Hframe1, Hp.
      * rewrite nth_overflow by lia. rewrite <- Hframe1 by exact Hp.
        rewrite nth_overflow by lia. reflexivity.
Qed.

(** Draws at other indices leave a (m * size_of rest) untouched. *)
Lemma store_draws_frame (indices : list nat) :
  forall (ds : list draw) (ros_batch ros_batch' : ndarray) (i : nat),
  store_draws self logits a_batch indices ds ros_batch = Ok ros_batch' ->
  shape ros_batch = n :: m :: rest -> wf ros_batch -> ~ In i indices ->
  shape ros_batch' = shape ros_batch /\ wf ros_batch' /\
  forall p, i * (m * size_of rest) <= p < i * (m * size_of rest) + (m * size_of rest) ->
    nth p (data ros_batch') 0%float = nth p (data ros_batch) 0%float.
Proof.
  induction indices as [|index indices IH]; intros ds rb rb' i H Hs Hwf Hi.
  - cbn in H. apply Ok_inj in H. subst rb'. auto.
  - destruct ds as [|d ds].
    + cbn in H. apply Ok_inj in H. subst rb'. auto.
    + cbn [store_draws] in H.
      destruct (store_draw self logits a_batch rb index d) as [rb1|e] eqn:Ed;
        cbn [res_bind] in H; [|discriminate].
      destruct (store_draw_spec _ _ _ _ Ed Hs Hwf) as (Hs1 & Hwf1 & _ & _ & _ & Hfr).
      destruct (IH ds rb1 rb' i H) as (Hs2 & Hwf2 & Hfr2); try congruence.
      { intros Hin. apply Hi. right. exact Hin. }
      repeat split; try congruence.
      intros p Hp. rewrite Hfr2 by exact Hp. apply Hfr.
      assert (index <> i) by (intros ->; apply Hi; left; reflexivity).
      nia.
Qed.

(** Every cell a draw marked is NaN when the loop is over. *)
Lemma store_draws_marked (indices : list nat) :
  forall (ds : list draw) (ros_batch ros_batch' : ndarray),
  store_draws self logits a_batch indices ds ros_batch = Ok ros_batch' ->
  shape ros_batch = n :: m :: rest -> wf ros_batch -> NoDup indices ->
  shape ros_batch' = shape ros_batch /\ wf ros_batch' /\
  forall q i d j k,
    nth_error indices q = Some i -> nth_error ds q = Some d ->
    In j (d_changed d) -> k < size_of rest ->
    i < n /\ j < m /\ nth (i * (m * size_of rest) + j * size_of rest + k) (data ros_batch') 0%float = nan.
Proof.
  induction indices as [|index indices IH]; intros ds rb rb' H Hs Hwf Hnd.
  - cbn in H. apply Ok_inj in H. subst rb'. repeat split; auto;
      destruct q; discriminate.
  - destruct ds as [|d0 ds].
    + cbn in H. apply Ok_inj in H. subst rb'. repeat split; auto;
        destruct q; discriminate.
    + cbn [store_draws] in H.
      destruct (store_draw self logits a_batch rb index d0) as [rb1|e] eqn:Ed;
        cbn [res_bind] in H; [|discriminate].
      destruct (store_draw_spec _ _ _ _ Ed Hs Hwf) as (Hs1 & Hwf1 & Hi & Hc & Hnan & _).
      inversion Hnd as [|? ? Hnotin Hnd']; subst.
      assert (Hs1' : shape rb1 = n :: m :: rest) by congruence.
      destruct (IH ds rb1 rb' H Hs1' Hwf1 Hnd') as (Hs2 & Hwf2 & Hrest).
      split; [congruence|]. split; [exact Hwf2|].
      intros q i d j k Hq Hd Hj Hk. destruct q as [|q]; cbn [nth_error] in Hq, Hd.
      * injection Hq as <-. injection Hd as <-.
        assert (Hjm : j < m) by (rewrite Forall_forall in Hc; apply Hc, Hj).
        repeat split; auto.
        destruct (store_draws_frame _ _ _ _ _ H Hs1' Hwf1 Hnotin) as (_ & _ & Hfr).
        rewrite Hfr by (apply cell_in_own_row; assumption). apply Hnan; assumption.
      * eapply Hrest; eassumption.
Qed.
End StoreDraw.

(** ** The maximum over the draws *)

Lemma leb_nan_l (a : float) : (nan <=? a)%float = false.
Proof. rewrite leb_spec. reflexivity. Qed.

Lemma maximum_nan_l (b : float) : maximum nan b = nan.
Proof.
  unfold maximum. change (is_nan nan) with true. rewrite orb_true_r. reflexivity.
Qed.

Lemma maximum_nan_r (a : float) : maximum a nan = nan.
Proof.
  unfold maximum. rewrite leb_nan_l. cbn [orb].
  destruct (is_nan a) eqn:E; [apply is_nan_eq; exact E | reflexivity].
Qed.

(** One NaN among the values makes the reduction NaN. *)
Lemma fold_maximum_nan (l : list float) :
  forall a, a = nan \/ In nan l -> fold_left maximum l a = nan.
Proof.
  induction l as [|x l IH]; intros a [Ha|Hin]; cbn [fold_left].
  - exact Ha.
  - destruct Hin.
  - apply IH. left. subst a. apply maximum_nan_l.
  - apply IH. destruct Hin as [Hx|Hin].
    + left. subst x. apply maximum_nan_r.
    + right. exact Hin.
Qed.

Lemma maximum_cases (a b : float) : maximum a b = a \/ maximum a b = b.
Proof. unfold maximum. destruct ((b <=? a)%float || is_nan a); auto. Qed.

(** The reduction returns one of the values. *)
Lemma fold_maximum_in (l : list float) :
  forall a, In (fold_left maximum l a) (a :: l).
Proof.
  induction l as [|x l IH]; intros a; cbn [fold_left].
  - left. reflexivity.
  - destruct (IH (maximum a x)) as [E|Hin].
    + destruct (maximum_cases a x) as [Ea|Ex].
      * left. congruence.
      * right. left. congruence.
    + right. right. exact Hin.
Qed.

(** *** The order of binary64 on values that are not NaN *)

Lemma SFleb_key (x y : spec_float) :
  SF_is_nan x = false -> SF_is_nan y = false ->
  (SFleb x y = true <-> key_le (order_key x) (order_key y)).
Proof.
  intros Hx Hy. unfold SFleb, key_le.
  destruct x as [sx | sx | | sx mx ex]; try discriminate;
  destruct y as [sy | sy | | sy my ey]; try discriminate;
  cbn [SFcompare order_key];
  try (destruct sx); try (destruct sy); cbn [order_key];
  try (split; [intros _; lia | reflexivity]);
  try (split; [discriminate | intros; exfalso; lia]).
  - destruct (Z.compare_spec ex ey).
    + change (Pos.compare_cont Eq mx my) with (Pos.compare mx my).
      destruct (Pos.compare_spec mx my); cbn [CompOpp];
        (split; [try discriminate; intros _; lia | try reflexivity; intros; exfalso; lia]).
    + split; [discriminate | intros; exfalso; lia].
    + split; [intros _; lia | reflexivity].
  - destruct (Z.compare_spec ex ey).
    + change (Pos.compare_cont Eq mx my) with (Pos.compare mx my).
      destruct (Pos.compare_spec mx my);
        (split; [try discriminate; intros _; lia | try reflexivity; intros; exfalso; lia]).
    + split; [intros _; lia | reflexivity].
    + split; [discriminate | intros; exfalso; lia].
Qed.

Lemma leb_key (x y : float) :
  is_nan x = false -> is_nan y = false ->
  ((x <=? y)%float = true <-> key_le (order_key (Prim2SF x)) (order_key (Prim2SF y))).
Proof.
  rewrite !is_nan_spec, leb_spec. apply SFleb_key.
Qed.

Lemma key_le_refl (k : Z * Z * Z) : key_le k k.
Proof. destruct k as [[a b] c]. unfold key_le. lia. Qed.

Lemma key_le_trans (k1 k2 k3 : Z * Z * Z) : key_le k1 k2 -> key_le k2 k3 -> key_le k1 k3.
Proof.
  destruct k1 as [[a1 b1] c1], k2 as [[a2 b2] c2], k3 as [[a3 b3] c3].
  unfold key_le. lia.
Qed.

Lemma key_le_total (k1 k2 : Z * Z * Z) : key_le k1 k2 \/ key_le k2 k1.
Proof.
  destruct k1 as [[a1 b1] c1], k2 as [[a2 b2] c2]. unfold key_le. lia.
Qed.

Lemma maximum_not_nan (a b : float) :
  is_nan a = false -> is_nan b = false -> is_nan (maximum a b) = false.
Proof. intros Ha Hb. destruct (maximum_cases a b) as [-> | ->]; assumption. Qed.

Lemma maximum_upper (a b : float) :
  is_nan a = false -> is_nan b = false ->
  (a <=? maximum a b)%float = true /\ (b <=? maximum a b)%float = true.
Proof.
  intros Ha Hb. unfold maximum. rewrite Ha, orb_false_r.
  destruct (b <=? a)%float eqn:E.
  - split; [|exact E]. apply leb_key; auto. apply key_le_refl.
  - split; [|apply leb_key; auto; apply key_le_refl].
    apply leb_key; auto.
    destruct (key_le_total (order_key (Prim2SF a)) (order_key (Prim2SF b))) as [H|H]; auto.
    apply leb_key in H; auto. congruence.
Qed.

(** Without NaN, the reduction is an upper bound of the values. *)
Lemma fold_maximum_upper (l : list float) :
  forall a, is_nan a = false -> Forall (fun x => is_nan x = false) l ->
  is_nan (fold_left maximum l a) = false /\
  Forall (fun x => (x <=? fold_left maximum l a)%float = true) (a :: l).
Proof.
  induction l as [|x l IH]; intros a Ha Hl; cbn [fold_left].
  - split; [exact Ha|]. constructor; [|constructor].
    apply leb_key; auto. apply key_le_refl.
  - inversion Hl as [|? ? Hx Hl']; subst.
    destruct (IH (maximum a x) (maximum_not_nan a x Ha Hx) Hl') as (Hn & Hall).
    split; [exact Hn|].
    inversion Hall as [|? ? Hm Hrest]; subst.
    destruct (maximum_upper a x Ha Hx) as (H1 & H2).
    pose proof (maximum_not_nan a x Ha Hx) as Hmn.
    assert (Htr : forall z, is_nan z = false -> (z <=? maximum a x)%float = true ->
                  (z <=? fold_left maximum l (maximum a x))%float = true).
    { intros z Hz Hle. apply leb_key; auto.
      apply leb_key in Hle; auto. apply leb_key in Hm; auto.
      eapply key_le_trans; eassumption. }
    constructor; [apply Htr; assumption|].
    constructor; [apply Htr; assumption|]. exact Hrest.
Qed.

(** *** [np.max(arr, axis=0)] cell by cell *)

Lemma fold_map2_maximum_length (rows : list (list float)) (R : nat) :
  forall row0, length row0 = R -> Forall (fun r => length r = R) rows ->
  length (fold_left (map2 maximum) rows row0) = R.
Proof.
  induction rows as [|r rows IH]; intros row0 H0 Hr; cbn [fold_left]; [exact H0|].
  inversion Hr; subst. apply IH; [|assumption].
  rewrite map2_length. lia.
Qed.

Lemma nth_fold_map2_maximum (rows : list (list float)) (R p : nat) :
  forall row0, length row0 = R -> Forall (fun r => length r = R) rows -> p < R ->
  nth p (fold_left (map2 maximum) rows row0) 0%float
  = fold_left maximum (map (fun r => nth p r 0%float) rows) (nth p row0 0%float).
Proof.
  induction rows as [|r rows IH]; intros row0 H0 Hr Hp; cbn [fold_left map]; [reflexivity|].
  inversion Hr; subst. rewrite IH; try assumption.
  - f_equal. apply nth_map2; lia.
  - rewrite map2_length. lia.
Qed.

Lemma column_of_chunks (A : Type) (d0 : A) (R p : nat) (cnt : nat) :
  forall (l : list A) (start : nat), p < R ->
  map (fun r => nth p r d0) (chunks R cnt (skipn (start * R) l))
  = map (fun i => nth (i * R + p) l d0) (seq start cnt).
Proof.
  induction cnt as [|c IH]; intros l start Hp; cbn [chunks map seq]; [reflexivity|].
  f_equal.
  - rewrite nth_firstn. destruct (Nat.ltb_spec p R); [|lia].
    rewrite nth_skipn. reflexivity.
  - rewrite skipn_skipn. replace (R + start * R) with (S start * R) by lia.
    apply IH. exact Hp.
Qed.

Lemma max_axis0_spec (arr r : ndarray) (n : nat) (rest : list nat) :
  max_axis0 arr = Ok r -> shape arr = n :: rest -> wf arr ->
  let R := size_of rest in
  1 <= n /\ shape r = rest /\ wf r /\
  forall p, p < R ->
    nth p (data r) 0%float
    = fold_left maximum (map (fun i => nth (i * R + p) (data arr) 0%float) (seq 1 (n - 1)))
        (nth p (data arr) 0%float).
Proof.
  intros H Hs Hwf. intros R. unfold max_axis0 in H. rewrite Hs in H. fold R in H.
  assert (Hlen : length (data arr) = n * R).
  { unfold wf in Hwf. rewrite Hwf, Hs. reflexivity. }
  destruct n as [|n']; cbn [chunks] in H; [discriminate|].
  apply Ok_inj in H. subst r. cbn [shape data].
  pose proof (chunks_block_length float R (S n') (data arr) Hlen) as Hb.
  cbn [chunks] in Hb. inversion Hb as [|? ? Hb0 Hbr]; subst.
  split; [lia|]. split; [reflexivity|]. split.
  - unfold wf. cbn [shape data]. apply fold_map2_maximum_length; assumption.
  - intros p Hp. rewrite (nth_fold_map2_maximum _ R p); try assumption.
    rewrite nth_firstn. destruct (Nat.ltb_spec p R); [|lia].
    replace (S n' - 1) with n' by lia.
    pose proof (column_of_chunks float 0%float R p n' (data arr) 1 Hp) as Hc.
    rewrite Nat.mul_1_l in Hc. rewrite Hc. reflexivity.
Qed.

(** ** The run of [evaluate_batch] *)

Lemma zeros_wf (s : list nat) : wf (zeros s).
Proof. unfold wf, zeros. cbn [shape data]. apply repeat_length. Qed.

Section Run.
Variable W : Type.
Variables (self : metric W) (m : model W).
Variables (x_batch : ndarray) (y_batch : labels) (a_batch : ndarray).

Lemma draw_matrix_run (ros_batch : ndarray) (st st' : state W) :
  draw_matrix self m x_batch y_batch a_batch st = (Ok ros_batch, st') ->
  exists logits w1 ds n rest,
    predict m x_batch (world st) = (logits, w1) /\
    trace st' = trace st ++ EvPredict x_batch logits :: flat_map (draw_events x_batch y_batch) ds /\
    length ds = nr_samples self /\
    matrix_shape self x_batch a_batch n rest /\
    store_draws self logits a_batch (seq 0 (nr_samples self)) ds
      (zeros (nr_samples self :: n :: rest)) = Ok ros_batch /\
    shape ros_batch = nr_samples self :: n :: rest /\
    wf ros_batch.
Proof.
  unfold draw_matrix, bind, lift, ret, call_predict, matrix_shape.
  destruct (shape_at x_batch 0) as [batch_size|e]; [|discriminate].
  destruct (predict m x_batch (world st)) as [logits w1].
  set (st1 := {| world := w1; trace := trace st ++ [EvPredict x_batch logits] |}).
  assert (Hgo : forall n rest,
            sampling_loop self m logits x_batch y_batch a_batch (seq 0 (nr_samples self))
              (zeros (nr_samples self :: n :: rest)) st1 = (Ok ros_batch, st') ->
            exists ds,
              trace st' = trace st ++ EvPredict x_batch logits
                            :: flat_map (draw_events x_batch y_batch) ds /\
              length ds = nr_samples self /\
              store_draws self logits a_batch (seq 0 (nr_samples self)) ds
                (zeros (nr_samples self :: n :: rest)) = Ok ros_batch /\
              shape ros_batch = nr_samples self :: n :: rest /\
              wf ros_batch).
  { intros n rest H.
    destruct (sampling_loop_run _ _ _ _ _ _ _ _ _ _ _ _ H) as (ds & Hlen & Htr & Hst).
    exists ds. rewrite length_seq in Hlen.
    split. { rewrite Htr. unfold st1. cbn [trace]. rewrite <- app_assoc. reflexivity. }
    split; [exact Hlen|]. split; [exact Hst|].
    destruct (store_draws_frame W self logits a_batch (nr_samples self) n rest _ _ _ _
                (nr_samples self) Hst eq_refl (zeros_wf _)) as (Hs & Hwf & _).
    { rewrite in_seq. lia. }
    split; [exact Hs | exact Hwf]. }
  destruct (multi_label self).
  - destruct (shape_at a_batch 0) as [n|e]; cbn [res_bind]; [|discriminate].
    destruct (shape_at a_batch 1) as [l|e]; cbn [res_bind]; [|discriminate].
    intros H. destruct (Hgo n [l] H) as (ds & H1 & H2 & H3 & H4 & H5).
    exists logits, w1, ds, n, [l]. repeat split; try assumption.
    exists l. auto.
  - intros H. destruct (Hgo batch_size [] H) as (ds & H1 & H2 & H3 & H4 & H5).
    exists logits, w1, ds, batch_size, []. repeat split; assumption.
Qed.

Lemma evaluate_batch_run (s : scores) (st st' : state W) :
  evaluate_batch self m x_batch y_batch a_batch st = (Ok s, st') ->
  exists ros_batch result r0,
    draw_matrix self m x_batch y_batch a_batch st = (Ok ros_batch, st') /\
    max_axis0 ros_batch = Ok result /\
    (if multi_label self
     then res_map ScNested (multi_label_reshape result y_batch)
     else Ok (ScArray result)) = Ok r0 /\
    s = if return_aggregate self then ScList [aggregate_func self r0] else r0.
Proof.
  unfold evaluate_batch, bind, lift, ret.
  destruct (draw_matrix self m x_batch y_batch a_batch st) as [[rb|e] st1] eqn:Ed;
    [|intros H; apply (f_equal fst) in H; discriminate H].
  destruct (max_axis0 rb) as [result|e] eqn:Em;
    [|intros H; apply (f_equal fst) in H; discriminate H].
  assert (Hfin : forall r0 : scores,
            (if return_aggregate self
             then fun s : state W => (Ok (ScList [aggregate_func self r0]), s)
             else fun s : state W => (Ok r0, s)) st1 = (Ok s, st') ->
            st1 = st' /\
            s = if return_aggregate self then ScList [aggregate_func self r0] else r0).
  { intros r0 H. destruct (return_aggregate self);
      apply (f_equal fst) in H as H1; apply (f_equal snd) in H as H2;
      cbn [fst snd] in H1, H2; apply Ok_inj in H1; auto. }
  destruct (multi_label self).
  - destruct (res_map ScNested (multi_label_reshape result y_batch)) as [r0|e] eqn:Er;
      [|intros H; apply (f_equal fst) in H; discriminate H].
    intros H. destruct (Hfin r0 H) as (<- & Hs).
    exists rb, result, r0. auto.
  - intros H. destruct (Hfin (ScArray result) H) as (<- & Hs).
    exists rb, result, (ScArray result). auto.
Qed.
End Run.

(** ** Batch-level aggregation *)

Section Aggregate.
Variable W : Type.
Variables (self : metric W) (m : model W).
Variables (x_batch : ndarray) (y_batch : labels) (a_batch : ndarray).

(** The draws do not read [return_aggregate]. *)
Lemma sampling_loop_ignores_aggregate (b : bool) (logits : ndarray) (indices : list nat) :
  forall (ros_batch : ndarray) (st : state W),
  sampling_loop (with_return_aggregate b self) m logits x_batch y_batch a_batch
    indices ros_batch st
  = sampling_loop self m logits x_batch y_batch a_batch indices ros_batch st.
Proof.
  induction indices as [|index rest IH]; intros rb st; [reflexivity|].
  cbn [sampling_loop]. unfold bind.
  change (sampling_draw (with_return_aggregate b self) m logits x_batch y_batch a_batch
            rb index st)
    with (sampling_draw self m logits x_batch y_batch a_batch rb index st).
  destruct (sampling_draw self m logits x_batch y_batch a_batch rb index st)
    as [[rb1|e] st1]; [apply IH | reflexivity].
Qed.

Lemma draw_matrix_ignores_aggregate (b : bool) (st : state W) :
  draw_matrix (with_return_aggregate b self) m x_batch y_batch a_batch st
  = draw_matrix self m x_batch y_batch a_batch st.
Proof.
  unfold draw_matrix, bind. cbn [with_return_aggregate multi_label nr_samples].
  destruct (lift (shape_at x_batch 0) st) as [[batch_size|e] st0]; [|reflexivity].
  destruct (call_predict m x_batch st0) as [[logits|e] st1]; [|reflexivity].
  destruct ((if multi_label self
             then lift (let? n := shape_at a_batch 0 in
                        let? l := shape_at a_batch 1 in
                        Ok (zeros [nr_samples self; n; l]))%res
             else ret (zeros [nr_samples self; batch_size])) st1)
    as [[rb|e] st2]; [|reflexivity].
  apply sampling_loop_ignores_aggregate.
Qed.
End Aggregate.

(** C8. With batch-level aggregation enabled, [evaluate_batch] applies
    [aggregate_func] to the whole result computed without aggregation (the
    array, or the nested list in multi-label mode) and returns that single
    value in a one-element list; errors and the final state are those of the
    run without aggregation. *)
Theorem C8_aggregate_wraps_result
    (W : Type) (self : metric W) (m : model W)
    (x_batch : ndarray) (y_batch : labels) (a_batch : ndarray) (st : state W) :
  return_aggregate self = true ->
  evaluate_batch self m x_batch y_batch a_batch st
  = (res_map (fun result => ScList [aggregate_func self result])
       (fst (evaluate_batch (with_return_aggregate false self) m x_batch y_batch a_batch st)),
     snd (evaluate_batch (with_return_aggregate false self) m x_batch y_batch a_batch st)).
Proof.
  intros Hagg. unfold evaluate_batch, bind.
  rewrite draw_matrix_ignores_aggregate.
  cbn [with_return_aggregate multi_label return_aggregate aggregate_func].
  rewrite Hagg.
  destruct (draw_matrix self m x_batch y_batch a_batch st) as [[rb|e] st1]; [|reflexivity].
  unfold lift, ret.
  destruct (max_axis0 rb) as [result|e]; [|reflexivity].
  destruct (multi_label self); [|reflexivity].
  destruct (res_map ScNested (multi_label_reshape result y_batch)) as [r0|e]; reflexivity.
Qed.

(** C8 on the batch of two inputs, aggregated by the mean. *)
Lemma C8_aggregate_wraps_result_witness :
  evaluate_batch Ex.aggregating Ex.stub_model Ex.x_batch Ex.y_single Ex.a_batch Ex.s0
  = (res_map (fun result => ScList [aggregate_func Ex.aggregating result])
       (fst (evaluate_batch (with_return_aggregate false Ex.aggregating) Ex.stub_model
               Ex.x_batch Ex.y_single Ex.a_batch Ex.s0)),
     snd (evaluate_batch (with_return_aggregate false Ex.aggregating) Ex.stub_model
            Ex.x_batch Ex.y_single Ex.a_batch Ex.s0)).
Proof.
  apply (C8_aggregate_wraps_result nat Ex.aggregating Ex.stub_model
           Ex.x_batch Ex.y_single Ex.a_batch Ex.s0).
  reflexivity.
Defined.

(** ** The baseline logits *)

Lemma predict_inputs_app (t1 t2 : list event) :
  predict_inputs (t1 ++ t2) = predict_inputs t1 ++ predict_inputs t2.
Proof.
  induction t1 as [|ev t1 IH]; cbn [app predict_inputs]; [reflexivity|].
  destruct ev; cbn [app]; rewrite IH; reflexivity.
Qed.

Lemma predict_inputs_draws (x_batch : ndarray) (y_batch : labels) (ds : list draw) :
  predict_inputs (flat_map (draw_events x_batch y_batch) ds) = map d_x ds.
Proof.
  induction ds as [|d ds IH]; cbn [flat_map map]; [reflexivity|].
  rewrite predict_inputs_app, IH. reflexivity.
Qed.

Lemma store_draws_objective_ok (W : Type) (self : metric W) (logits a_batch : ndarray)
    (indices : list nat) :
  forall (ds : list draw) (ros_batch ros_batch' : ndarray),
  store_draws self logits a_batch indices ds ros_batch = Ok ros_batch' ->
  length ds = length indices ->
  forall d, In d ds ->
    exists ros, relative_output_stability_objective self logits (d_h d) a_batch (d_a d) = Ok ros.
Proof.
  induction indices as [|index indices IH]; intros ds rb rb' H Hlen d Hin.
  - destruct ds; [destruct Hin | discriminate].
  - destruct ds as [|d0 ds]; [destruct Hin|]. cbn [store_draws] in H.
    destruct (store_draw self logits a_batch rb index d0) as [rb1|e] eqn:Ed;
      cbn [res_bind] in H; [|discriminate].
    destruct Hin as [<-|Hin].
    + unfold store_draw in Ed.
      destruct (relative_output_stability_objective self logits (d_h d0) a_batch (d_a d0))
        as [ros|e]; [|discriminate]. exists ros. reflexivity.
    + apply (IH ds rb1 rb' H); [cbn in Hlen; lia | exact Hin].
Qed.

(** C9. A run of [evaluate_batch] that returns called [model.predict] on
    [x_batch] once, before any draw; the other calls of [predict] are the one
    of each draw, on its perturbed batch; and the objective of every draw was
    computed with the logits that first call returned. *)
Theorem C9_baseline_logits_shared
    (W : Type) (self : metric W) (m : model W)
    (x_batch : ndarray) (y_batch : labels) (a_batch : ndarray)
    (st st' : state W) (s : scores) :
  evaluate_batch self m x_batch y_batch a_batch st = (Ok s, st') ->
  exists logits w1 ds,
    predict m x_batch (world st) = (logits, w1) /\
    trace st' = trace st ++ EvPredict x_batch logits
                  :: flat_map (draw_events x_batch y_batch) ds /\
    length ds = nr_samples self /\
    predict_inputs (EvPredict x_batch logits :: flat_map (draw_events x_batch y_batch) ds)
      = x_batch :: map d_x ds /\
    (exists ros_batch0 ros_batch,
       store_draws self logits a_batch (seq 0 (nr_samples self)) ds ros_batch0
         = Ok ros_batch /\
       draw_matrix self m x_batch y_batch a_batch st = (Ok ros_batch, st')) /\
    forall d, In d ds ->
      exists ros,
        relative_output_stability_objective self logits (d_h d) a_batch (d_a d) = Ok ros.
Proof.
  intros H.
  destruct (evaluate_batch_run W self m x_batch y_batch a_batch s st st' H)
    as (rb & result & r0 & Hdm & _).
  destruct (draw_matrix_run W self m x_batch y_batch a_batch rb st st' Hdm)
    as (logits & w1 & ds & n & rest & Hp & Htr & Hlen & _ & Hst & _).
  exists logits, w1, ds. split; [exact Hp|]. split; [exact Htr|]. split; [exact Hlen|].
  split. { cbn [predict_inputs]. rewrite predict_inputs_draws. reflexivity. }
  split. { eexists. exists rb. split; [exact Hst | exact Hdm]. }
  apply (store_draws_objective_ok W self logits a_batch _ ds _ rb Hst).
  rewrite length_seq. exact Hlen.
Qed.

(** C9 on the run of three draws on the batch of two inputs. *)
Lemma C9_baseline_logits_shared_witness :
  exists logits w1 ds,
    predict Ex.stub_model Ex.x_batch (world Ex.s0) = (logits, w1) /\
    trace (snd (evaluate_batch Ex.plain Ex.stub_model Ex.x_batch Ex.y_single Ex.a_batch Ex.s0))
      = trace Ex.s0 ++ EvPredict Ex.x_batch logits
          :: flat_map (draw_events Ex.x_batch Ex.y_single) ds /\
    length ds = nr_samples Ex.plain /\
    predict_inputs (EvPredict Ex.x_batch logits
                      :: flat_map (draw_events Ex.x_batch Ex.y_single) ds)
      = Ex.x_batch :: map d_x ds /\
    (exists ros_batch0 ros_batch,
       store_draws Ex.plain logits Ex.a_batch (seq 0 (nr_samples Ex.plain)) ds ros_batch0
         = Ok ros_batch /\
       draw_matrix Ex.plain Ex.stub_model Ex.x_batch Ex.y_single Ex.a_batch Ex.s0
         = (Ok ros_batch,
            snd (evaluate_batch Ex.plain Ex.stub_model Ex.x_batch Ex.y_single
                   Ex.a_batch Ex.s0))) /\
    forall d, In d ds ->
      exists ros,
        relative_output_stability_objective Ex.plain logits (d_h d) Ex.a_batch (d_a d)
          = Ok ros.
Proof.
  apply (C9_baseline_logits_shared nat Ex.plain Ex.stub_model Ex.x_batch Ex.y_single
           Ex.a_batch Ex.s0 _
           (Ex.returned (ScList [])
              (fst (evaluate_batch Ex.plain Ex.stub_model Ex.x_batch Ex.y_single
                      Ex.a_batch Ex.s0)))).
  vm_compute. reflexivity.
Defined.

(** ** The prediction-change guard *)

Lemma unmarked_cell (c : list nat) (base inner j k : nat) :
  ~ In j c -> k < inner ->
  existsb (fun i => (base + i * inner <=? base + j * inner + k)
                    && (base + j * inner + k <? base + i * inner + inner)) c = false.
Proof.
  intros Hj Hk. apply not_true_is_false. intros Hex.
  apply existsb_exists in Hex. destruct Hex as (i & Hi & Hr).
  apply andb_prop in Hr. destruct Hr as [H1 H2].
  apply Nat.leb_le in H1. apply Nat.ltb_lt in H2.
  assert (i <> j) by (intros ->; contradiction).
  destruct (Nat.lt_total i j) as [Hlt | [Heq | Hgt]]; [nia | contradiction | nia].
Qed.

(** C5. In a draw whose objective was computed and stored in row [index],
    whatever that value is, every entry of the row at a sample index the
    detector reported is overwritten with NaN (the whole label row in
    multi-label mode), the entries of the other samples keep the stored
    objective, the draw returns, and the loop goes on with the next index. *)
Theorem C5_changed_prediction_writes_nan
    (W : Type) (self : metric W) (m : model W)
    (logits x_batch : ndarray) (y_batch : labels) (a_batch : ndarray)
    (ros_batch ros_stored ros : ndarray) (index : nat) (d : draw) (st st' : state W)
    (s : list nat) (n samples : nat) (rest : list nat) (remaining : list nat) :
  first_item_shape x_batch = Ok s ->
  run_collaborators self m x_batch y_batch st = (d, st') ->
  relative_output_stability_objective self logits (d_h d) a_batch (d_a d) = Ok ros ->
  setitem_row ros_batch index ros = Ok ros_stored ->
  shape ros_batch = n :: samples :: rest -> wf ros_batch ->
  Forall (fun j => j < samples) (d_changed d) ->
  let inner := size_of rest in
  let cell j k := index * (samples * inner) + j * inner + k in
  exists ros_batch',
    sampling_draw self m logits x_batch y_batch a_batch ros_batch index st
      = (Ok ros_batch', st') /\
    shape ros_batch' = shape ros_batch /\
    (forall j k, In j (d_changed d) -> k < inner ->
       nth (cell j k) (data ros_batch') 0%float = nan) /\
    (forall j k, j < samples -> ~ In j (d_changed d) -> k < inner ->
       nth (cell j k) (data ros_batch') 0%float = nth (cell j k) (data ros_stored) 0%float) /\
    sampling_loop self m logits x_batch y_batch a_batch (index :: remaining) ros_batch st
      = sampling_loop self m logits x_batch y_batch a_batch remaining ros_batch' st'.
Proof.
  intros Hfirst Hrun Hobj Hrow Hs Hwf Hc inner cell.
  destruct (setitem_row_frame _ _ _ _ _ _ Hrow Hs) as (Hs1 & Hl1 & Hi & _).
  assert (Hs1' : shape ros_stored = n :: samples :: rest) by congruence.
  assert (Hlen : length (data ros_stored) = n * (samples * inner)).
  { rewrite Hl1. unfold wf in Hwf. rewrite Hwf, Hs. reflexivity. }
  assert (Hstore : exists rb2,
            store_draw self logits a_batch ros_batch index d = Ok rb2 /\
            forall j k, j < samples -> ~ In j (d_changed d) -> k < inner ->
              nth (cell j k) (data rb2) 0%float = nth (cell j k) (data ros_stored) 0%float).
  { unfold store_draw. rewrite Hobj. cbn [res_bind]. rewrite Hrow. cbn [res_bind].
    destruct (negb (length (d_changed d) =? 0)).
    - destruct (setitem_cells_ok ros_stored index (d_changed d) nan n samples rest
                  Hs1' Hi Hc) as (rb2 & Hrb2).
      exists rb2. split; [exact Hrb2|]. intros j k Hj Hnot Hk.
      destruct (setitem_cells_spec _ _ _ _ _ _ _ _ Hrb2 Hs1') as (_ & _ & _ & _ & Hn).
      assert (Hin : cell j k < length (data ros_stored)).
      { rewrite Hlen. unfold cell.
        assert (j * inner + k < samples * inner) by nia.
        assert (index * (samples * inner) + samples * inner <= n * (samples * inner)) by nia.
        lia. }
      rewrite Hn by exact Hin.
      unfold cell. fold inner.
      rewrite (unmarked_cell (d_changed d) (index * (samples * inner)) inner j k Hnot Hk).
      reflexivity.
    - exists ros_stored. split; reflexivity. }
  destruct Hstore as (rb2 & Hst & Hkeep).
  assert (Hdraw : sampling_draw self m logits x_batch y_batch a_batch ros_batch index st
                  = (Ok rb2, st')).
  { rewrite (sampling_draw_store W self m logits x_batch y_batch a_batch ros_batch index
               st st' d s Hfirst Hrun).
    - rewrite Hst. reflexivity.
    - rewrite Hobj. cbn [res_bind]. rewrite Hrow. reflexivity. }
  destruct (store_draw_spec W self logits a_batch n samples rest ros_batch rb2 index d
              Hst Hs Hwf) as (Hs2 & _ & _ & _ & Hnan & _).
  exists rb2. split; [exact Hdraw|]. split; [exact Hs2|]. split; [exact Hnan|].
  split; [exact Hkeep|].
  cbn [sampling_loop]. unfold bind. rewrite Hdraw. reflexivity.
Qed.

(** C5 on the second of three draws, in which the detector reports sample 0. *)
Lemma C5_changed_prediction_writes_nan_witness :
  exists ros_batch',
    sampling_draw Ex.flipping Ex.stub_model Ex.logits Ex.x_batch Ex.y_single Ex.a_batch
      Ex.ros_batch0 1 Ex.st1 = (Ok ros_batch', Ex.st2) /\
    shape ros_batch' = shape Ex.ros_batch0 /\
    (forall j k, In j (d_changed Ex.draw1) -> k < 1 ->
       nth (1 * (2 * 1) + j * 1 + k) (data ros_batch') 0%float = nan) /\
    (forall j k, j < 2 -> ~ In j (d_changed Ex.draw1) -> k < 1 ->
       nth (1 * (2 * 1) + j * 1 + k) (data ros_batch') 0%float
       = nth (1 * (2 * 1) + j * 1 + k) (data Ex.ros_stored1) 0%float) /\
    sampling_loop Ex.flipping Ex.stub_model Ex.logits Ex.x_batch Ex.y_single Ex.a_batch
      [1; 2] Ex.ros_batch0 Ex.st1
    = sampling_loop Ex.flipping Ex.stub_model Ex.logits Ex.x_batch Ex.y_single Ex.a_batch
        [2] ros_batch' Ex.st2.
Proof.
  apply (C5_changed_prediction_writes_nan nat Ex.flipping Ex.stub_model Ex.logits
           Ex.x_batch Ex.y_single Ex.a_batch Ex.ros_batch0 Ex.ros_stored1 Ex.ros1 1
           Ex.draw1 Ex.st1 Ex.st2 [4] 3 2 [] [2]).
  - reflexivity.
  - reflexivity.
  - vm_compute. reflexivity.
  - vm_compute. reflexivity.
  - reflexivity.
  - reflexivity.
  - repeat constructor.
Defined.

(** ** The reducer *)

Lemma column_seq (f : nat -> float) (n : nat) :
  1 <= n -> map f (seq 0 n) = f 0 :: map f (seq 1 (n - 1)).
Proof.
  intros Hn. destruct n as [|n']; [lia|].
  cbn [seq map]. replace (S n' - 1) with n' by lia. reflexivity.
Qed.

(** C6. The result of the reduction is [np.max] of the draw matrix over its
    axis 0: every entry of the result is an entry of its column of the
    matrix (one value per draw), at least as large as every entry of the
    column when none of them is NaN; with [nr_samples = 1] the result is the
    row of the single draw.  In single-label mode without aggregation that
    result is what [evaluate_batch] returns. *)
Theorem C6_reducer_is_max_over_draws
    (W : Type) (self : metric W) (m : model W)
    (x_batch : ndarray) (y_batch : labels) (a_batch : ndarray)
    (st st' : state W) (s : scores) :
  evaluate_batch self m x_batch y_batch a_batch st = (Ok s, st') ->
  exists ros_batch result,
    draw_matrix self m x_batch y_batch a_batch st = (Ok ros_batch, st') /\
    max_axis0 ros_batch = Ok result /\
    shape ros_batch = nr_samples self :: shape result /\
    (multi_label self = false -> return_aggregate self = false -> s = ScArray result) /\
    (forall p, p < size_of (shape result) ->
       let column := map (fun i => nth (i * size_of (shape result) + p) (data ros_batch) 0%float)
                       (seq 0 (nr_samples self)) in
       In (nth p (data result) 0%float) column /\
       (Forall (fun v => is_nan v = false) column ->
        Forall (fun v => (v <=? nth p (data result) 0)%float = true) column)) /\
    (nr_samples self = 1 -> data result = data ros_batch).
Proof.
  intros H.
  destruct (evaluate_batch_run W self m x_batch y_batch a_batch s st st' H)
    as (rb & result & r0 & Hdm & Hmax & Hr0 & Hs).
  destruct (draw_matrix_run W self m x_batch y_batch a_batch rb st st' Hdm)
    as (logits & w1 & ds & n & rest & _ & _ & _ & _ & _ & Hshape & Hwf).
  destruct (max_axis0_spec rb result (nr_samples self) (n :: rest) Hmax Hshape Hwf)
    as (Hnr & Hsr & Hwr & Hcell).
  exists rb, result. split; [exact Hdm|]. split; [exact Hmax|].
  split; [rewrite Hsr; exact Hshape|].
  split.
  { intros Hml Hagg. rewrite Hml in Hr0. rewrite Hagg in Hs.
    apply Ok_inj in Hr0. congruence. }
  rewrite Hsr. split.
  - intros p Hp column. unfold column.
    rewrite (column_seq _ _ Hnr). cbn [Nat.mul Nat.add].
    rewrite (Hcell p Hp). split.
    + apply fold_maximum_in.
    + intros Hnan. inversion Hnan as [|? ? Ha Hl]; subst.
      apply (fold_maximum_upper _ _ Ha Hl).
  - intros H1. apply (nth_ext _ _ 0%float 0%float).
    + unfold wf in Hwr, Hwf. rewrite Hwr, Hwf, Hshape, Hsr, H1.
      cbn [size_of fold_right]. fold (size_of rest). lia.
    + intros p Hp. unfold wf in Hwr. rewrite Hwr, Hsr in Hp.
      rewrite (Hcell p Hp), H1. reflexivity.
Qed.

(** C6 on the run with a single draw. *)
Lemma C6_reducer_is_max_over_draws_witness :
  exists ros_batch result,
    draw_matrix Ex.one_draw Ex.stub_model Ex.x_batch Ex.y_single Ex.a_batch Ex.s0
      = (Ok ros_batch,
         snd (evaluate_batch Ex.one_draw Ex.stub_model Ex.x_batch Ex.y_single
                Ex.a_batch Ex.s0)) /\
    max_axis0 ros_batch = Ok result /\
    shape ros_batch = nr_samples Ex.one_draw :: shape result /\
    (multi_label Ex.one_draw = false -> return_aggregate Ex.one_draw = false ->
     Ex.returned (ScList [])
       (fst (evaluate_batch Ex.one_draw Ex.stub_model Ex.x_batch Ex.y_single
               Ex.a_batch Ex.s0)) = ScArray result) /\
    (forall p, p < size_of (shape result) ->
       let column := map (fun i => nth (i * size_of (shape result) + p) (data ros_batch) 0%float)
                       (seq 0 (nr_samples Ex.one_draw)) in
       In (nth p (data result) 0%float) column /\
       (Forall (fun v => is_nan v = false) column ->
        Forall (fun v => (v <=? nth p (data result) 0)%float = true) column)) /\
    (nr_samples Ex.one_draw = 1 -> data result = data ros_batch).
Proof.
  apply (C6_reducer_is_max_over_draws nat Ex.one_draw Ex.stub_model Ex.x_batch Ex.y_single
           Ex.a_batch Ex.s0).
  vm_compute. reflexivity.
Defined.

(** ** The multi-label reshape *)

Lemma getitem2_spec (arr : ndarray) (i j n L : nat) (v : float) :
  getitem2 arr i j = Ok v -> shape arr = [n; L] ->
  i < n /\ j < L /\ v = nth (i * L + j) (data arr) 0%float.
Proof.
  unfold getitem2. intros H Hs. rewrite Hs in H.
  destruct (Nat.ltb_spec i n); [|discriminate].
  destruct (Nat.ltb_spec j L); [|discriminate].
  apply Ok_inj in H. auto.
Qed.

Lemma select_labels_spec (result : ndarray) (index n L : nat) (label_list : list nat) :
  forall row, select_labels result index label_list = Ok row -> shape result = [n; L] ->
  length row = length label_list /\
  forall k label, nth_error label_list k = Some label ->
    index < n /\ label < L /\
    nth_error row k = Some (nth (index * L + label) (data result) 0%float).
Proof.
  induction label_list as [|label0 rest IH]; intros row H Hs; cbn [select_labels] in H.
  - apply Ok_inj in H. subst row. split; [reflexivity|]. intros [|k] label Hk; discriminate Hk.
  - destruct (getitem2 result index label0) as [v|e] eqn:Eg; cbn [res_bind] in H;
      [|discriminate].
    destruct (select_labels result index rest) as [tmp|e] eqn:Es; cbn [res_bind] in H;
      [|discriminate].
    apply Ok_inj in H. subst row.
    destruct (IH tmp eq_refl Hs) as (Hlen & Hent).
    destruct (getitem2_spec result index label0 n L v Eg Hs) as (Hi & Hl & Hv).
    split; [cbn [length]; congruence|].
    intros [|k] label Hk; cbn [nth_error] in *.
    + apply (f_equal (fun o => match o with Some x => x | None => label end)) in Hk.
      subst label0. subst v. auto.
    + apply Hent. exact Hk.
Qed.

Lemma select_rows_spec (result : ndarray) (n L : nat) (ys : list (list nat)) :
  forall start l, select_rows result start ys = Ok l -> shape result = [n; L] ->
  length l = length ys /\
  forall i label_list, nth_error ys i = Some label_list ->
    exists row,
      nth_error l i = Some row /\ length row = length label_list /\
      forall k label, nth_error label_list k = Some label ->
        start + i < n /\ label < L /\
        nth_error row k = Some (nth ((start + i) * L + label) (data result) 0%float).
Proof.
  induction ys as [|labs rest IH]; intros start l H Hs; cbn [select_rows] in H.
  - apply Ok_inj in H. subst l. split; [reflexivity|]. intros [|i] ? Hi; discriminate Hi.
  - destruct (select_labels result start labs) as [tmp|e] eqn:El; cbn [res_bind] in H;
      [|discriminate].
    destruct (select_rows result (S start) rest) as [rl|e] eqn:Er; cbn [res_bind] in H;
      [|discriminate].
    apply Ok_inj in H. subst l.
    destruct (IH (S start) rl Er Hs) as (Hlen & Hent).
    destruct (select_labels_spec result start n L labs tmp El Hs) as (Hl0 & He0).
    split; [cbn [length]; congruence|].
    intros [|i] label_list Hi; cbn [nth_error] in Hi.
    + apply (f_equal (fun o => match o with Some x => x | None => label_list end)) in Hi.
      subst labs. exists tmp. split; [reflexivity|]. split; [exact Hl0|].
      intros k label Hk. rewrite Nat.add_0_r. apply He0. exact Hk.
    + destruct (Hent i label_list Hi) as (row & Hrow & Hrl & Hre).
      exists row. split; [exact Hrow|]. split; [exact Hrl|].
      intros k label Hk. replace (start + S i) with (S start + i) by lia.
      apply Hre. exact Hk.
Qed.

(** In multi-label mode the objective keeps the label axis of a rank-5
    explanation tensor of shape [(N, L, C, H, W)]. *)
Lemma objective_keeps_label_axis (W : Type) (self : metric W)
    (h_x h_xs e_x e_xs : ndarray) (N L C H Wd K : nat) :
  multi_label self = true ->
  shape e_x = [N; L; C; H; Wd] -> shape e_xs = [N; L; C; H; Wd] ->
  shape h_x = [N; K] -> shape h_xs = [N; K] ->
  exists r, relative_output_stability_objective self h_x h_xs e_x e_xs = Ok r /\
            shape r = [N; L].
Proof.
  intros Hml Hex Hexs Hhx Hhxs. unfold relative_output_stability_objective.
  assert (Hs : shape e_xs = shape e_x) by congruence.
  destruct (elementwise_quotient_shape W self e_x e_xs Hs) as (q & Hq & Hqs).
  unfold ndim. rewrite Hex. cbn [length]. unfold norm_function. cbn [Nat.eqb andb].
  rewrite Hml. cbn [res_bind]. rewrite Hq. cbn [res_bind].
  rewrite Hex in Hqs.
  assert (Hn : exists nn, (let? t := linalg_norm 2 q in linalg_norm 1 t)%res = Ok nn
                          /\ shape nn = [N; L]).
  { unfold linalg_norm, ndim. rewrite Hqs. cbn [length Nat.ltb Nat.leb res_bind shape].
    eexists. split; reflexivity. }
  destruct Hn as (nn & -> & Hnn). cbn [res_bind].
  destruct (denominator_shape W self h_x h_xs N K Hhx Hhxs) as (d & -> & Hd).
  cbn [res_bind]. unfold divide. apply ufunc2_shape.
  cbn [expand_dims_last shape]. rewrite Hnn, Hd. cbn [app].
  unfold broadcast_shapes. cbn. rewrite Nat.eqb_refl.
  destruct (Nat.eqb_spec L 1) as [->|_]; reflexivity.
Qed.

(** C7, as stated, fails: in multi-label mode with a rank-3 explanation
    tensor of shape [(2, 4, 3)] (the three labels last) and
    [y_batch = [[0, 1], [2]]], the norm over the last two axes reduces the
    label axis away, the objective has shape [(2, 2)], and storing it in a row
    of shape [(2, 4)] raises: no nested list is returned. *)
Lemma C7_counterexample :
  multi_label Ex.multi3 = true /\
  shape Ex.a_batch3 = [2; 4; 3] /\
  Ex.y_multi = MultiLabels [[0; 1]; [2]] /\
  fst (evaluate_batch Ex.multi3 Ex.stub_model Ex.x_batch Ex.y_multi Ex.a_batch3 Ex.s0)
    = Raise AssignBroadcastError /\
  forall l, fst (evaluate_batch Ex.multi3 Ex.stub_model Ex.x_batch Ex.y_multi
                   Ex.a_batch3 Ex.s0) <> Ok (ScNested l).
Proof.
  assert (H : fst (evaluate_batch Ex.multi3 Ex.stub_model Ex.x_batch Ex.y_multi
                     Ex.a_batch3 Ex.s0) = Raise AssignBroadcastError)
    by (vm_compute; reflexivity).
  repeat split; try reflexivity; try exact H.
  intros l E. rewrite H in E. discriminate E.
Qed.

(** C7, amended.  In multi-label mode the label axis is the second axis of a
    rank-5 explanation tensor [(N, L, C, H, W)]: there the objective has one
    value per sample and label, of shape [(N, L)].  Whenever [evaluate_batch]
    returns (without aggregation), it returns a nested list with one inner
    list per sample of [y_batch], as long as that sample's list of labels,
    whose entries are [result[index, label]] of the reduced result. *)
Theorem C7_multi_label_nested_scores (W : Type) (self : metric W) (m : model W) :
  multi_label self = true ->
  (forall (h_x h_xs e_x e_xs : ndarray) (N L C H Wd K : nat),
     shape e_x = [N; L; C; H; Wd] -> shape e_xs = [N; L; C; H; Wd] ->
     shape h_x = [N; K] -> shape h_xs = [N; K] ->
     exists r, relative_output_stability_objective self h_x h_xs e_x e_xs = Ok r /\
               shape r = [N; L])
  /\
  (return_aggregate self = false ->
   forall (x_batch a_batch : ndarray) (ys : list (list nat)) (st st' : state W) (s : scores),
     evaluate_batch self m x_batch (MultiLabels ys) a_batch st = (Ok s, st') ->
     exists l result n L,
       s = ScNested l /\
       (exists ros_batch,
          draw_matrix self m x_batch (MultiLabels ys) a_batch st = (Ok ros_batch, st') /\
          max_axis0 ros_batch = Ok result) /\
       shape result = [n; L] /\
       length l = length ys /\
       forall i label_list, nth_error ys i = Some label_list ->
         exists row,
           nth_error l i = Some row /\ length row = length label_list /\
           forall k label, nth_error label_list k = Some label ->
             nth_error row k = Some (nth (i * L + label) (data result) 0%float)).
Proof.
  intros Hml. split.
  - intros h_x h_xs e_x e_xs N L C H Wd K. apply objective_keeps_label_axis. exact Hml.
  - intros Hagg x_batch a_batch ys st st' s H.
    destruct (evaluate_batch_run W self m x_batch (MultiLabels ys) a_batch s st st' H)
      as (rb & result & r0 & Hdm & Hmax & Hr0 & Hs).
    rewrite Hml in Hr0. rewrite Hagg in Hs. subst r0.
    destruct (draw_matrix_run W self m x_batch (MultiLabels ys) a_batch rb st st' Hdm)
      as (logits & w1 & ds & n & rest & _ & _ & _ & Hms & _ & Hshape & Hwf).
    unfold matrix_shape in Hms. rewrite Hml in Hms. destruct Hms as (L & _ & _ & ->).
    destruct (max_axis0_spec rb result (nr_samples self) [n; L] Hmax Hshape Hwf)
      as (_ & Hsr & _ & _).
    unfold res_map, multi_label_reshape in Hr0.
    destruct (select_rows result 0 ys) as [l|e] eqn:El; cbn [res_bind] in Hr0;
      [|discriminate].
    apply Ok_inj in Hr0. subst s.
    destruct (select_rows_spec result n L ys 0 l El Hsr) as (Hlen & Hent).
    exists l, result, n, L. split; [reflexivity|].
    split; [exists rb; split; assumption|].
    split; [exact Hsr|]. split; [exact Hlen|].
    intros i label_list Hi. destruct (Hent i label_list Hi) as (row & Hrow & Hrl & Hre).
    exists row. split; [exact Hrow|]. split; [exact Hrl|].
    intros k label Hk. destruct (Hre k label Hk) as (_ & _ & Hv). exact Hv.
Qed.

(** C7, amended, on explanations of shape [(2, 3, 1, 1, 4)] and
    [y_batch = [[0, 1], [2]]]. *)
Lemma C7_multi_label_nested_scores_witness :
  (exists r, relative_output_stability_objective Ex.multi5 Ex.logits Ex.logits
               Ex.a_batch5 Ex.a_batch5 = Ok r /\ shape r = [2; 3])
  /\
  exists l result n L,
    Ex.returned (ScList [])
      (fst (evaluate_batch Ex.multi5 Ex.stub_model Ex.x_batch Ex.y_multi Ex.a_batch5 Ex.s0))
    = ScNested l /\
    (exists ros_batch,
       draw_matrix Ex.multi5 Ex.stub_model Ex.x_batch Ex.y_multi Ex.a_batch5 Ex.s0
       = (Ok ros_batch,
          snd (evaluate_batch Ex.multi5 Ex.stub_model Ex.x_batch Ex.y_multi
                 Ex.a_batch5 Ex.s0)) /\
       max_axis0 ros_batch = Ok result) /\
    shape result = [n; L] /\
    length l = length [[0; 1]; [2]] /\
    forall i label_list, nth_error [[0; 1]; [2]] i = Some label_list ->
      exists row,
        nth_error l i = Some row /\ length row = length label_list /\
        forall k label, nth_error label_list k = Some label ->
          nth_error row k = Some (nth (i * L + label) (data result) 0%float).
Proof.
  pose proof (C7_multi_label_nested_scores nat Ex.multi5 Ex.stub_model eq_refl) as [H1 H2].
  split.
  - apply (H1 Ex.logits Ex.logits Ex.a_batch5 Ex.a_batch5 2 3 1 1 4 2); reflexivity.
  - apply (H2 eq_refl Ex.x_batch Ex.a_batch5 [[0; 1]; [2]] Ex.s0).
    vm_compute. reflexivity.
Defined.

(** ** NaN through the maximum *)

(** C10. The maximum over the draws propagates NaN: in a run of
    [evaluate_batch] that returns (without aggregation), for every draw and
    every sample index the detector reported in it, the final score of that
    sample is NaN: the entry of the returned array in single-label mode,
    every entry of the sample's list in multi-label mode. *)
Theorem C10_nan_propagates_through_max
    (W : Type) (self : metric W) (m : model W)
    (x_batch : ndarray) (y_batch : labels) (a_batch : ndarray)
    (st st' : state W) (s : scores) :
  evaluate_batch self m x_batch y_batch a_batch st = (Ok s, st') ->
  return_aggregate self = false ->
  exists logits ds,
    trace st' = trace st ++ EvPredict x_batch logits
                  :: flat_map (draw_events x_batch y_batch) ds /\
    length ds = nr_samples self /\
    forall d j, In d ds -> In j (d_changed d) ->
      match s with
      | ScArray result => multi_label self = false /\ nth j (data result) 0%float = nan
      | ScNested l => multi_label self = true /\ Forall (fun v => v = nan) (nth j l [])
      | ScList _ => False
      end.
Proof.
  intros H Hagg.
  destruct (evaluate_batch_run W self m x_batch y_batch a_batch s st st' H)
    as (rb & result & r0 & Hdm & Hmax & Hr0 & Hs).
  rewrite Hagg in Hs. subst r0.
  destruct (draw_matrix_run W self m x_batch y_batch a_batch rb st st' Hdm)
    as (logits & w1 & ds & n & rest & _ & Htr & Hlen & Hms & Hst & Hshape & Hwf).
  exists logits, ds. split; [exact Htr|]. split; [exact Hlen|].
  intros d j Hd Hj.
  destruct (store_draws_marked W self logits a_batch (nr_samples self) n rest
              (seq 0 (nr_samples self)) ds _ rb Hst eq_refl (zeros_wf _)
              (seq_NoDup _ _)) as (_ & _ & Hmark).
  destruct (max_axis0_spec rb result (nr_samples self) (n :: rest) Hmax Hshape Hwf)
    as (Hnr & Hsr & Hwr & Hcell).
  destruct (In_nth_error ds d Hd) as (q & Hq).
  assert (Hqn : q < nr_samples self).
  { rewrite <- Hlen. apply nth_error_Some. congruence. }
  assert (Hseq : nth_error (seq 0 (nr_samples self)) q = Some q).
  { rewrite nth_error_seq. destruct (Nat.ltb_spec q (nr_samples self)); [reflexivity | lia]. }
  (* every cell of sample [j] in the result is NaN *)
  assert (Hres : forall k, k < size_of rest ->
            j < n /\ nth (j * size_of rest + k) (data result) 0%float = nan).
  { intros k Hk.
    destruct (Hmark q q d j k Hseq Hq Hj Hk) as (_ & Hjn & Hnan).
    split; [exact Hjn|].
    assert (Hp : j * size_of rest + k < size_of (n :: rest)).
    { cbn [size_of fold_right]. fold (size_of rest). nia. }
    rewrite (Hcell _ Hp). apply fold_maximum_nan.
    assert (Hnan' : nth (q * size_of (n :: rest) + (j * size_of rest + k)) (data rb) 0%float
                    = nan).
    { rewrite <- Hnan. f_equal. cbn [size_of fold_right]. fold (size_of rest). lia. }
    destruct q as [|q'].
    - left. exact Hnan'.
    - right. rewrite <- Hnan'.
      apply (in_map (fun i => nth (i * size_of (n :: rest) + (j * size_of rest + k))
                                (data rb) 0%float) _ (S q')).
      apply in_seq. lia. }
  unfold matrix_shape in Hms.
  destruct (multi_label self) eqn:Hml.
  - destruct Hms as (L & _ & _ & ->).
    unfold res_map, multi_label_reshape in Hr0.
    assert (HL : size_of [L] = L) by (cbn; lia).
    destruct y_batch as [ys1 | ys].
    + destruct ys1; cbn [res_bind] in Hr0; [|discriminate].
      apply Ok_inj in Hr0. subst s. split; [reflexivity|].
      destruct j; constructor.
    + destruct (select_rows result 0 ys) as [l|e] eqn:El; cbn [res_bind] in Hr0;
        [|discriminate].
      apply Ok_inj in Hr0. subst s. split; [reflexivity|].
      destruct (select_rows_spec result n L ys 0 l El Hsr) as (Hll & Hent).
      destruct (nth_error l j) as [row|] eqn:Erow.
      * rewrite (nth_error_nth l j [] Erow).
        assert (Hjl : j < length ys).
        { rewrite <- Hll. apply nth_error_Some. congruence. }
        destruct (nth_error ys j) as [labs|] eqn:Elabs;
          [|apply nth_error_Some in Hjl; contradiction].
        destruct (Hent j labs Elabs) as (row' & Hrow' & Hrl & Hre).
        assert (row' = row) by congruence. subst row'.
        apply Forall_forall. intros v Hv.
        destruct (In_nth_error row v Hv) as (k & Hk).
        assert (Hkl : k < length labs).
        { rewrite <- Hrl. apply nth_error_Some. congruence. }
        destruct (nth_error labs k) as [label|] eqn:Elabel;
          [|apply nth_error_Some in Hkl; contradiction].
        destruct (Hre k label Elabel) as (_ & Hlab & Hval).
        rewrite Hk in Hval. 
        apply (f_equal (fun o => match o with Some x => x | None => v end)) in Hval.
        rewrite Hval. cbn [Nat.add].
        destruct (Hres label) as (_ & Hn); [lia|]. rewrite HL in Hn. exact Hn.
      * rewrite nth_overflow; [constructor|]. apply nth_error_None. exact Erow.
  - destruct Hms as (_ & ->). apply Ok_inj in Hr0. subst s. split; [reflexivity|].
    destruct (Hres 0) as (_ & Hn); [cbn; lia|].
    cbn [size_of fold_right] in Hn. rewrite Nat.mul_1_r, Nat.add_0_r in Hn. exact Hn.
Qed.

(** C10 on the run of three draws in which sample 0 flips in the second. *)
Lemma C10_nan_propagates_through_max_witness :
  exists logits ds,
    trace (snd (evaluate_batch Ex.flipping Ex.stub_model Ex.x_batch Ex.y_single
                  Ex.a_batch Ex.s0))
      = trace Ex.s0 ++ EvPredict Ex.x_batch logits
          :: flat_map (draw_events Ex.x_batch Ex.y_single) ds /\
    length ds = nr_samples Ex.flipping /\
    forall d j, In d ds -> In j (d_changed d) ->
      match Ex.returned (ScList [])
              (fst (evaluate_batch Ex.flipping Ex.stub_model Ex.x_batch Ex.y_single
                      Ex.a_batch Ex.s0)) with
      | ScArray result => multi_label Ex.flipping = false /\ nth j (data result) 0%float = nan
      | ScNested l => multi_label Ex.flipping = true /\ Forall (fun v => v = nan) (nth j l [])
      | ScList _ => False
      end.
Proof.
  apply (C10_nan_propagates_through_max nat Ex.flipping Ex.stub_model Ex.x_batch
           Ex.y_single Ex.a_batch Ex.s0).
  - vm_compute. reflexivity.
  - reflexivity.
Defined.

(** ** Runs that return *)

Lemma assign_broadcast_vector (v : ndarray) (N : nat) :
  shape v = [N] -> exists src, assign_broadcast v [N] = Some src.
Proof.
  intros Hv. unfold assign_broadcast. rewrite Hv.
  cbn [length Nat.sub strip_ones Nat.leb pad_shape repeat app fits_dims andb].
  rewrite Nat.eqb_refl. cbn [orb andb]. eexists. reflexivity.
Qed.

Section Returns.
Variable W : Type.
Variables (self : metric W) (m : model W).
Variables (x_batch : ndarray) (y_batch : labels) (a_batch : ndarray).
Variables (N C : nat) (xs : list nat).

(** Single-label mode, a batch of [N >= 1] inputs, explanations of rank 2, 3
    or 4, and collaborators that keep their interface: logits of shape
    perturbed batches of the shape of [x_batch], logits of shape [(N, C)],
    explanations of the shape of [a_batch], sample indices below [N]. *)
Hypothesis single_label : multi_label self = false.
Hypothesis batch_shape : shape x_batch = S N :: xs.
Hypothesis explanation_rank : ndim a_batch = 2 \/ ndim a_batch = 3 \/ ndim a_batch = 4.
Hypothesis explanation_batch : hd 0 (shape a_batch) = S N.
Hypothesis perturb_shape :
  forall w, shape (fst (perturb_batch self x_batch w)) = shape x_batch.
Hypothesis predict_shape :
  forall x w, shape x = shape x_batch -> shape (fst (predict m x w)) = [S N; C].
Hypothesis explain_shape :
  forall x w, shape x = shape x_batch ->
    shape (fst (explain_batch self m x y_batch w)) = shape a_batch.
Hypothesis changed_in_range :
  forall x xp w,
    Forall (fun j => j < S N) (fst (changed_prediction_indices_func self m x xp w)).

Lemma run_collaborators_interface (st st' : state W) (d : draw) :
  run_collaborators self m x_batch y_batch st = (d, st') ->
  shape (d_h d) = [S N; C] /\ shape (d_a d) = shape a_batch /\
  Forall (fun j => j < S N) (d_changed d).
Proof.
  unfold run_collaborators.
  pose proof (perturb_shape (world st)) as Hx.
  destruct (perturb_batch self x_batch (world st)) as [xp w1]. cbn [fst] in Hx.
  pose proof (explain_shape xp w1 Hx) as He.
  destruct (explain_batch self m xp y_batch w1) as [ap w2].
  pose proof (predict_shape xp w2 Hx) as Hp.
  destruct (predict m xp w2) as [hp w3].
  pose proof (changed_in_range x_batch xp w3) as Hc.
  destruct (changed_prediction_indices_func self m x_batch xp w3) as [c w4].
  intros H. apply (f_equal fst) in H. cbn [fst] in H. subst d.
  cbn [fst d_h d_a d_changed] in *. auto.
Qed.

Lemma sampling_draw_returns (nr : nat) (logits ros_batch : ndarray) (index : nat)
    (st : state W) :
  shape logits = [S N; C] -> shape ros_batch = [nr; S N] -> wf ros_batch -> index < nr ->
  exists ros_batch' st',
    sampling_draw self m logits x_batch y_batch a_batch ros_batch index st
      = (Ok ros_batch', st') /\
    shape ros_batch' = [nr; S N] /\ wf ros_batch'.
Proof.
  intros Hl Hs Hwf Hi.
  destruct (run_collaborators self m x_batch y_batch st) as [d st'] eqn:Hrun.
  destruct (run_collaborators_interface st st' d Hrun) as (Hh & Ha & Hc).
  destruct (objective_batch_shape W self logits (d_h d) a_batch (d_a d) (S N) C
              Ha explanation_rank explanation_batch Hl Hh) as (ros & Hobj & Hros).
  rewrite single_label in Hros.
  destruct (assign_broadcast_vector ros (S N) Hros) as (src & Hsrc).
  assert (Hrow : exists rb1, setitem_row ros_batch index ros = Ok rb1).
  { unfold setitem_row. rewrite Hs.
    destruct (Nat.ltb_spec index nr) as [_|]; [|lia].
    rewrite Hsrc. eexists. reflexivity. }
  destruct Hrow as (rb1 & Hrow).
  destruct (setitem_row_frame _ _ _ _ _ _ Hrow Hs) as (Hs1 & _ & _ & _).
  assert (Hs1' : shape rb1 = nr :: S N :: []) by congruence.
  assert (Hstore : exists rb2, store_draw self logits a_batch ros_batch index d = Ok rb2).
  { unfold store_draw. rewrite Hobj. cbn [res_bind]. rewrite Hrow. cbn [res_bind].
    destruct (negb (length (d_changed d) =? 0)).
    - apply (setitem_cells_ok rb1 index (d_changed d) nan nr (S N) [] Hs1' Hi Hc).
    - exists rb1. reflexivity. }
  destruct Hstore as (rb2 & Hstore).
  destruct (store_draw_spec W self logits a_batch nr (S N) [] ros_batch rb2 index d
              Hstore Hs Hwf) as (Hs2 & Hwf2 & _).
  exists rb2, st'. split; [|split; [congruence | exact Hwf2]].
  rewrite (sampling_draw_store W self m logits x_batch y_batch a_batch ros_batch index
             st st' d xs).
  - rewrite Hstore. reflexivity.
  - unfold first_item_shape. rewrite batch_shape. reflexivity.
  - exact Hrun.
  - rewrite Hobj. cbn [res_bind]. rewrite Hrow. reflexivity.
Qed.

Lemma sampling_loop_returns (nr : nat) (logits : ndarray) (indices : list nat) :
  shape logits = [S N; C] -> Forall (fun i => i < nr) indices ->
  forall (ros_batch : ndarray) (st : state W),
  shape ros_batch = [nr; S N] -> wf ros_batch ->
  exists ros_batch' st',
    sampling_loop self m logits x_batch y_batch a_batch indices ros_batch st
      = (Ok ros_batch', st') /\
    shape ros_batch' = [nr; S N] /\ wf ros_batch'.
Proof.
  intros Hl Hall. induction Hall as [|index rest Hi _ IH]; intros rb st Hs Hwf.
  - exists rb, st. auto.
  - destruct (sampling_draw_returns nr logits rb index st Hl Hs Hwf Hi)
      as (rb1 & st1 & Hd & Hs1 & Hwf1).
    destruct (IH rb1 st1 Hs1 Hwf1) as (rb2 & st2 & Hloop & Hs2 & Hwf2).
    exists rb2, st2. split; [|auto].
    cbn [sampling_loop]. unfold bind. rewrite Hd. exact Hloop.
Qed.

(** X1 -- With at least one draw, [evaluate_batch] returns one score per
    sample (or their aggregate), whatever the detector reports. *)
Theorem evaluate_batch_returns (st : state W) :
  1 <= nr_samples self ->
  exists result st',
    evaluate_batch self m x_batch y_batch a_batch st
      = (Ok (if return_aggregate self
             then ScList [aggregate_func self (ScArray result)]
             else ScArray result), st') /\
    shape result = [S N].
Proof.
  intros Hnr. unfold evaluate_batch, draw_matrix, bind, lift, ret, call_predict, shape_at.
  rewrite batch_shape. cbn [nth_error].
  pose proof (predict_shape x_batch (world st) eq_refl) as Hl.
  destruct (predict m x_batch (world st)) as [logits w1]. cbn [fst] in Hl.
  rewrite single_label.
  destruct (sampling_loop_returns (nr_samples self) logits (seq 0 (nr_samples self)) Hl)
    with (ros_batch := zeros [nr_samples self; S N])
         (st := {| world := w1; trace := trace st ++ [EvPredict x_batch logits] |})
    as (rb & st' & Hloop & Hs & Hwf).
  { apply Forall_forall. intros i Hi. apply in_seq in Hi. lia. }
  { reflexivity. }
  { apply zeros_wf. }
  rewrite Hloop.
  destruct (max_axis0 rb) as [result|e] eqn:Em.
  - destruct (max_axis0_spec rb result (nr_samples self) [S N] Em Hs Hwf) as (_ & Hsr & _).
    exists result, st'. split; [|exact Hsr].
    destruct (return_aggregate self); reflexivity.
  - exfalso. unfold max_axis0 in Em. rewrite Hs in Em.
    destruct (nr_samples self) as [|k]; [lia|]. cbn [chunks] in Em. discriminate Em.
Qed.
End Returns.

(** The run of three draws on the batch of two inputs, sample 0 flipping in
    the second draw. *)
Lemma evaluate_batch_returns_witness :
  exists result st',
    evaluate_batch Ex.flipping Ex.stub_model Ex.x_batch Ex.y_single Ex.a_batch Ex.s0
      = (Ok (if return_aggregate Ex.flipping
             then ScList [aggregate_func Ex.flipping (ScArray result)]
             else ScArray result), st') /\
    shape result = [2].
Proof.
  apply (evaluate_batch_returns nat Ex.flipping Ex.stub_model Ex.x_batch Ex.y_single
           Ex.a_batch 1 2 [4]).
  - reflexivity.
  - reflexivity.
  - left. reflexivity.
  - reflexivity.
  - intros w. reflexivity.
  - intros x w Hx. cbn. rewrite Hx. reflexivity.
  - intros x w Hx. cbn. rewrite Hx. reflexivity.
  - intros x xp w. cbn. destruct (w =? 2); repeat constructor.
  - cbn. lia.
Defined.

(** ** Concrete runs *)

(** Two inputs, three draws, sample 0 flipping in the second draw: its score
    is NaN and the score of sample 1 is the largest of its three draws. *)
Example flipping_run :
  exists v,
    fst (evaluate_batch Ex.flipping Ex.stub_model Ex.x_batch Ex.y_single Ex.a_batch Ex.s0)
      = Ok (ScArray (mk_array [2] [nan; v])) /\
    fst (evaluate_batch Ex.plain Ex.stub_model Ex.x_batch Ex.y_single Ex.a_batch Ex.s0)
      = Ok (ScArray (mk_array [2] [Ex.score0; v])) /\
    is_nan Ex.score0 = false.
Proof.
  eexists. split; [vm_compute; reflexivity|]. split; vm_compute; reflexivity.
Qed.

(** With aggregation by the mean, the same batch returns the mean of its two
    scores in a one-element list. *)
Example aggregating_run :
  fst (evaluate_batch Ex.aggregating Ex.stub_model Ex.x_batch Ex.y_single Ex.a_batch Ex.s0)
  = Ok (ScList [Ex.mean (Ex.returned (ScList [])
                   (fst (evaluate_batch Ex.plain Ex.stub_model Ex.x_batch Ex.y_single
                           Ex.a_batch Ex.s0)))]).
Proof. vm_compute. reflexivity. Qed.

(** Multi-label mode, explanations of shape [(2, 3, 1, 1, 4)], labels
    [[0, 1]] and [[2]], sample 1 flipping in the second draw: a nested list
    of two scores and one score, the latter NaN. *)
Example multi_label_run :
  exists u v,
    fst (evaluate_batch Ex.multi5 Ex.stub_model Ex.x_batch Ex.y_multi Ex.a_batch5 Ex.s0)
      = Ok (ScNested [[u; v]; [nan]]).
Proof. eexists. eexists. vm_compute. reflexivity. Qed.

(** * Further properties of the objective and of [evaluate_batch] *)

Import Sign.

(** ** Signs through binary64 arithmetic *)

(** Rounding uses the sign for the result only. *)
Lemma binary_round_aux_sign (s : bool) (m e : Z) (l : location) :
  binary_round_aux prec emax s m e l
  = SF_with_sign s (binary_round_aux prec emax false m e l).
Proof.
  unfold binary_round_aux.
  destruct (shr_fexp prec emax m e l) as [mrs e1].
  destruct (shr_fexp prec emax (round_nearest_even (shr_m mrs) (loc_of_shr_record mrs))
              e1 loc_Exact) as [mrs2 e2].
  destruct (shr_m mrs2); try reflexivity.
  destruct (e2 <=? emax - prec)%Z; reflexivity.
Qed.

Lemma binary_round_sign (s : bool) (m : positive) (e : Z) :
  binary_round prec emax s m e = SF_with_sign s (binary_round prec emax false m e).
Proof.
  unfold binary_round.
  destruct (shl_align m e (fexp prec emax (Z.pos (digits2_pos m) + e))) as [mz ez].
  apply binary_round_aux_sign.
Qed.

Lemma with_sign_not_negative (f : spec_float) : SF_not_negative (SF_with_sign false f) = true.
Proof. destruct f; reflexivity. Qed.

Lemma binary_round_aux_not_negative (m e : Z) (l : location) :
  SF_not_negative (binary_round_aux prec emax false m e l) = true.
Proof. rewrite binary_round_aux_sign. apply with_sign_not_negative. Qed.

Lemma binary_round_not_negative (m : positive) (e : Z) :
  SF_not_negative (binary_round prec emax false m e) = true.
Proof. rewrite binary_round_sign. apply with_sign_not_negative. Qed.

(** A square is never negative. *)
Lemma square_not_negative (x : float) : is_not_negative (x * x) = true.
Proof.
  unfold is_not_negative. rewrite mul_spec. unfold SF64mul, SFmul.
  destruct (Prim2SF x) as [s | s | | s m e];
    try reflexivity; try (destruct s; reflexivity).
  destruct s; apply binary_round_aux_not_negative.
Qed.

(** A sum of values that are not negative is not negative. *)
Lemma add_not_negative (x y : float) :
  is_not_negative x = true -> is_not_negative y = true -> is_not_negative (x + y) = true.
Proof.
  unfold is_not_negative. rewrite add_spec. unfold SF64add, SFadd.
  destruct (Prim2SF x) as [sx | sx | | sx mx ex]; try (destruct sx; try discriminate);
  destruct (Prim2SF y) as [sy | sy | | sy my ey]; try (destruct sy; try discriminate);
  intros _ _; try reflexivity.
  cbn [cond_Zopp Z.add]. unfold binary_normalize. apply binary_round_not_negative.
Qed.

Lemma sqrt_not_negative (x : float) :
  is_not_negative x = true -> is_not_negative (sqrt x) = true.
Proof.
  unfold is_not_negative. rewrite sqrt_spec. unfold SF64sqrt, SFsqrt.
  destruct (Prim2SF x) as [s | s | | s m e]; try (destruct s; try discriminate);
  intros _; try reflexivity.
  destruct (SFsqrt_core_binary prec emax (Z.pos m) e) as [[mz ez] lz].
  apply binary_round_aux_not_negative.
Qed.

(** A quotient of a value that is not negative by a positive value is not
    negative. *)
Lemma div_not_negative (x y : float) :
  is_not_negative x = true -> is_positive y = true -> is_not_negative (x / y) = true.
Proof.
  unfold is_not_negative, is_positive. rewrite div_spec. unfold SF64div, SFdiv.
  destruct (Prim2SF x) as [sx | sx | | sx mx ex]; try (destruct sx; try discriminate);
  destruct (Prim2SF y) as [sy | sy | | sy my ey]; try (destruct sy; try discriminate);
  intros _ _; try reflexivity.
  cbn [xorb].
  destruct (SFdiv_core_binary prec emax (Z.pos mx) ex (Z.pos my) ey) as [[mz ez] lz].
  apply binary_round_aux_not_negative.
Qed.

(** In the order of the floats: NaN, or at least zero. *)
Lemma not_negative_leb (x : float) :
  is_not_negative x = true -> is_nan x = true \/ (0 <=? x)%float = true.
Proof.
  unfold is_not_negative. rewrite is_nan_spec, leb_spec, SF_zero.
  destruct (Prim2SF x) as [s | s | | s m e]; try (destruct s; try discriminate);
  intros _; auto.
Qed.

(** The guard turns a norm into a positive divisor. *)
Lemma guard_positive (x eps : float) :
  is_not_negative x = true -> is_positive eps = true -> is_finite eps = true ->
  is_positive (x + float_of_bool (x =? 0) * eps)%float = true.
Proof.
  intros Hx Hp Hf.
  assert (Hz : is_zero eps = false).
  { unfold is_positive in Hp. rewrite is_zero_spec.
    destruct (Prim2SF eps) as [s | s | | s m e]; try reflexivity. discriminate. }
  rewrite (guard_element x eps Hf Hz).
  destruct (is_zero x) eqn:Ez; [exact Hp|].
  unfold is_not_negative in Hx. unfold is_positive. rewrite is_zero_spec in Ez.
  destruct (Prim2SF x) as [s | s | | s m e]; try discriminate; exact Hx.
Qed.

(** A zero divided by a divisor that is neither zero nor NaN is a zero. *)
Lemma zero_div (x y : float) :
  is_zero x = true -> is_zero y = false -> is_nan y = false -> is_zero (x / y) = true.
Proof.
  rewrite !is_zero_spec, is_nan_spec, div_spec. unfold SF64div, SFdiv.
  destruct (Prim2SF x) as [sx | sx | | sx mx ex]; try discriminate;
  destruct (Prim2SF y) as [sy | sy | | sy my ey]; try discriminate; reflexivity.
Qed.

(** The difference changes its sign only, when its operands are swapped. *)
Lemma sub_swap_abs (x y : spec_float) :
  SFabs (SF64sub x y) = SFabs (SF64sub y x).
Proof.
  unfold SF64sub, SFsub.
  destruct x as [sx | sx | | sx mx ex]; destruct y as [sy | sy | | sy my ey];
    try reflexivity; try (destruct sx, sy; reflexivity).
  rewrite (Z.min_comm ey ex).
  set (a := cond_Zopp sx (Z.pos (fst (shl_align mx ex (Z.min ex ey))))).
  set (b := cond_Zopp sy (Z.pos (fst (shl_align my ey (Z.min ex ey))))).
  replace (b - a)%Z with (- (a - b))%Z by lia.
  unfold binary_normalize.
  destruct (a - b)%Z as [|p|p]; cbn [Z.opp]; try reflexivity.
  - rewrite (binary_round_sign true). destruct (binary_round prec emax false p _); reflexivity.
  - rewrite (binary_round_sign true). destruct (binary_round prec emax false p _); reflexivity.
Qed.

Lemma mul_self_abs (z : spec_float) : SF64mul z z = SF64mul (SFabs z) (SFabs z).
Proof.
  unfold SF64mul, SFmul. destruct z as [s | s | | s m e]; cbn [SFabs]; try reflexivity.
  - destruct s; reflexivity.
  - destruct s; reflexivity.
  - destruct s; reflexivity.
Qed.

(** The square of a difference does not depend on the order of the operands. *)
Lemma square_sub_swap (x y : float) :
  ((x - y) * (x - y))%float = ((y - x) * (y - x))%float.
Proof.
  apply Prim2SF_inj. rewrite !mul_spec, !sub_spec.
  rewrite (mul_self_abs (SF64sub (Prim2SF x) (Prim2SF y))).
  rewrite (mul_self_abs (SF64sub (Prim2SF y) (Prim2SF x))).
  rewrite (sub_swap_abs (Prim2SF x) (Prim2SF y)). reflexivity.
Qed.

(** ** Rounding never produces NaN *)

Lemma iter_pos_invariant (A : Type) (f : A -> A) (I : A -> Prop) :
  (forall x, I x -> I (f x)) -> forall p x, I x -> I (iter_pos f p x).
Proof.
  intros Hf p. induction p as [p IH | p IH |]; intros x Hx; simpl; auto.
Qed.

Lemma shr_1_nonneg (mrs : shr_record) :
  (0 <= shr_m mrs)%Z -> (0 <= shr_m (shr_1 mrs))%Z.
Proof.
  destruct mrs as [m r s]. cbn [shr_m]. intros H.
  destruct m as [| [p | p |] | p]; cbn; lia.
Qed.

Lemma shr_fexp_nonneg (m e : Z) (l : location) :
  (0 <= m)%Z -> (0 <= shr_m (fst (shr_fexp prec emax m e l)))%Z.
Proof.
  intros H. unfold shr_fexp, shr.
  assert (H0 : (0 <= shr_m (shr_record_of_loc m l))%Z) by (destruct l as [|[]]; exact H).
  destruct (fexp prec emax (Zdigits2 m + e) - e)%Z; cbn [fst]; try exact H0.
  apply iter_pos_invariant; [apply shr_1_nonneg | exact H0].
Qed.

Lemma round_nearest_even_nonneg (m : Z) (l : location) :
  (0 <= m)%Z -> (0 <= round_nearest_even m l)%Z.
Proof.
  intros H. unfold round_nearest_even. destruct l as [|[]]; try lia.
  destruct (Z.even m); lia.
Qed.

Lemma binary_round_aux_not_nan (s : bool) (m e : Z) (l : location) :
  (0 <= m)%Z -> SF_is_nan (binary_round_aux prec emax s m e l) = false.
Proof.
  intros H. unfold binary_round_aux.
  pose proof (shr_fexp_nonneg m e l H) as H1.
  destruct (shr_fexp prec emax m e l) as [mrs e1]. cbn [fst] in H1.
  pose proof (shr_fexp_nonneg (round_nearest_even (shr_m mrs) (loc_of_shr_record mrs))
                e1 loc_Exact (round_nearest_even_nonneg _ _ H1)) as H2.
  destruct (shr_fexp prec emax (round_nearest_even (shr_m mrs) (loc_of_shr_record mrs))
              e1 loc_Exact) as [mrs2 e2].
  cbn [fst] in H2.
  destruct (shr_m mrs2) as [|p|p]; [reflexivity | | lia].
  destruct (e2 <=? emax - prec)%Z; reflexivity.
Qed.

Lemma binary_round_not_nan (s : bool) (m : positive) (e : Z) :
  SF_is_nan (binary_round prec emax s m e) = false.
Proof.
  unfold binary_round.
  destruct (shl_align m e (fexp prec emax (Z.pos (digits2_pos m) + e))) as [mz ez].
  apply binary_round_aux_not_nan. lia.
Qed.

Lemma binary_normalize_not_nan (m e : Z) (sz : bool) :
  SF_is_nan (binary_normalize prec emax m e sz) = false.
Proof.
  unfold binary_normalize. destruct m; [reflexivity | |]; apply binary_round_not_nan.
Qed.

Lemma SFsqrt_core_nonneg (m e : Z) :
  (0 <= fst (fst (SFsqrt_core_binary prec emax m e)))%Z.
Proof.
  unfold SFsqrt_core_binary.
  match goal with |- context [Z.sqrtrem ?a] => set (m' := a) end.
  pose proof (Z.sqrtrem_sqrt m') as E. pose proof (Z.sqrt_nonneg m') as Hs.
  destruct (Z.sqrtrem m') as [q r]. cbn [fst] in *. lia.
Qed.

(** A difference of finite values is a number. *)
Lemma sub_finite_not_nan (x y : float) :
  is_finite x = true -> is_finite y = true -> is_nan (x - y) = false.
Proof.
  rewrite !is_finite_spec, is_nan_spec, sub_spec. unfold SF64sub, SFsub.
  destruct (Prim2SF x) as [sx | sx | | sx mx ex]; try discriminate;
  destruct (Prim2SF y) as [sy | sy | | sy my ey]; try discriminate; intros _ _;
    try reflexivity; try (destruct sx, sy; reflexivity).
  apply binary_normalize_not_nan.
Qed.

(** The square of a number is a number. *)
Lemma square_not_nan (x : float) : is_nan x = false -> is_nan (x * x) = false.
Proof.
  rewrite !is_nan_spec, mul_spec. unfold SF64mul, SFmul.
  destruct (Prim2SF x) as [s | s | | s m e]; try discriminate; intros _; try reflexivity.
  apply binary_round_aux_not_nan. lia.
Qed.

(** Adding numbers that are not negative gives a number. *)
Lemma add_not_nan (x y : float) :
  is_not_negative x = true -> is_not_negative y = true ->
  is_nan x = false -> is_nan y = false -> is_nan (x + y) = false.
Proof.
  unfold is_not_negative. rewrite !is_nan_spec, add_spec. unfold SF64add, SFadd.
  destruct (Prim2SF x) as [sx | sx | | sx mx ex]; try (destruct sx; try discriminate);
  destruct (Prim2SF y) as [sy | sy | | sy my ey]; try (destruct sy; try discriminate);
  intros _ _; try discriminate; intros _ _; try reflexivity.
  apply binary_normalize_not_nan.
Qed.

Lemma sqrt_not_nan (x : float) :
  is_not_negative x = true -> is_nan x = false -> is_nan (sqrt x) = false.
Proof.
  unfold is_not_negative. rewrite !is_nan_spec, sqrt_spec. unfold SF64sqrt, SFsqrt.
  destruct (Prim2SF x) as [s | s | | s m e]; try (destruct s; try discriminate);
  intros _; try discriminate; intros _; try reflexivity.
  pose proof (SFsqrt_core_nonneg (Z.pos m) e) as H.
  destruct (SFsqrt_core_binary prec emax (Z.pos m) e) as [[mz ez] lz]. cbn [fst] in H.
  apply binary_round_aux_not_nan. exact H.
Qed.

(** ** The Euclidean norm of a block *)

(** A number that is not negative: [+0.0], a positive number or [+inf]. *)
Lemma fold_add_not_negative (l : list float) :
  forall a, is_not_negative a = true ->
  Forall (fun x => is_not_negative x = true) l ->
  is_not_negative (fold_left PrimFloat.add l a) = true.
Proof.
  induction l as [|x l IH]; intros a Ha Hl; simpl; [exact Ha|].
  inversion Hl as [|? ? Hx Hl']; subst.
  apply IH; [apply add_not_negative; assumption | assumption].
Qed.

Lemma fold_add_not_nan (l : list float) :
  forall a, is_not_negative a = true -> is_nan a = false ->
  Forall (fun x => is_not_negative x = true /\ is_nan x = false) l ->
  is_nan (fold_left PrimFloat.add l a) = false.
Proof.
  induction l as [|x l IH]; intros a Ha Hn Hl; simpl; [exact Hn|].
  inversion Hl as [|? ? [Hx Hxn] Hl']; subst.
  apply IH; [apply add_not_negative | apply add_not_nan | ]; assumption.
Qed.

Lemma zero_not_negative : is_not_negative 0 = true.
Proof. unfold is_not_negative. rewrite SF_zero. reflexivity. Qed.

(** A norm is never negative, whatever the block holds. *)
Lemma norm2_not_negative (v : list float) : is_not_negative (norm2 v) = true.
Proof.
  unfold norm2. apply sqrt_not_negative. apply fold_add_not_negative.
  - apply zero_not_negative.
  - apply Forall_map. apply Forall_forall. intros x _. apply square_not_negative.
Qed.

(** The norm of a block of numbers is a number ([+inf] on overflow). *)
Lemma norm2_not_nan (v : list float) :
  Forall (fun x => is_nan x = false) v -> is_nan (norm2 v) = false.
Proof.
  intros H. unfold norm2.
  assert (Hsq : Forall (fun x => is_not_negative x = true /\ is_nan x = false)
                  (map (fun x => (x * x)%float) v)).
  { apply Forall_map. eapply Forall_impl; [|exact H]. intros x Hx. split.
    - apply square_not_negative.
    - apply square_not_nan. exact Hx. }
  apply sqrt_not_nan.
  - apply fold_add_not_negative; [apply zero_not_negative|].
    eapply Forall_impl; [|exact Hsq]. intros x [Hx _]. exact Hx.
  - apply fold_add_not_nan; [apply zero_not_negative | reflexivity | exact Hsq].
Qed.

(** ** The guard with any positive [eps_min] *)

Lemma ltb_zero_positive (x : float) : (0 <? x)%float = true -> is_positive x = true.
Proof.
  unfold is_positive. rewrite ltb_spec, SF_zero.
  destruct (Prim2SF x) as [s | s | | s m e]; try discriminate;
    destruct s; try discriminate; reflexivity.
Qed.

Lemma not_finite_positive (eps : float) :
  is_positive eps = true -> is_finite eps = false -> eps = infinity \/ eps = nan.
Proof.
  unfold is_positive. rewrite is_finite_spec. intros Hp Hf.
  destruct (Prim2SF eps) as [s | s | | s m e] eqn:E; try discriminate.
  - destruct s; [discriminate|]. left. apply Prim2SF_inj. rewrite E. reflexivity.
  - right. apply Prim2SF_inj. rewrite E. reflexivity.
Qed.

Lemma guard_positive_any (x eps : float) :
  is_not_negative x = true -> is_positive eps = true ->
  is_positive (x + float_of_bool (x =? 0) * eps)%float = true.
Proof.
  intros Hx Hp. destruct (is_finite eps) eqn:Hf.
  - apply guard_positive; assumption.
  - assert (Hc : forall c, c = infinity \/ c = nan ->
                           is_positive (x + c)%float = true).
    { intros c Hc. unfold is_positive, is_not_negative in *. rewrite add_spec.
      unfold SF64add, SFadd.
      destruct Hc as [-> | ->];
      destruct (Prim2SF x) as [s | s | | s m e]; try (destruct s; try discriminate);
      reflexivity. }
    apply Hc.
    destruct (not_finite_positive eps Hp Hf) as [-> | ->];
      destruct (x =? 0)%float; cbn [float_of_bool].
    + left. reflexivity.
    + right. reflexivity.
    + right. reflexivity.
    + right. reflexivity.
Qed.

(** ** Properties of every entry, through broadcasting and the norms *)

Lemma Forall_map2 (A B C : Type) (P : A -> Prop) (Q : B -> Prop) (R : C -> Prop)
    (f : A -> B -> C) :
  (forall x y, P x -> Q y -> R (f x y)) ->
  forall l1 l2, Forall P l1 -> Forall Q l2 -> Forall R (map2 f l1 l2).
Proof.
  intros Hf l1. induction l1 as [|x l1 IH]; intros [|y l2] H1 H2; simpl; try constructor.
  - apply Hf; [inversion H1 | inversion H2]; assumption.
  - apply IH; [inversion H1 | inversion H2]; assumption.
Qed.

Lemma Forall_map2_diag (A C : Type) (P : A -> Prop) (R : C -> Prop) (f : A -> A -> C) :
  (forall x, P x -> R (f x x)) ->
  forall l, Forall P l -> Forall R (map2 f l l).
Proof.
  intros Hf l H. induction H as [|x l Hx Hl IH]; simpl; constructor; auto.
Qed.

Lemma Forall_concat_repeat (A : Type) (P : A -> Prop) (l : list A) (n : nat) :
  Forall P l -> Forall P (concat (repeat l n)).
Proof.
  intros H. induction n as [|n IH]; simpl; [constructor|].
  apply Forall_app. split; assumption.
Qed.

Lemma Forall_broadcast_data (A : Type) (P : A -> Prop) (src : list nat) :
  forall (tgt : list nat) (d : list A),
  Forall P d -> Forall P (broadcast_data src tgt d).
Proof.
  induction src as [|a src IH]; intros tgt d H; [exact H|].
  destruct tgt as [|b tgt]; [exact H|]. simpl.
  destruct (a =? b).
  - apply Forall_concat. apply Forall_map.
    eapply Forall_impl; [|apply (Forall_chunks A P); exact H].
    intros c Hc. apply IH. exact Hc.
  - apply Forall_concat_repeat. apply IH. exact H.
Qed.

Lemma ufunc2_Forall (P Q R : float -> Prop) (f : float -> float -> float)
    (a b r : ndarray) :
  (forall x y, P x -> Q y -> R (f x y)) ->
  Forall P (data a) -> Forall Q (data b) -> ufunc2 f a b = Ok r -> Forall R (data r).
Proof.
  intros Hf Ha Hb H. unfold ufunc2 in H.
  destruct (broadcast_shapes (shape a) (shape b)) as [s|]; [|discriminate H].
  apply Ok_inj in H. subst r. cbn [data].
  apply (Forall_map2 _ _ _ P Q R f Hf); unfold broadcast_to;
    apply Forall_broadcast_data; assumption.
Qed.

Lemma linalg_norm_Forall (P Q : float -> Prop) (k : nat) (a r : ndarray) :
  (forall v, Forall P v -> Q (norm2 v)) ->
  Forall P (data a) -> linalg_norm k a = Ok r -> Forall Q (data r).
Proof.
  intros Hn Ha H. unfold linalg_norm in H.
  destruct (ndim a <? k); [discriminate H|].
  apply Ok_inj in H. subst r. cbn [data].
  apply Forall_map. eapply Forall_impl; [|apply (Forall_chunks float P); exact Ha].
  exact Hn.
Qed.

Lemma norm_function_Forall (W : Type) (self : metric W) (P Q : float -> Prop)
    (nd : nat) (norm_f : ndarray -> res ndarray) (q n : ndarray) :
  (forall v, Forall P v -> Q (norm2 v)) -> (forall v, Forall Q v -> Q (norm2 v)) ->
  norm_function self nd = Ok norm_f -> norm_f q = Ok n ->
  Forall P (data q) -> Forall Q (data n).
Proof.
  intros HP HQ Hf Hn Hq.
  assert (two : (let? t := linalg_norm 2 q in linalg_norm 1 t)%res = Ok n ->
                Forall Q (data n)).
  { intros H. destruct (linalg_norm 2 q) as [t|e] eqn:E; [|discriminate H].
    cbn [res_bind] in H.
    apply (linalg_norm_Forall Q Q 1 t n HQ); [|exact H].
    apply (linalg_norm_Forall P Q 2 q t HP Hq E). }
  unfold norm_function in Hf.
  destruct (nd =? 4).
  { apply Ok_inj in Hf. subst norm_f. apply two. exact Hn. }
  destruct (nd =? 3).
  { apply Ok_inj in Hf. subst norm_f. apply (linalg_norm_Forall P Q 2 q n HP Hq Hn). }
  destruct (nd =? 2).
  { apply Ok_inj in Hf. subst norm_f. apply (linalg_norm_Forall P Q 1 q n HP Hq Hn). }
  destruct ((nd =? 5) && multi_label self); [|discriminate Hf].
  apply Ok_inj in Hf. subst norm_f. apply two. exact Hn.
Qed.

(** The denominator is the guarded norm of the difference of the logits. *)
Lemma denominator_data (W : Type) (self : metric W) (h_x h_xs d : ndarray) :
  denominator self h_x h_xs = Ok d ->
  exists s t,
    subtract h_x h_xs = Ok s /\ linalg_norm 1 s = Ok t /\ wf t /\
    shape d = shape t /\
    data d = map (fun x => (x + float_of_bool (x =? 0) * eps_min self)%float) (data t).
Proof.
  intros H. unfold denominator in H.
  destruct (subtract h_x h_xs) as [s|e] eqn:Es; [|discriminate H]. cbn [res_bind] in H.
  destruct (linalg_norm 1 s) as [t|e] eqn:Et; [|discriminate H]. cbn [res_bind] in H.
  pose proof (linalg_norm_wf 1 s t Et) as Hwf.
  rewrite (add_mask_data W self t Hwf) in H. apply Ok_inj in H. subst d.
  exists s, t. repeat split; try assumption.
Qed.

Lemma denominator_Forall (W : Type) (self : metric W)
    (P1 P2 PS PN PD : float -> Prop) (h_x h_xs d : ndarray) :
  Forall P1 (data h_x) -> Forall P2 (data h_xs) ->
  (forall x y, P1 x -> P2 y -> PS (x - y)%float) ->
  (forall v, Forall PS v -> PN (norm2 v)) ->
  (forall x, PN x -> PD (x + float_of_bool (x =? 0) * eps_min self)%float) ->
  denominator self h_x h_xs = Ok d -> Forall PD (data d).
Proof.
  intros H1 H2 Hsub Hn Hg H.
  destruct (denominator_data W self h_x h_xs d H) as (s & t & Es & Et & _ & _ & Ed).
  rewrite Ed. apply Forall_map.
  eapply Forall_impl; [exact Hg|].
  apply (linalg_norm_Forall PS PN 1 s t Hn); [|exact Et].
  apply (ufunc2_Forall P1 P2 PS PrimFloat.sub h_x h_xs s Hsub H1 H2 Es).
Qed.

Lemma objective_Forall (W : Type) (self : metric W) (PQ PN PD PR : float -> Prop)
    (h_x h_xs e_x e_xs r : ndarray) :
  (forall q, elementwise_quotient self e_x e_xs = Ok q -> Forall PQ (data q)) ->
  (forall v, Forall PQ v -> PN (norm2 v)) ->
  (forall v, Forall PN v -> PN (norm2 v)) ->
  (forall d, denominator self h_x h_xs = Ok d -> Forall PD (data d)) ->
  (forall x y, PN x -> PD y -> PR (x / y)%float) ->
  relative_output_stability_objective self h_x h_xs e_x e_xs = Ok r ->
  Forall PR (data r).
Proof.
  intros Hq Hn1 Hn2 Hd Hdiv H.
  unfold relative_output_stability_objective in H. cbv zeta in H.
  destruct (norm_function self (ndim e_x)) as [norm_f|e] eqn:Ef; [|discriminate H].
  cbn [res_bind] in H.
  destruct (elementwise_quotient self e_x e_xs) as [q|e] eqn:Eq; [|discriminate H].
  cbn [res_bind] in H.
  destruct (norm_f q) as [n|e] eqn:En; [|discriminate H]. cbn [res_bind] in H.
  destruct (denominator self h_x h_xs) as [d|e] eqn:Ed; [|discriminate H].
  cbn [res_bind] in H.
  assert (Fn : Forall PN (data n)).
  { apply (norm_function_Forall W self PQ PN (ndim e_x) norm_f q n Hn1 Hn2 Ef En).
    apply Hq. reflexivity. }
  assert (Fd : Forall PD (data d)) by (apply Hd; reflexivity).
  destruct (multi_label self).
  - apply (ufunc2_Forall PN PD PR PrimFloat.div n (expand_dims_last d) r Hdiv Fn Fd H).
  - apply (ufunc2_Forall PN PD PR PrimFloat.div n d r Hdiv Fn Fd H).
Qed.

(** The quotient of the explanations, element by element. *)
Lemma map2_div_sub_map (g : float -> float) (l1 : list float) :
  forall l2,
  map2 PrimFloat.div (map2 PrimFloat.sub l1 l2) (map g l1)
  = map2 (fun x xs => ((x - xs) / g x)%float) l1 l2.
Proof.
  induction l1 as [|x l1 IH]; intros [|y l2]; simpl; try reflexivity.
  rewrite IH. reflexivity.
Qed.

Lemma elementwise_quotient_data (W : Type) (self : metric W) (e_x e_xs : ndarray) :
  wf e_x -> wf e_xs -> shape e_xs = shape e_x ->
  elementwise_quotient self e_x e_xs
  = Ok (mk_array (shape e_x)
          (map2 (fun x xs => ((x - xs) / (x + float_of_bool (x =? 0) * eps_min self))%float)
             (data e_x) (data e_xs))).
Proof.
  intros Hx Hxs Hs. unfold elementwise_quotient, guarded, subtract, divide.
  assert (Hl : length (data e_xs) = length (data e_x)).
  { unfold wf in Hx, Hxs. rewrite Hx, Hxs, Hs. reflexivity. }
  rewrite (ufunc2_same_shape PrimFloat.sub e_x e_xs Hs Hx Hxs). cbn [res_bind].
  rewrite (add_mask_data W self e_x Hx). cbn [res_bind].
  rewrite ufunc2_same_shape.
  - cbn [shape data]. rewrite map2_div_sub_map. reflexivity.
  - reflexivity.
  - unfold wf. cbn [shape data]. rewrite map2_length, Hl, Nat.min_id. exact Hx.
  - unfold wf. cbn [shape data]. rewrite length_map. exact Hx.
Qed.

(** ** The objective is symmetric in the logits *)

Lemma broadcast_dims_comm (s1 : list nat) :
  forall s2, broadcast_dims s1 s2 = broadcast_dims s2 s1.
Proof.
  induction s1 as [|a s1 IH]; intros [|b s2]; simpl; try reflexivity.
  rewrite (IH s2). destruct (broadcast_dims s2 s1) as [r|]; [|reflexivity].
  rewrite (Nat.eqb_sym b a).
  destruct (a =? b) eqn:E.
  { apply Nat.eqb_eq in E. subst b. reflexivity. }
  destruct (a =? 1) eqn:E1; destruct (b =? 1) eqn:E2; try reflexivity.
  apply Nat.eqb_eq in E1. apply Nat.eqb_eq in E2. subst a b. discriminate E.
Qed.

Lemma broadcast_shapes_comm (s1 s2 : list nat) :
  broadcast_shapes s1 s2 = broadcast_shapes s2 s1.
Proof.
  unfold broadcast_shapes. rewrite (Nat.max_comm (length s2) (length s1)).
  apply broadcast_dims_comm.
Qed.

Lemma norm2_sub_swap (l1 : list float) :
  forall l2, norm2 (map2 PrimFloat.sub l1 l2) = norm2 (map2 PrimFloat.sub l2 l1).
Proof.
  intros l2. unfold norm2. f_equal. f_equal. revert l2.
  induction l1 as [|x l1 IH]; intros [|y l2]; simpl; try reflexivity.
  rewrite (IH l2), (square_sub_swap x y). reflexivity.
Qed.

Lemma norms_sub_swap (L1 : list (list float)) :
  forall L2,
  map norm2 (map2 (map2 PrimFloat.sub) L1 L2) = map norm2 (map2 (map2 PrimFloat.sub) L2 L1).
Proof.
  induction L1 as [|l1 L1 IH]; intros [|l2 L2]; simpl; try reflexivity.
  rewrite (IH L2), (norm2_sub_swap l1 l2). reflexivity.
Qed.

Lemma logit_norm_comm (h_x h_xs : ndarray) :
  (let? d := subtract h_x h_xs in linalg_norm 1 d)%res
  = (let? d := subtract h_xs h_x in linalg_norm 1 d)%res.
Proof.
  unfold subtract, ufunc2. rewrite (broadcast_shapes_comm (shape h_xs) (shape h_x)).
  destruct (broadcast_shapes (shape h_x) (shape h_xs)) as [s|]; [|reflexivity].
  cbn [res_bind]. unfold linalg_norm, ndim. cbn [shape data].
  destruct (length s <? 1); [reflexivity|].
  rewrite !chunks_map2, norms_sub_swap. reflexivity.
Qed.

Lemma denominator_comm (W : Type) (self : metric W) (h_x h_xs : ndarray) :
  denominator self h_x h_xs = denominator self h_xs h_x.
Proof.
  pose proof (logit_norm_comm h_x h_xs) as H. unfold denominator.
  destruct (subtract h_x h_xs) as [s|e]; destruct (subtract h_xs h_x) as [s'|e'];
    cbn [res_bind] in *.
  - rewrite H. reflexivity.
  - destruct (linalg_norm 1 s); [discriminate H | exact H].
  - destruct (linalg_norm 1 s'); [discriminate H | exact H].
  - exact H.
Qed.

(** X3 -- [relative_output_stability_objective] does not depend on the order
    of its two logit arguments: swapping [h_x] and [h_xs] gives the same
    result (the same array or the same error), because the difference of the
    logits enters through its Euclidean norm only, and a binary64 difference
    changes nothing but its sign when its operands are swapped. *)
Theorem objective_symmetric_in_logits
    (W : Type) (self : metric W) (h_x h_xs e_x e_xs : ndarray) :
  relative_output_stability_objective self h_x h_xs e_x e_xs
  = relative_output_stability_objective self h_xs h_x e_x e_xs.
Proof.
  unfold relative_output_stability_objective.
  rewrite (denominator_comm W self h_x h_xs). reflexivity.
Qed.

(** ** The sign of the objective *)

(** X2 -- With a positive [eps_min], no entry of the result of
    [relative_output_stability_objective] is negative: whatever the shapes
    and the values of the logits and of the explanations (infinities and
    NaN included), every entry of a returned array is NaN or at least
    zero. *)
Theorem objective_never_negative
    (W : Type) (self : metric W) (h_x h_xs e_x e_xs r : ndarray) :
  (0 <? eps_min self)%float = true ->
  relative_output_stability_objective self h_x h_xs e_x e_xs = Ok r ->
  Forall (fun v => is_nan v = true \/ (0 <=? v)%float = true) (data r).
Proof.
  intros Heps H. apply ltb_zero_positive in Heps.
  eapply Forall_impl; [intros v Hv; apply not_negative_leb; exact Hv|].
  apply (objective_Forall W self (fun _ => True)
           (fun v => is_not_negative v = true) (fun v => is_positive v = true)
           (fun v => is_not_negative v = true) h_x h_xs e_x e_xs r).
  - intros q _. apply Forall_forall. intros x _. exact I.
  - intros v _. apply norm2_not_negative.
  - intros v _. apply norm2_not_negative.
  - intros d Hd.
    apply (denominator_Forall W self (fun _ => True) (fun _ => True) (fun _ => True)
             (fun v => is_not_negative v = true) (fun v => is_positive v = true)
             h_x h_xs d).
    + apply Forall_forall. intros x _. exact I.
    + apply Forall_forall. intros x _. exact I.
    + intros x y _ _. exact I.
    + intros v _. apply norm2_not_negative.
    + intros x Hx. apply guard_positive_any; assumption.
    + exact Hd.
  - intros x y Hx Hy. apply div_not_negative; assumption.
  - exact H.
Qed.

Lemma objective_never_negative_witness :
  Forall (fun v => is_nan v = true \/ (0 <=? v)%float = true)
    (data (mk_array [2] [(1 / Ex.eps_default)%float; 1%float])).
Proof.
  apply (objective_never_negative nat Ex.plain Ex.h_x2 Ex.h_xs2 Ex.e_x2 Ex.e_xs2).
  - vm_compute. reflexivity.
  - vm_compute. reflexivity.
Defined.

(** ** Explanations that the perturbation leaves unchanged *)

Lemma guard_number (x eps : float) :
  is_finite eps = true -> is_zero eps = false -> is_nan x = false ->
  is_zero (x + float_of_bool (x =? 0) * eps)%float = false /\
  is_nan (x + float_of_bool (x =? 0) * eps)%float = false.
Proof.
  intros Hf Hz Hx. rewrite (guard_element x eps Hf Hz).
  destruct (is_zero x) eqn:Ez.
  - split; [exact Hz|]. rewrite is_nan_spec. rewrite is_finite_spec in Hf.
    destruct (Prim2SF eps); try discriminate; reflexivity.
  - split; [exact Ez | exact Hx].
Qed.

Lemma finite_not_nan (x : float) : is_finite x = true -> is_nan x = false.
Proof.
  rewrite is_finite_spec, is_nan_spec. destruct (Prim2SF x); try discriminate; reflexivity.
Qed.

Lemma finite_eqb_refl (x : float) : is_finite x = true -> (x =? x)%float = true.
Proof.
  rewrite is_finite_spec, eqb_spec. unfold SFeqb, SFcompare.
  destruct (Prim2SF x) as [s | s | | s m e]; try discriminate; intros _; try reflexivity.
  destruct s; rewrite Z.compare_refl, ?Pos.compare_cont_refl, ?Pos.compare_refl; reflexivity.
Qed.

(** X4 -- When the explanation of the perturbed input is the explanation of
    the input itself ([e_xs] is [e_x]), with finite entries, finite logits
    and a finite non-zero [eps_min], every entry of the result of
    [relative_output_stability_objective] is a zero, whatever the logits. *)
Theorem unchanged_explanation_scores_zero
    (W : Type) (self : metric W) (h_x h_xs e_x r : ndarray) :
  wf e_x ->
  is_finite (eps_min self) = true -> is_zero (eps_min self) = false ->
  Forall (fun x => is_finite x = true) (data e_x) ->
  Forall (fun x => is_finite x = true) (data h_x) ->
  Forall (fun x => is_finite x = true) (data h_xs) ->
  relative_output_stability_objective self h_x h_xs e_x e_x = Ok r ->
  Forall (fun v => is_zero v = true) (data r).
Proof.
  intros Hwf Hf Hz He Hh Hhs H.
  apply (objective_Forall W self (fun v => is_zero v = true)
           (fun v => is_zero v = true)
           (fun v => is_zero v = false /\ is_nan v = false)
           (fun v => is_zero v = true) h_x h_xs e_x e_x r).
  - intros q Hq.
    rewrite (elementwise_quotient_data W self e_x e_x Hwf Hwf eq_refl) in Hq.
    apply Ok_inj in Hq. subst q. cbn [data].
    apply (Forall_map2_diag float float (fun x => is_finite x = true)); [|exact He].
    intros x Hx.
    destruct (guard_number x (eps_min self) Hf Hz (finite_not_nan x Hx)) as [G1 G2].
    apply zero_div; [|exact G1|exact G2].
    apply sub_eqb_zero; [exact Hx | apply finite_eqb_refl; exact Hx].
  - intros v Hv. rewrite (norm2_zeros v Hv). reflexivity.
  - intros v Hv. rewrite (norm2_zeros v Hv). reflexivity.
  - intros d Hd.
    apply (denominator_Forall W self (fun x => is_finite x = true)
             (fun x => is_finite x = true) (fun v => is_nan v = false)
             (fun v => is_nan v = false)
             (fun v => is_zero v = false /\ is_nan v = false) h_x h_xs d Hh Hhs).
    + intros x y Hx Hy. apply sub_finite_not_nan; assumption.
    + intros v Hv. apply norm2_not_nan. exact Hv.
    + intros x Hx. apply guard_number; assumption.
    + exact Hd.
  - intros x y Hx [Hy1 Hy2]. apply zero_div; assumption.
  - exact H.
Qed.

Lemma unchanged_explanation_scores_zero_witness :
  Forall (fun v => is_zero v = true) (data (mk_array [2] [0%float; 0%float])).
Proof.
  apply (unchanged_explanation_scores_zero nat Ex.plain Ex.h_x2 Ex.h_xs2 Ex.e_x2).
  - vm_compute. reflexivity.
  - vm_compute. reflexivity.
  - vm_compute. reflexivity.
  - vm_compute. repeat constructor.
  - vm_compute. repeat constructor.
  - vm_compute. repeat constructor.
  - vm_compute. reflexivity.
Defined.

(** ** The objective, sample by sample *)

Import PerSample.
Open Scope nat_scope.

Lemma nth_chunks (A : Type) (sz cnt : nat) :
  forall (l : list A) (i : nat), i < cnt ->
  nth i (chunks sz cnt l) [] = firstn sz (skipn (i * sz) l).
Proof.
  induction cnt as [|cnt IH]; intros l i Hi; [lia|].
  destruct i as [|i]; simpl; [reflexivity|].
  rewrite (IH (skipn sz l) i) by lia. rewrite skipn_skipn.
  rewrite (Nat.add_comm (i * sz) sz). reflexivity.
Qed.

Lemma chunks_map (A B : Type) (f : A -> B) (sz cnt : nat) :
  forall l, chunks sz cnt (map f l) = map (map f) (chunks sz cnt l).
Proof.
  induction cnt as [|cnt IH]; intros l; simpl; [reflexivity|].
  rewrite firstn_map, skipn_map, IH. reflexivity.
Qed.

Lemma skipn_chunks (A : Type) (sz k : nat) :
  forall (cnt : nat) (l : list A),
  skipn k (chunks sz cnt l) = chunks sz (cnt - k) (skipn (k * sz) l).
Proof.
  induction k as [|k IH]; intros cnt l.
  - simpl. rewrite Nat.sub_0_r. reflexivity.
  - destruct cnt as [|cnt]; [reflexivity|].
    cbn [chunks skipn Nat.sub]. rewrite IH, skipn_skipn.
    rewrite (Nat.add_comm (k * sz) sz). reflexivity.
Qed.

Lemma firstn_chunks (A : Type) (sz k : nat) :
  forall (cnt : nat) (l : list A), k <= cnt -> firstn k (chunks sz cnt l) = chunks sz k l.
Proof.
  induction k as [|k IH]; intros cnt l H; [reflexivity|].
  destruct cnt as [|cnt]; [lia|]. simpl. rewrite IH by lia. reflexivity.
Qed.

Lemma chunks_firstn (A : Type) (sz cnt : nat) :
  forall l : list A, chunks sz cnt (firstn (cnt * sz) l) = chunks sz cnt l.
Proof.
  induction cnt as [|cnt IH]; intros l; [reflexivity|].
  cbn [chunks]. rewrite firstn_firstn, skipn_firstn_comm.
  replace (Nat.min sz (S cnt * sz)) with sz by lia.
  replace (S cnt * sz - sz) with (cnt * sz) by lia.
  rewrite IH. reflexivity.
Qed.

(** The blocks of one sample among the blocks of the batch. *)
Lemma nth_chunks_of_chunks (A B : Type) (f : list A -> B) (blk c N : nat)
    (l : list A) (i : nat) :
  i < N ->
  nth i (chunks c N (map f (chunks blk (N * c) l))) []
  = map f (chunks blk c (nth i (chunks (c * blk) N l) [])).
Proof.
  intros Hi. rewrite (nth_chunks B c N _ i Hi), (nth_chunks A (c * blk) N l i Hi).
  rewrite skipn_map, firstn_map. f_equal.
  rewrite skipn_chunks, firstn_chunks.
  - rewrite chunks_firstn. rewrite Nat.mul_assoc. reflexivity.
  - rewrite <- Nat.mul_sub_distr_r.
    assert (1 <= N - i) by lia. nia.
Qed.

Lemma nth_map_lt (A B : Type) (f : A -> B) (l : list A) (i : nat) (d : B) (d' : A) :
  i < length l -> nth i (map f l) d = f (nth i l d').
Proof.
  intros H. rewrite (nth_indep (map f l) d (f d')) by (rewrite length_map; exact H).
  apply map_nth.
Qed.

Lemma size_of_one (n : nat) : size_of [n] = n.
Proof. unfold size_of. simpl. apply Nat.mul_1_r. Qed.

Lemma size_of_two (n c : nat) : size_of [n; c] = n * c.
Proof. unfold size_of. simpl. rewrite Nat.mul_1_r. reflexivity. Qed.

(** The norm over the last [k] axes, for a shape split at these axes. *)
Lemma linalg_norm_split (k : nat) (a : ndarray) (lead tail : list nat) :
  shape a = lead ++ tail -> length tail = k ->
  linalg_norm k a
  = Ok (mk_array lead (map norm2 (chunks (size_of tail) (size_of lead) (data a)))).
Proof.
  intros Hs Hk. unfold linalg_norm, ndim. rewrite Hs, length_app, Hk.
  replace (length lead + k <? k) with false by (symmetry; apply Nat.ltb_ge; lia).
  replace (length lead + k - k) with (length lead) by lia.
  rewrite firstn_app, skipn_app, firstn_all, skipn_all, Nat.sub_diag.
  cbn [firstn skipn app]. rewrite app_nil_r. reflexivity.
Qed.

(** The norm selected by the rank dispatch, on each sample. *)
Lemma norm_function_rows (W : Type) (self : metric W) (q : ndarray) (N : nat)
    (rest : list nat) :
  shape q = N :: rest -> 1 <= length rest <= 3 ->
  exists norm_f n,
    norm_function self (S (length rest)) = Ok norm_f /\ norm_f q = Ok n /\
    shape n = [N] /\ wf n /\
    forall i, i < N ->
      nth i (data n) 0%float
      = sample_norm rest (nth i (chunks (size_of rest) N (data q)) []).
Proof.
  intros Hs Hlen.
  destruct rest as [|a [|b [|c [|x rest]]]]; cbn [length] in Hlen; try lia.
  - exists (fun arr => linalg_norm 1 arr),
      (mk_array [N] (map norm2 (chunks (size_of [a]) (size_of [N]) (data q)))).
    split; [reflexivity|].
    split; [apply (linalg_norm_split 1 q [N] [a] Hs eq_refl)|].
    split; [reflexivity|].
    split; [unfold wf; cbn [data shape]; rewrite length_map, chunks_length; reflexivity|].
    intros i Hi. cbn [data sample_norm]. rewrite !size_of_one.
    apply nth_map_lt. rewrite chunks_length. exact Hi.
  - exists (fun arr => linalg_norm 2 arr),
      (mk_array [N] (map norm2 (chunks (size_of [a; b]) (size_of [N]) (data q)))).
    split; [reflexivity|].
    split; [apply (linalg_norm_split 2 q [N] [a; b] Hs eq_refl)|].
    split; [reflexivity|].
    split; [unfold wf; cbn [data shape]; rewrite length_map, chunks_length; reflexivity|].
    intros i Hi. cbn [data sample_norm]. rewrite !size_of_one.
    apply nth_map_lt. rewrite chunks_length. exact Hi.
  - exists (fun arr => (let? t := linalg_norm 2 arr in linalg_norm 1 t)%res),
      (mk_array [N]
         (map norm2 (chunks (size_of [a]) (size_of [N])
                       (map norm2 (chunks (size_of [b; c]) (size_of [N; a]) (data q)))))).
    split; [reflexivity|].
    split.
    { rewrite (linalg_norm_split 2 q [N; a] [b; c] Hs eq_refl). cbn [res_bind].
      apply linalg_norm_split; reflexivity. }
    split; [reflexivity|].
    split; [unfold wf; cbn [data shape]; rewrite length_map, chunks_length; reflexivity|].
    intros i Hi. cbn [data sample_norm]. rewrite !size_of_one, (size_of_two N a).
    rewrite (nth_map_lt _ _ norm2 _ i 0%float []) by (rewrite chunks_length; exact Hi).
    rewrite (nth_chunks_of_chunks float float norm2 (size_of [b; c]) a N (data q) i Hi).
    reflexivity.
Qed.

(** The denominator, sample by sample. *)
Lemma denominator_rows (W : Type) (self : metric W) (h_x h_xs : ndarray) (N C : nat) :
  wf h_x -> wf h_xs -> shape h_x = [N; C] -> shape h_xs = [N; C] ->
  denominator self h_x h_xs
  = Ok (mk_array [N]
          (map (guard (eps_min self))
             (map norm2 (chunks C N (map2 PrimFloat.sub (data h_x) (data h_xs)))))).
Proof.
  intros Hx Hxs Sx Sxs. pose proof (logit_norm_data h_x h_xs N C Hx Hxs Sx Sxs) as H.
  unfold denominator.
  destruct (subtract h_x h_xs) as [s|e]; cbn [res_bind] in *; [|discriminate H].
  rewrite H. cbn [res_bind]. rewrite add_mask_data.
  - reflexivity.
  - unfold wf. cbn [data shape]. rewrite length_map, chunks_length, size_of_one.
    reflexivity.
Qed.

Lemma row_chunks (A : Type) (a : array A) (N : nat) (rest : list nat) (i : nat) :
  shape a = N :: rest -> row a i = nth i (chunks (size_of rest) N (data a)) [].
Proof. intros H. unfold row. rewrite H. reflexivity. Qed.

(** X5 -- In single-label mode, for explanations of rank 2, 3 or 4 and
    logits of shape (N, C), [relative_output_stability_objective] returns
    one value per sample, and the value of sample [i] is computed from row
    [i] of the two logit arrays and of the two explanation arrays only: it is
    the norm of the guarded element-wise quotient of that sample divided by
    the guarded norm of the difference of its logits.  No sample's score
    depends on the other samples of the batch. *)
Theorem objective_per_sample
    (W : Type) (self : metric W) (h_x h_xs e_x e_xs : ndarray) (N C : nat)
    (rest : list nat) :
  multi_label self = false ->
  wf h_x -> wf h_xs -> wf e_x -> wf e_xs ->
  shape h_x = [N; C] -> shape h_xs = [N; C] ->
  shape e_x = N :: rest -> shape e_xs = N :: rest ->
  1 <= length rest <= 3 ->
  exists r,
    relative_output_stability_objective self h_x h_xs e_x e_xs = Ok r /\
    shape r = [N] /\ wf r /\
    forall i, i < N ->
      nth i (data r) 0%float
      = sample_objective (eps_min self) rest
          (row h_x i) (row h_xs i) (row e_x i) (row e_xs i).
Proof.
  intros Hml Hhx Hhxs Hex Hexs Shx Shxs Sex Sexs Hlen.
  assert (Sq : shape e_xs = shape e_x) by (rewrite Sex, Sexs; reflexivity).
  pose proof (elementwise_quotient_data W self e_x e_xs Hex Hexs Sq) as Eq.
  rewrite Sex in Eq.
  set (q := mk_array (N :: rest)
              (map2 (fun x xs => ((x - xs) / (x + float_of_bool (x =? 0) * eps_min self))%float)
                 (data e_x) (data e_xs))) in Eq.
  destruct (norm_function_rows W self q N rest eq_refl Hlen)
    as (norm_f & n & Ef & En & Sn & Wn & Hn).
  pose proof (denominator_rows W self h_x h_xs N C Hhx Hhxs Shx Shxs) as Ed.
  set (d := mk_array [N]
              (map (guard (eps_min self))
                 (map norm2 (chunks C N (map2 PrimFloat.sub (data h_x) (data h_xs)))))) in Ed.
  assert (Wd : wf d).
  { unfold wf, d. cbn [data shape]. rewrite !length_map, chunks_length, size_of_one.
    reflexivity. }
  assert (Sd : shape d = shape n) by (rewrite Sn; reflexivity).
  assert (Ln : length (data n) = N) by (unfold wf in Wn; rewrite Wn, Sn; apply size_of_one).
  assert (Ld : length (data d) = N) by (unfold wf in Wd; rewrite Wd; apply size_of_one).
  exists (mk_array (shape n) (map2 PrimFloat.div (data n) (data d))).
  split.
  { unfold relative_output_stability_objective. cbv zeta. unfold ndim. rewrite Sex.
    cbn [length]. rewrite Ef. cbn [res_bind]. rewrite Eq. cbn [res_bind].
    rewrite En. cbn [res_bind]. rewrite Ed. cbn [res_bind]. rewrite Hml.
    apply (ufunc2_same_shape PrimFloat.div n d Sd Wn Wd). }
  split; [exact Sn|].
  split.
  { unfold wf. cbn [data shape]. rewrite map2_length, Ln, Ld, Nat.min_id, Sn.
    symmetry. apply size_of_one. }
  intros i Hi. cbn [data].
  rewrite (nth_map2 _ _ _ PrimFloat.div (data n) (data d) i 0%float 0%float 0%float)
    by lia.
  rewrite (Hn i Hi). unfold sample_objective.
  rewrite (row_chunks float h_x N [C] i Shx), (row_chunks float h_xs N [C] i Shxs),
    (row_chunks float e_x N rest i Sex), (row_chunks float e_xs N rest i Sexs).
  rewrite size_of_one. f_equal.
  - f_equal. unfold q. cbn [data]. rewrite chunks_map2.
    apply (nth_map2 _ _ _ (map2 (fun x xs => ((x - xs) / guard (eps_min self) x)%float))
             _ _ i [] [] []); rewrite chunks_length; exact Hi.
  - unfold d. cbn [data].
    rewrite (nth_map_lt _ _ (guard (eps_min self)) _ i 0%float 0%float)
      by (rewrite length_map, chunks_length; exact Hi).
    f_equal.
    rewrite (nth_map_lt _ _ norm2 _ i 0%float [])
      by (rewrite chunks_length; exact Hi).
    f_equal. rewrite chunks_map2.
    apply (nth_map2 _ _ _ (map2 PrimFloat.sub) _ _ i [] [] []);
      rewrite chunks_length; exact Hi.
Qed.

Lemma objective_per_sample_witness :
  exists r,
    relative_output_stability_objective Ex.plain Ex.h_x2 Ex.h_xs2 Ex.e_x2 Ex.e_xs2 = Ok r /\
    shape r = [2] /\ wf r /\
    forall i, i < 2 ->
      nth i (data r) 0%float
      = sample_objective (eps_min Ex.plain) [2]
          (row Ex.h_x2 i) (row Ex.h_xs2 i) (row Ex.e_x2 i) (row Ex.e_xs2 i).
Proof.
  apply (objective_per_sample nat Ex.plain Ex.h_x2 Ex.h_xs2 Ex.e_x2 Ex.e_xs2 2 1 [2]);
    try reflexivity.
  cbn [length]. lia.
Defined.

(** ** Errors and edge cases of [evaluate_batch] *)


(** Up to the loop: the batch size is read, the model is called on
    [x_batch], and [ros_batch] is allocated. *)
Lemma draw_matrix_start (W : Type) (self : metric W) (m : model W)
    (x_batch : ndarray) (y_batch : labels) (a_batch : ndarray) (st : state W)
    (N : nat) (xs : list nat) :
  shape x_batch = N :: xs ->
  (multi_label self = true -> 2 <= ndim a_batch) ->
  exists n rest,
    draw_matrix self m x_batch y_batch a_batch st
    = sampling_loop self m (fst (predict m x_batch (world st))) x_batch y_batch a_batch
        (seq 0 (nr_samples self)) (zeros (nr_samples self :: n :: rest))
        (mk_state (snd (predict m x_batch (world st)))
           (trace st ++ [EvPredict x_batch (fst (predict m x_batch (world st)))])).
Proof.
  intros Hs Hm. unfold draw_matrix, bind, lift, ret, call_predict, shape_at.
  rewrite Hs. cbn [nth_error].
  destruct (predict m x_batch (world st)) as [logits w1]. cbn [fst snd].
  destruct (multi_label self).
  - specialize (Hm eq_refl). unfold ndim in Hm.
    destruct (shape a_batch) as [|n [|l r]]; cbn [length] in Hm; try lia.
    cbn [nth_error res_bind]. exists n, [l]. reflexivity.
  - exists N, []. reflexivity.
Qed.




(** X8 -- With [nr_samples = 0], on a non-empty batch, the loop does not
    run and [evaluate_batch] raises the ValueError of [np.max] on an array
    with no row (zero-size array to reduction operation maximum which has no
    identity): the model has been called once, on [x_batch], and no score is
    returned. *)
Theorem evaluate_batch_without_draws
    (W : Type) (self : metric W) (m : model W)
    (x_batch : ndarray) (y_batch : labels) (a_batch : ndarray) (st : state W)
    (N : nat) (xs : list nat) :
  nr_samples self = 0 -> shape x_batch = S N :: xs ->
  (multi_label self = true -> 2 <= ndim a_batch) ->
  evaluate_batch self m x_batch y_batch a_batch st
  = (Raise ZeroSizeReduction,
     mk_state (snd (predict m x_batch (world st)))
       (trace st ++ [EvPredict x_batch (fst (predict m x_batch (world st)))])).
Proof.
  intros Hnr Hs Hm.
  destruct (draw_matrix_start W self m x_batch y_batch a_batch st (S N) xs Hs Hm)
    as (n & rest & Hd).
  unfold evaluate_batch, bind. rewrite Hd, Hnr. reflexivity.
Qed.

Lemma evaluate_batch_without_draws_witness :
  evaluate_batch Ex2.no_draws Ex.stub_model Ex.x_batch Ex.y_single Ex.a_batch Ex.s0
  = (Raise ZeroSizeReduction,
     mk_state (snd (predict Ex.stub_model Ex.x_batch (world Ex.s0)))
       (trace Ex.s0
          ++ [EvPredict Ex.x_batch (fst (predict Ex.stub_model Ex.x_batch (world Ex.s0)))])).
Proof.
  apply (evaluate_batch_without_draws nat Ex2.no_draws Ex.stub_model Ex.x_batch Ex.y_single
           Ex.a_batch Ex.s0 1 [4]).
  - reflexivity.
  - reflexivity.
  - cbn. intros E. discriminate E.
Defined.

(** X9 -- On a batch of no input, with at least one draw, [evaluate_batch]
    raises the IndexError of [x_batch[0]] when it builds the indices of the
    first perturbation: the model has been called once, on the empty batch,
    and neither the perturbation nor the explanation function is called. *)
Theorem evaluate_batch_empty_batch
    (W : Type) (self : metric W) (m : model W)
    (x_batch : ndarray) (y_batch : labels) (a_batch : ndarray) (st : state W)
    (xs : list nat) :
  shape x_batch = 0 :: xs -> 1 <= nr_samples self ->
  (multi_label self = true -> 2 <= ndim a_batch) ->
  evaluate_batch self m x_batch y_batch a_batch st
  = (Raise (IndexError "index 0 is out of bounds for axis 0 with size 0"),
     mk_state (snd (predict m x_batch (world st)))
       (trace st ++ [EvPredict x_batch (fst (predict m x_batch (world st)))])).
Proof.
  intros Hs Hnr Hm.
  destruct (draw_matrix_start W self m x_batch y_batch a_batch st 0 xs Hs Hm)
    as (n & rest & Hd).
  unfold evaluate_batch, bind. rewrite Hd.
  destruct (nr_samples self) as [|k]; [lia|]. cbn [seq sampling_loop].
  unfold bind, sampling_draw, bind, lift, first_item_shape. rewrite Hs. reflexivity.
Qed.

Lemma evaluate_batch_empty_batch_witness :
  evaluate_batch Ex.plain Ex.stub_model Ex2.empty_batch Ex.y_single Ex2.empty_batch Ex.s0
  = (Raise (IndexError "index 0 is out of bounds for axis 0 with size 0"),
     mk_state (snd (predict Ex.stub_model Ex2.empty_batch (world Ex.s0)))
       (trace Ex.s0
          ++ [EvPredict Ex2.empty_batch
                (fst (predict Ex.stub_model Ex2.empty_batch (world Ex.s0)))])).
Proof.
  apply (evaluate_batch_empty_batch nat Ex.plain Ex.stub_model Ex2.empty_batch Ex.y_single
           Ex2.empty_batch Ex.s0 [4]).
  - reflexivity.
  - cbn. lia.
  - cbn. intros E. discriminate E.
Defined.

(** ** A detector that reports an index that is no sample *)

Lemma forallb_Exists_false (A : Type) (f : A -> bool) (l : list A) :
  Exists (fun x => f x = false) l -> forallb f l = false.
Proof.
  intros H. induction H as [x l Hx | x l _ IH]; cbn [forallb].
  - rewrite Hx. reflexivity.
  - rewrite IH. apply andb_false_r.
Qed.

(** X10 -- When, in a draw whose objective was computed and stored, the
    prediction-change detector reports an index that is not below the number
    of columns of [ros_batch], the assignment of NaN raises an IndexError:
    the draw and the whole loop stop there, after the four calls of the
    draw, and the remaining draws are not made. *)
Theorem detector_index_out_of_range
    (W : Type) (self : metric W) (m : model W)
    (logits x_batch : ndarray) (y_batch : labels) (a_batch : ndarray)
    (ros_batch ros_stored ros : ndarray) (index : nat) (d : draw) (st st' : state W)
    (s : list nat) (n samples : nat) (rest : list nat) (remaining : list nat) :
  first_item_shape x_batch = Ok s ->
  run_collaborators self m x_batch y_batch st = (d, st') ->
  relative_output_stability_objective self logits (d_h d) a_batch (d_a d) = Ok ros ->
  setitem_row ros_batch index ros = Ok ros_stored ->
  shape ros_batch = n :: samples :: rest ->
  Exists (fun j => samples <= j) (d_changed d) ->
  sampling_loop self m logits x_batch y_batch a_batch (index :: remaining) ros_batch st
  = (Raise (IndexError "index is out of bounds for axis 1"), st').
Proof.
  intros Hf Hrun Hobj Hrow Hs Hex.
  cbn [sampling_loop]. unfold bind.
  rewrite (sampling_draw_store W self m logits x_batch y_batch a_batch ros_batch index
             st st' d s Hf Hrun)
    by (rewrite Hobj; cbn [res_bind]; rewrite Hrow; reflexivity).
  unfold store_draw. rewrite Hobj. cbn [res_bind]. rewrite Hrow. cbn [res_bind].
  destruct (setitem_row_frame ros_batch ros ros_stored index n (samples :: rest) Hrow Hs)
    as (Hs1 & _ & Hi & _).
  assert (Hne : negb (length (d_changed d) =? 0) = true).
  { destruct Hex; reflexivity. }
  rewrite Hne. unfold setitem_cells. rewrite Hs1, Hs.
  destruct (Nat.ltb_spec index n) as [_|]; [|lia].
  rewrite forallb_Exists_false; [reflexivity|].
  eapply Exists_impl; [|exact Hex]. intros j Hj. apply Nat.ltb_ge. exact Hj.
Qed.

Lemma detector_index_out_of_range_witness :
  sampling_loop Ex2.stray Ex.stub_model Ex.logits Ex.x_batch Ex.y_single Ex.a_batch
    [0; 1; 2] Ex.ros_batch0 Ex.s0
  = (Raise (IndexError "index is out of bounds for axis 1"),
     snd (run_collaborators Ex2.stray Ex.stub_model Ex.x_batch Ex.y_single Ex.s0)).
Proof.
  apply (detector_index_out_of_range nat Ex2.stray Ex.stub_model Ex.logits Ex.x_batch
           Ex.y_single Ex.a_batch Ex.ros_batch0
           (Ex.returned (zeros [])
              (setitem_row Ex.ros_batch0 0
                 (Ex.returned (zeros [])
                    (relative_output_stability_objective Ex2.stray Ex.logits
                       (d_h (fst (run_collaborators Ex2.stray Ex.stub_model Ex.x_batch
                                    Ex.y_single Ex.s0)))
                       Ex.a_batch
                       (d_a (fst (run_collaborators Ex2.stray Ex.stub_model Ex.x_batch
                                    Ex.y_single Ex.s0)))))))
           (Ex.returned (zeros [])
              (relative_output_stability_objective Ex2.stray Ex.logits
                 (d_h (fst (run_collaborators Ex2.stray Ex.stub_model Ex.x_batch
                              Ex.y_single Ex.s0)))
                 Ex.a_batch
                 (d_a (fst (run_collaborators Ex2.stray Ex.stub_model Ex.x_batch
                              Ex.y_single Ex.s0)))))
           0
           (fst (run_collaborators Ex2.stray Ex.stub_model Ex.x_batch Ex.y_single Ex.s0))
           Ex.s0
           (snd (run_collaborators Ex2.stray Ex.stub_model Ex.x_batch Ex.y_single Ex.s0))
           [4] 3 2 [] [1; 2]).
  - reflexivity.
  - reflexivity.
  - vm_compute. reflexivity.
  - vm_compute. reflexivity.
  - reflexivity.
  - vm_compute. constructor. lia.
Defined.

(** ** Bounds of the multi-label reshape *)

Lemma getitem2_ok (arr : ndarray) (i j n L : nat) :
  shape arr = [n; L] -> (is_ok (getitem2 arr i j) = true <-> i < n /\ j < L).
Proof.
  intros Hs. unfold getitem2. rewrite Hs.
  destruct (Nat.ltb_spec i n); destruct (Nat.ltb_spec j L); cbn [is_ok];
    split; try discriminate; try lia; auto.
Qed.

Lemma Raise_inj (A : Type) (e e' : exn) : @Raise A e = @Raise A e' -> e = e'.
Proof.
  intros H.
  apply (f_equal (fun c => match c with Raise x => x | Ok _ => e end)) in H. exact H.
Qed.

Lemma getitem2_error (arr : ndarray) (i j : nat) (e : exn) :
  getitem2 arr i j = Raise e -> exists msg, e = IndexError msg.
Proof.
  unfold getitem2.
  destruct (shape arr) as [|n [|L [|x r]]];
    try (intros H; apply Raise_inj in H; eexists; symmetry; exact H).
  destruct (i <? n); [destruct (j <? L)|]; intros H.
  - exfalso. apply (f_equal is_ok) in H. discriminate H.
  - apply Raise_inj in H. eexists. symmetry. exact H.
  - apply Raise_inj in H. eexists. symmetry. exact H.
Qed.

Lemma select_labels_ok (result : ndarray) (index n L : nat) (label_list : list nat) :
  shape result = [n; L] ->
  (is_ok (select_labels result index label_list) = true
   <-> forall label, In label label_list -> index < n /\ label < L).
Proof.
  intros Hs. induction label_list as [|label0 rest IH]; cbn [select_labels].
  - split; [intros _ label []| reflexivity].
  - pose proof (getitem2_ok result index label0 n L Hs) as Hg.
    destruct (getitem2 result index label0) as [v|e]; cbn [res_bind is_ok] in *.
    + destruct (select_labels result index rest) as [tmp|e]; cbn [res_bind is_ok] in *.
      * split; [|reflexivity]. intros _ label [<-|Hin].
        -- apply Hg. reflexivity.
        -- apply IH; [reflexivity | exact Hin].
      * split; [discriminate|]. intros H. apply IH. intros label Hin.
        apply H. right. exact Hin.
    + split; [discriminate|]. intros H. apply Hg. apply H. left. reflexivity.
Qed.

Lemma select_labels_error (result : ndarray) (index : nat) (label_list : list nat)
    (e : exn) :
  select_labels result index label_list = Raise e -> exists msg, e = IndexError msg.
Proof.
  induction label_list as [|label0 rest IH]; cbn [select_labels]; [discriminate|].
  destruct (getitem2 result index label0) as [v|e0] eqn:Eg; cbn [res_bind].
  - destruct (select_labels result index rest) as [tmp|e1]; cbn [res_bind];
      [discriminate|].
    intros H. apply Raise_inj in H. subst e1. apply IH. reflexivity.
  - intros H. apply Raise_inj in H. subst e0.
    apply (getitem2_error result index label0 e Eg).
Qed.

Lemma select_rows_ok (result : ndarray) (n L : nat) (ys : list (list nat)) :
  shape result = [n; L] ->
  forall start,
  (is_ok (select_rows result start ys) = true
   <-> forall i label_list label,
         nth_error ys i = Some label_list -> In label label_list ->
         start + i < n /\ label < L).
Proof.
  intros Hs. induction ys as [|labs rest IH]; intros start; cbn [select_rows].
  - split; [|reflexivity]. intros _ [|i] label_list label Hi; discriminate Hi.
  - pose proof (select_labels_ok result start n L labs Hs) as Hl.
    specialize (IH (S start)).
    destruct (select_labels result start labs) as [tmp|e]; cbn [res_bind is_ok] in *.
    + destruct (select_rows result (S start) rest) as [rl|e]; cbn [res_bind is_ok] in *.
      * split; [|reflexivity]. intros _ [|i] label_list label Hi Hin; cbn [nth_error] in Hi.
        -- apply (f_equal (fun o => match o with Some x => x | None => label_list end)) in Hi.
           subst labs. rewrite Nat.add_0_r. apply Hl; [reflexivity | exact Hin].
        -- replace (start + S i) with (S start + i) by lia.
           apply (proj1 IH eq_refl i label_list label Hi Hin).
      * split; [discriminate|]. intros H. apply IH. intros i label_list label Hi Hin.
        replace (S start + i) with (start + S i) by lia.
        apply (H (S i) label_list label Hi Hin).
    + split; [discriminate|]. intros H. apply Hl. intros label Hin.
      rewrite <- (Nat.add_0_r start). apply (H 0 labs label eq_refl Hin).
Qed.

Lemma select_rows_error (result : ndarray) (ys : list (list nat)) (e : exn) :
  forall start, select_rows result start ys = Raise e -> exists msg, e = IndexError msg.
Proof.
  induction ys as [|labs rest IH]; intros start; cbn [select_rows]; [discriminate|].
  destruct (select_labels result start labs) as [tmp|e0] eqn:El; cbn [res_bind].
  - destruct (select_rows result (S start) rest) as [rl|e1] eqn:Er; cbn [res_bind];
      [discriminate|].
    intros H. apply Raise_inj in H. subst e1. apply (IH (S start) Er).
  - intros H. apply Raise_inj in H. subst e0.
    apply (select_labels_error result start labs e El).
Qed.

(** X11 -- On a reduced result of shape (n, L), the multi-label reshape
    returns exactly when every label of [y_batch] is below [L] and every
    sample that has a label is below [n]; otherwise it raises an IndexError.
    A sample with an empty label list is never looked up. *)
Theorem multi_label_reshape_bounds
    (result : ndarray) (n L : nat) (ys : list (list nat)) :
  shape result = [n; L] ->
  (is_ok (multi_label_reshape result (MultiLabels ys)) = true
   <-> forall i label_list label,
         nth_error ys i = Some label_list -> In label label_list -> i < n /\ label < L)
  /\
  (forall e, multi_label_reshape result (MultiLabels ys) = Raise e ->
             exists msg, e = IndexError msg).
Proof.
  intros Hs. cbn [multi_label_reshape]. split.
  - apply (select_rows_ok result n L ys Hs 0).
  - intros e. apply select_rows_error.
Qed.

Lemma multi_label_reshape_bounds_witness :
  (is_ok (multi_label_reshape Ex2.result23 (MultiLabels [[0; 1]; [2]; []])) = true
   <-> forall i label_list label,
         nth_error [[0; 1]; [2]; []] i = Some label_list -> In label label_list ->
         i < 2 /\ label < 3)
  /\
  (forall e, multi_label_reshape Ex2.result23 (MultiLabels [[0; 1]; [2]; []]) = Raise e ->
             exists msg, e = IndexError msg).
Proof.
  apply (multi_label_reshape_bounds Ex2.result23 2 3 [[0; 1]; [2]; []]). reflexivity.
Defined.

(** ** The scores [evaluate_batch] returns *)

Lemma existsb_ext (A : Type) (f g : A -> bool) (l : list A) :
  (forall x, f x = g x) -> existsb f l = existsb g l.
Proof.
  intros H. induction l as [|x l IH]; cbn [existsb]; [reflexivity|].
  rewrite (H x), IH. reflexivity.
Qed.

(** In a matrix, the cell that [ros_batch[index, i] = nan] writes. *)
Lemma cell_test (index N p i : nat) :
  (index * (N * 1) + i * 1 <=? index * N + p)
  && (index * N + p <? index * (N * 1) + i * 1 + 1) = (p =? i).
Proof.
  rewrite !Nat.mul_1_r.
  destruct (Nat.eqb_spec p i) as [->|Hne].
  - rewrite Nat.leb_refl. cbn [andb]. apply Nat.ltb_lt. lia.
  - destruct (Nat.leb_spec (index * N + i) (index * N + p)); cbn [andb]; [|reflexivity].
    apply Nat.ltb_ge. lia.
Qed.

Lemma matrix_cell_bound (n N index p : nat) : index < n -> p < N -> index * N + p < n * N.
Proof. intros Hi Hp. assert (index * N + N <= n * N) by nia. lia. Qed.

(** What one draw leaves in its row of the matrix. *)
Lemma store_draw_cells (W : Type) (self : metric W) (logits a_batch rb rb' : ndarray)
    (index : nat) (d : draw) (n N : nat) :
  store_draw self logits a_batch rb index d = Ok rb' ->
  shape rb = [n; N] -> wf rb ->
  forall p, p < N ->
    nth (index * N + p) (data rb') 0%float = draw_score self logits a_batch N p d.
Proof.
  intros H Hs Hwf p Hp. unfold store_draw in H. unfold draw_score.
  destruct (relative_output_stability_objective self logits (d_h d) a_batch (d_a d))
    as [ros|e]; cbn [res_bind] in H; [|discriminate H].
  destruct (setitem_row rb index ros) as [rb1|e] eqn:Er; cbn [res_bind] in H;
    [|discriminate H].
  assert (Hlen : length (data rb) = n * N).
  { unfold wf in Hwf. rewrite Hwf, Hs. apply size_of_two. }
  assert (Hrow : index < n /\ shape rb1 = [n; N] /\ length (data rb1) = n * N /\
                 exists src, assign_broadcast ros [N] = Some src /\
                             nth (index * N + p) (data rb1) 0%float = nth p src 0%float).
  { unfold setitem_row in Er. rewrite Hs in Er.
    destruct (Nat.ltb_spec index n) as [Hi|]; [|discriminate Er].
    destruct (assign_broadcast ros [N]) as [src|]; [|discriminate Er].
    apply Ok_inj in Er. subst rb1. cbn [shape data].
    split; [exact Hi|]. split; [reflexivity|].
    split; [rewrite write_range_length; exact Hlen|].
    exists src. split; [reflexivity|].
    rewrite nth_write_range
      by (rewrite Hlen; apply matrix_cell_bound; assumption).
    rewrite size_of_one.
    replace (index * N <=? index * N + p) with true by (symmetry; apply Nat.leb_le; lia).
    replace (index * N + p <? index * N + N) with true
      by (symmetry; apply Nat.ltb_lt; lia).
    cbn [andb]. replace (index * N + p - index * N) with p by lia. reflexivity. }
  destruct Hrow as (Hi & Hs1 & Hl1 & src & Ea & Hcell). rewrite Ea.
  destruct (negb (length (d_changed d) =? 0)) eqn:Hne.
  - destruct (setitem_cells_spec rb1 rb' index (d_changed d) nan n N [] H Hs1)
      as (_ & _ & _ & _ & Hc).
    rewrite Hc by (rewrite Hl1; apply matrix_cell_bound; assumption).
    change (size_of []) with 1.
    match goal with
    | |- context [existsb ?f (d_changed d)] =>
        match f with
        | Nat.eqb p => fail 1
        | _ => rewrite (existsb_ext nat f (Nat.eqb p) (d_changed d))
                 by (intros i; apply cell_test)
        end
    end.
    destruct (existsb (Nat.eqb p) (d_changed d)); [reflexivity | exact Hcell].
  - apply Ok_inj in H. subst rb'.
    destruct (d_changed d); [|discriminate Hne]. cbn [existsb]. exact Hcell.
Qed.

(** What the draws leave in the matrix: row [i] is the row of draw [i]. *)
Lemma store_draws_cells (W : Type) (self : metric W) (logits a_batch : ndarray)
    (n N : nat) (indices : list nat) :
  forall (ds : list draw) (rb rb' : ndarray),
  store_draws self logits a_batch indices ds rb = Ok rb' ->
  shape rb = [n; N] -> wf rb -> NoDup indices ->
  forall q i d, nth_error indices q = Some i -> nth_error ds q = Some d ->
  forall p, p < N ->
    nth (i * N + p) (data rb') 0%float = draw_score self logits a_batch N p d.
Proof.
  induction indices as [|index rest IH]; intros ds rb rb' H Hs Hwf Hnd q i d Hi Hd p Hp.
  - destruct q; discriminate Hi.
  - destruct ds as [|d0 ds]; [destruct q; discriminate Hd|].
    cbn [store_draws] in H.
    destruct (store_draw self logits a_batch rb index d0) as [rb1|e] eqn:E1;
      cbn [res_bind] in H; [|discriminate H].
    destruct (store_draw_spec W self logits a_batch n N [] rb rb1 index d0 E1 Hs Hwf)
      as (Hs1 & Hwf1 & Hidx & _).
    assert (Hs1' : shape rb1 = [n; N]) by congruence.
    inversion Hnd as [|? ? Hnotin Hnd']; subst.
    destruct q as [|q]; cbn [nth_error] in Hi, Hd.
    + apply (f_equal (fun o => match o with Some x => x | None => i end)) in Hi.
      apply (f_equal (fun o => match o with Some x => x | None => d end)) in Hd.
      subst i d.
      destruct (store_draws_frame W self logits a_batch n N [] rest ds rb1 rb' index
                  H Hs1' Hwf1 Hnotin) as (_ & _ & Hfr).
      rewrite Hfr.
      * apply (store_draw_cells W self logits a_batch rb rb1 index d0 n N E1 Hs Hwf p Hp).
      * change (size_of []) with 1. rewrite !Nat.mul_1_r. lia.
    + apply (IH ds rb1 rb' H Hs1' Hwf1 Hnd' q i d Hi Hd p Hp).
Qed.

Lemma map_seq_nth (A B : Type) (g : A -> B) (f : nat -> B) (d : A) (l : list A) :
  forall start,
  (forall k, k < length l -> f (start + k) = g (nth k l d)) ->
  map f (seq start (length l)) = map g l.
Proof.
  induction l as [|x l IH]; intros start H; [reflexivity|].
  cbn [length seq map]. f_equal.
  - rewrite <- (Nat.add_0_r start). apply (H 0). cbn [length]. lia.
  - apply IH. intros k Hk. replace (S start + k) with (start + S k) by lia.
    apply (H (S k)). cbn [length]. lia.
Qed.

(** X6 -- In single-label mode without aggregation, whenever
    [evaluate_batch] returns, it returns an array with one score per input of
    the batch, and the score of input [j] is the running maximum
    ([np.max] over the draws, in their order) of its scores in the draws
    recorded on the trace: NaN in a draw where the detector reported [j],
    else entry [j] of the objective of that draw, computed from the logits of
    the unperturbed batch and from [a_batch]. *)
Theorem evaluate_batch_scores
    (W : Type) (self : metric W) (m : model W)
    (x_batch : ndarray) (y_batch : labels) (a_batch : ndarray)
    (st st' : state W) (s : scores) :
  multi_label self = false -> return_aggregate self = false ->
  evaluate_batch self m x_batch y_batch a_batch st = (Ok s, st') ->
  exists logits w1 d0 ds result N,
    predict m x_batch (world st) = (logits, w1) /\
    trace st' = trace st ++ EvPredict x_batch logits
                  :: flat_map (draw_events x_batch y_batch) (d0 :: ds) /\
    length (d0 :: ds) = nr_samples self /\
    s = ScArray result /\ shape result = [N] /\ shape_at x_batch 0 = Ok N /\
    forall j, j < N ->
      nth j (data result) 0%float
      = fold_left maximum (map (draw_score self logits a_batch N j) ds)
          (draw_score self logits a_batch N j d0).
Proof.
  intros Hml Hag H.
  destruct (evaluate_batch_run W self m x_batch y_batch a_batch s st st' H)
    as (rb & result & r0 & Hdm & Hmax & Hr0 & Hs).
  rewrite Hml in Hr0. rewrite Hag in Hs. apply Ok_inj in Hr0. subst r0 s.
  destruct (draw_matrix_run W self m x_batch y_batch a_batch rb st st' Hdm)
    as (logits & w1 & ds & n & rest & Hp & Htr & Hlen & Hms & Hst & Hsh & Hwf).
  unfold matrix_shape in Hms. rewrite Hml in Hms. destruct Hms as [Hn ->].
  pose proof (max_axis0_spec rb result (nr_samples self) [n] Hmax Hsh Hwf) as Hm.
  cbv zeta in Hm. rewrite size_of_one in Hm. destruct Hm as (Hnr & Hsr & _ & Hcol).
  destruct ds as [|d0 ds]; [cbn [length] in Hlen; lia|].
  exists logits, w1, d0, ds, result, n.
  split; [exact Hp|]. split; [exact Htr|]. split; [exact Hlen|].
  split; [reflexivity|]. split; [exact Hsr|]. split; [exact Hn|].
  intros j Hj. rewrite (Hcol j Hj).
  pose proof (store_draws_cells W self logits a_batch (nr_samples self) n
                (seq 0 (nr_samples self)) (d0 :: ds) (zeros [nr_samples self; n]) rb
                Hst eq_refl (zeros_wf _) (seq_NoDup _ _)) as Hcells.
  assert (Hl : nr_samples self - 1 = length ds) by (cbn [length] in Hlen; lia).
  rewrite Hl. f_equal.
  - apply (map_seq_nth draw float (draw_score self logits a_batch n j)
             (fun i => nth (i * n + j) (data rb) 0%float) d0 ds 1).
    intros k Hk.
    apply (Hcells (1 + k) (1 + k) (nth k ds d0)).
    + rewrite (nth_error_nth' (seq 0 (nr_samples self)) 0)
        by (rewrite length_seq; lia).
      rewrite seq_nth by lia. reflexivity.
    + cbn [Nat.add nth_error]. apply nth_error_nth'. exact Hk.
    + exact Hj.
  - change (nth j (data rb) 0%float) with (nth (0 * n + j) (data rb) 0%float).
    apply (Hcells 0 0 d0).
    + destruct (nr_samples self); [lia | reflexivity].
    + reflexivity.
    + exact Hj.
Qed.

Lemma evaluate_batch_scores_witness :
  exists logits w1 d0 ds result N,
    predict Ex.stub_model Ex.x_batch (world Ex.s0) = (logits, w1) /\
    trace (snd (evaluate_batch Ex.flipping Ex.stub_model Ex.x_batch Ex.y_single
                  Ex.a_batch Ex.s0))
      = trace Ex.s0 ++ EvPredict Ex.x_batch logits
          :: flat_map (draw_events Ex.x_batch Ex.y_single) (d0 :: ds) /\
    length (d0 :: ds) = nr_samples Ex.flipping /\
    Ex.returned (ScList [])
      (fst (evaluate_batch Ex.flipping Ex.stub_model Ex.x_batch Ex.y_single
              Ex.a_batch Ex.s0)) = ScArray result /\
    shape result = [N] /\ shape_at Ex.x_batch 0 = Ok N /\
    forall j, j < N ->
      nth j (data result) 0%float
      = fold_left maximum (map (draw_score Ex.flipping logits Ex.a_batch N j) ds)
          (draw_score Ex.flipping logits Ex.a_batch N j d0).
Proof.
  apply (evaluate_batch_scores nat Ex.flipping Ex.stub_model Ex.x_batch Ex.y_single
           Ex.a_batch Ex.s0).
  - reflexivity.
  - reflexivity.
  - vm_compute. reflexivity.
Defined.

(** ** Runs that return in multi-label mode *)

Lemma assign_broadcast_matrix (v : ndarray) (N L : nat) :
  shape v = [N; L] -> exists src, assign_broadcast v [N; L] = Some src.
Proof.
  intros Hv. unfold assign_broadcast. rewrite Hv.
  cbn [length Nat.sub strip_ones Nat.leb pad_shape repeat app fits_dims andb].
  rewrite !Nat.eqb_refl. cbn [orb andb]. eexists. reflexivity.
Qed.

Section MultiReturns.
Variable W : Type.
Variables (self : metric W) (m : model W).
Variables (x_batch : ndarray) (ys : list (list nat)) (a_batch : ndarray).
Variables (N L C Ht Wd K : nat) (xs : list nat).

(** Multi-label mode, a batch of [N >= 1] inputs, explanations of shape
    [(N, L, C, H, W)] with the label axis second, collaborators that keep
    their interface, and labels of [y_batch] that are labels of the
    explanation. *)
Hypothesis multi : multi_label self = true.
Hypothesis batch_shape : shape x_batch = S N :: xs.
Hypothesis explanation_shape : shape a_batch = [S N; L; C; Ht; Wd].
Hypothesis perturb_shape :
  forall w, shape (fst (perturb_batch self x_batch w)) = shape x_batch.
Hypothesis predict_shape :
  forall x w, shape x = shape x_batch -> shape (fst (predict m x w)) = [S N; K].
Hypothesis explain_shape :
  forall x w, shape x = shape x_batch ->
    shape (fst (explain_batch self m x (MultiLabels ys) w)) = shape a_batch.
Hypothesis changed_in_range :
  forall x xp w,
    Forall (fun j => j < S N) (fst (changed_prediction_indices_func self m x xp w)).
Hypothesis labels_in_range :
  forall i label_list label,
    nth_error ys i = Some label_list -> In label label_list -> i < S N /\ label < L.

Lemma run_collaborators_interface_multi (st st' : state W) (d : draw) :
  run_collaborators self m x_batch (MultiLabels ys) st = (d, st') ->
  shape (d_h d) = [S N; K] /\ shape (d_a d) = shape a_batch /\
  Forall (fun j => j < S N) (d_changed d).
Proof.
  unfold run_collaborators.
  pose proof (perturb_shape (world st)) as Hx.
  destruct (perturb_batch self x_batch (world st)) as [xp w1]. cbn [fst] in Hx.
  pose proof (explain_shape xp w1 Hx) as He.
  destruct (explain_batch self m xp (MultiLabels ys) w1) as [ap w2].
  pose proof (predict_shape xp w2 Hx) as Hp.
  destruct (predict m xp w2) as [hp w3].
  pose proof (changed_in_range x_batch xp w3) as Hc.
  destruct (changed_prediction_indices_func self m x_batch xp w3) as [c w4].
  intros E. apply (f_equal fst) in E. cbn [fst] in E. subst d.
  cbn [fst d_h d_a d_changed] in *. auto.
Qed.

Lemma sampling_draw_returns_multi (nr : nat) (logits ros_batch : ndarray) (index : nat)
    (st : state W) :
  shape logits = [S N; K] -> shape ros_batch = [nr; S N; L] -> wf ros_batch ->
  index < nr ->
  exists ros_batch' st',
    sampling_draw self m logits x_batch (MultiLabels ys) a_batch ros_batch index st
      = (Ok ros_batch', st') /\
    shape ros_batch' = [nr; S N; L] /\ wf ros_batch'.
Proof.
  intros Hl Hs Hwf Hi.
  destruct (run_collaborators self m x_batch (MultiLabels ys) st) as [d st'] eqn:Hrun.
  destruct (run_collaborators_interface_multi st st' d Hrun) as (Hh & Ha & Hc).
  rewrite explanation_shape in Ha.
  destruct (objective_keeps_label_axis W self logits (d_h d) a_batch (d_a d)
              (S N) L C Ht Wd K multi explanation_shape Ha Hl Hh) as (ros & Hobj & Hros).
  destruct (assign_broadcast_matrix ros (S N) L Hros) as (src & Hsrc).
  assert (Hrow : exists rb1, setitem_row ros_batch index ros = Ok rb1).
  { unfold setitem_row. rewrite Hs.
    destruct (Nat.ltb_spec index nr) as [_|]; [|lia].
    rewrite Hsrc. eexists. reflexivity. }
  destruct Hrow as (rb1 & Hrow).
  destruct (setitem_row_frame _ _ _ _ _ _ Hrow Hs) as (Hs1 & _ & _ & _).
  assert (Hs1' : shape rb1 = nr :: S N :: [L]) by congruence.
  assert (Hstore : exists rb2,
            store_draw self logits a_batch ros_batch index d = Ok rb2).
  { unfold store_draw. rewrite Hobj. cbn [res_bind]. rewrite Hrow. cbn [res_bind].
    destruct (negb (length (d_changed d) =? 0)).
    - apply (setitem_cells_ok rb1 index (d_changed d) nan nr (S N) [L] Hs1' Hi Hc).
    - exists rb1. reflexivity. }
  destruct Hstore as (rb2 & Hstore).
  destruct (store_draw_spec W self logits a_batch nr (S N) [L] ros_batch rb2 index d
              Hstore Hs Hwf) as (Hs2 & Hwf2 & _).
  exists rb2, st'. split; [|split; [congruence | exact Hwf2]].
  rewrite (sampling_draw_store W self m logits x_batch (MultiLabels ys) a_batch ros_batch
             index st st' d xs).
  - rewrite Hstore. reflexivity.
  - unfold first_item_shape. rewrite batch_shape. reflexivity.
  - exact Hrun.
  - rewrite Hobj. cbn [res_bind]. rewrite Hrow. reflexivity.
Qed.

Lemma sampling_loop_returns_multi (nr : nat) (logits : ndarray) (indices : list nat) :
  shape logits = [S N; K] -> Forall (fun i => i < nr) indices ->
  forall (ros_batch : ndarray) (st : state W),
  shape ros_batch = [nr; S N; L] -> wf ros_batch ->
  exists ros_batch' st',
    sampling_loop self m logits x_batch (MultiLabels ys) a_batch indices ros_batch st
      = (Ok ros_batch', st') /\
    shape ros_batch' = [nr; S N; L] /\ wf ros_batch'.
Proof.
  intros Hl Hall. induction Hall as [|index rest Hi _ IH]; intros rb st Hs Hwf.
  - exists rb, st. auto.
  - destruct (sampling_draw_returns_multi nr logits rb index st Hl Hs Hwf Hi)
      as (rb1 & st1 & Hd & Hs1 & Hwf1).
    destruct (IH rb1 st1 Hs1 Hwf1) as (rb2 & st2 & Hloop & Hs2 & Hwf2).
    exists rb2, st2. split; [|auto].
    cbn [sampling_loop]. unfold bind. rewrite Hd. exact Hloop.
Qed.

(** X12 -- In multi-label mode, for a non-empty batch of N inputs,
    explanations of shape (N, L, C, H, W), at least one draw, collaborators
    that keep their interface, and labels in [y_batch] that are below L (for
    at most N inputs), [evaluate_batch] returns a nested list (or its
    aggregate) with one inner list per entry of [y_batch], of the length of
    the label list of that entry, whatever the detector reports. *)
Theorem evaluate_batch_multi_label_returns (st : state W) :
  1 <= nr_samples self ->
  exists rows st',
    evaluate_batch self m x_batch (MultiLabels ys) a_batch st
      = (Ok (if return_aggregate self
             then ScList [aggregate_func self (ScNested rows)]
             else ScNested rows), st') /\
    length rows = length ys /\
    forall i label_list, nth_error ys i = Some label_list ->
      exists row, nth_error rows i = Some row /\ length row = length label_list.
Proof.
  intros Hnr. unfold evaluate_batch, draw_matrix, bind, lift, ret, call_predict, shape_at.
  rewrite batch_shape, explanation_shape. cbn [nth_error res_bind].
  pose proof (predict_shape x_batch (world st) eq_refl) as Hl.
  destruct (predict m x_batch (world st)) as [logits w1]. cbn [fst] in Hl.
  rewrite multi.
  destruct (sampling_loop_returns_multi (nr_samples self) logits
              (seq 0 (nr_samples self)) Hl)
    with (ros_batch := zeros [nr_samples self; S N; L])
         (st := {| world := w1; trace := trace st ++ [EvPredict x_batch logits] |})
    as (rb & st' & Hloop & Hs & Hwf).
  { apply Forall_forall. intros i Hi. apply in_seq in Hi. lia. }
  { reflexivity. }
  { apply zeros_wf. }
  rewrite Hloop.
  destruct (max_axis0 rb) as [result|e] eqn:Em.
  - destruct (max_axis0_spec rb result (nr_samples self) [S N; L] Em Hs Hwf)
      as (_ & Hsr & _).
    cbn [multi_label_reshape].
    pose proof (proj2 (select_rows_ok result (S N) L ys Hsr 0) labels_in_range) as Hok.
    destruct (select_rows result 0 ys) as [rows|e] eqn:Er; [|discriminate Hok].
    destruct (select_rows_spec result (S N) L ys 0 rows Er Hsr) as (Hlen & Hrows).
    exists rows, st'. cbn [res_map].
    split; [destruct (return_aggregate self); reflexivity|].
    split; [exact Hlen|].
    intros i label_list Hi. destruct (Hrows i label_list Hi) as (row & Hrow & Hrl & _).
    exists row. split; assumption.
  - exfalso. unfold max_axis0 in Em. rewrite Hs in Em.
    destruct (nr_samples self) as [|k]; [lia|]. cbn [chunks] in Em. discriminate Em.
Qed.
End MultiReturns.

(** The run of three draws on the batch of two inputs with three labels,
    sample 1 flipping in the second draw. *)
Lemma evaluate_batch_multi_label_returns_witness :
  exists rows st',
    evaluate_batch Ex.multi5 Ex.stub_model Ex.x_batch (MultiLabels [[0; 1]; [2]])
      Ex.a_batch5 Ex.s0
      = (Ok (if return_aggregate Ex.multi5
             then ScList [aggregate_func Ex.multi5 (ScNested rows)]
             else ScNested rows), st') /\
    length rows = length [[0; 1]; [2]] /\
    forall i label_list, nth_error [[0; 1]; [2]] i = Some label_list ->
      exists row, nth_error rows i = Some row /\ length row = length label_list.
Proof.
  apply (evaluate_batch_multi_label_returns nat Ex.multi5 Ex.stub_model Ex.x_batch
           [[0; 1]; [2]] Ex.a_batch5 1 3 1 1 4 2 [4]).
  - reflexivity.
  - reflexivity.
  - reflexivity.
  - intros w. reflexivity.
  - intros x w Hx. cbn. rewrite Hx. reflexivity.
  - intros x w Hx. cbn. unfold Ex.block_of. rewrite Hx. reflexivity.
  - intros x xp w. cbn. destruct (w =? 2); repeat constructor.
  - intros [|[|[|i]]] label_list label Hi Hin; cbn in Hi; try discriminate Hi.
    + apply (f_equal (fun o => match o with Some x => x | None => [] end)) in Hi.
      subst label_list. cbn in Hin. lia.
    + apply (f_equal (fun o => match o with Some x => x | None => [] end)) in Hi.
      subst label_list. cbn in Hin. lia.
  - cbn. lia.
Defined.

(** ** Explanations whose batch axes disagree *)

Lemma broadcast_dims_head_mismatch (a b : nat) (s1 s2 : list nat) :
  a <> b -> a <> 1 -> b <> 1 -> broadcast_dims (a :: s1) (b :: s2) = None.
Proof.
  intros Hab Ha Hb. cbn [broadcast_dims].
  destruct (broadcast_dims s1 s2); [|reflexivity].
  destruct (Nat.eqb_spec a b); [contradiction|].
  destruct (Nat.eqb_spec a 1); [contradiction|].
  destruct (Nat.eqb_spec b 1); [contradiction|]. reflexivity.
Qed.

Lemma broadcast_shapes_head_mismatch (a b : nat) (s1 s2 : list nat) :
  length s1 = length s2 -> a <> b -> a <> 1 -> b <> 1 ->
  broadcast_shapes (a :: s1) (b :: s2) = None.
Proof.
  intros Hlen Hab Ha Hb. unfold broadcast_shapes.
  replace (Nat.max (length (a :: s1)) (length (b :: s2))) with (length (a :: s1))
    by (cbn [length]; lia).
  rewrite pad_shape_same.
  replace (length (a :: s1)) with (length (b :: s2)) by (cbn [length]; lia).
  rewrite pad_shape_same. apply broadcast_dims_head_mismatch; assumption.
Qed.

(** X13 -- When the explanation of the perturbed batch has the rank of
    [a_batch] (2, 3 or 4) but another number of samples, neither of the two
    numbers being 1, [relative_output_stability_objective] raises the
    ValueError of NumPy broadcasting (operands could not be broadcast
    together), whatever the logits are: nothing is broadcast silently. *)
Theorem objective_batch_mismatch
    (W : Type) (self : metric W) (h_x h_xs e_x e_xs : ndarray)
    (N N' : nat) (rest rest' : list nat) :
  shape e_x = N :: rest -> shape e_xs = N' :: rest' ->
  length rest = length rest' -> 1 <= length rest <= 3 ->
  N <> N' -> N <> 1 -> N' <> 1 ->
  relative_output_stability_objective self h_x h_xs e_x e_xs = Raise BroadcastError.
Proof.
  intros Sx Sxs Hlen Hr Hne H1 H1'.
  unfold relative_output_stability_objective. cbv zeta. unfold ndim. rewrite Sx.
  assert (Hn : exists norm_f, norm_function self (length (N :: rest)) = Ok norm_f).
  { unfold norm_function.
    destruct rest as [|a [|b [|c [|x r]]]]; cbn [length] in *; try lia;
      cbn [Nat.eqb]; eexists; reflexivity. }
  destruct Hn as (norm_f & ->). cbn [res_bind].
  unfold elementwise_quotient, subtract, ufunc2. rewrite Sx, Sxs.
  rewrite (broadcast_shapes_head_mismatch N N' rest rest' Hlen Hne H1 H1').
  reflexivity.
Qed.

Lemma objective_batch_mismatch_witness :
  relative_output_stability_objective Ex.plain Ex.h_x2 Ex.h_xs2 Ex.e_x2 Ex2.e_xs3
  = Raise BroadcastError.
Proof.
  apply (objective_batch_mismatch nat Ex.plain Ex.h_x2 Ex.h_xs2 Ex.e_x2 Ex2.e_xs3
           2 3 [2] [2]); try reflexivity; cbn [length]; lia.
Defined.

(** ** The objective in multi-label mode, sample by sample and label by label *)

Lemma broadcast_one (A : Type) (L : nat) (x : A) :
  broadcast_data [1] [L] [x] = repeat x L.
Proof.
  cbn [broadcast_data]. destruct (Nat.eqb_spec 1 L) as [<-|_].
  - reflexivity.
  - induction L as [|L IH]; [reflexivity|]. cbn [repeat concat app]. rewrite IH.
    reflexivity.
Qed.

Lemma chunks_singletons (A : Type) (l : list A) :
  chunks 1 (length l) l = map (fun x => [x]) l.
Proof.
  induction l as [|x l IH]; [reflexivity|].
  cbn [length chunks firstn skipn map]. rewrite IH. reflexivity.
Qed.

(** A column of [N] values seen as a table of [N] rows and [L] columns. *)
Lemma broadcast_column_data (A : Type) (N L : nat) (l : list A) :
  length l = N ->
  broadcast_data [N; 1] [N; L] l = concat (map (fun x => repeat x L) l).
Proof.
  intros <-. cbn [broadcast_data]. rewrite Nat.eqb_refl.
  change (size_of [1]) with 1. rewrite chunks_singletons, map_map.
  f_equal. apply map_ext. intros x. apply broadcast_one.
Qed.

Lemma nth_concat_repeat (A : Type) (L : nat) (d : A) (l : list A) :
  forall i k, i < length l -> k < L ->
  nth (i * L + k) (concat (map (fun x => repeat x L) l)) d = nth i l d.
Proof.
  induction l as [|x l IH]; intros i k Hi Hk; [cbn [length] in Hi; lia|].
  cbn [map concat]. destruct i as [|i].
  - cbn [Nat.mul Nat.add nth]. rewrite app_nth1 by (rewrite repeat_length; exact Hk).
    apply nth_repeat_lt. exact Hk.
  - replace (S i * L + k) with (length (repeat x L) + (i * L + k))
      by (rewrite repeat_length; cbn [Nat.mul]; lia).
    rewrite app_nth2_plus. cbn [nth]. apply IH; [cbn [length] in Hi; lia | exact Hk].
Qed.

Lemma length_concat_repeat (A : Type) (L : nat) (l : list A) :
  length (concat (map (fun x => repeat x L) l)) = length l * L.
Proof.
  induction l as [|x l IH]; [reflexivity|].
  cbn [map concat length]. rewrite length_app, repeat_length, IH. cbn [Nat.mul].
  reflexivity.
Qed.

Lemma broadcast_shapes_column (N L : nat) : broadcast_shapes [N; L] [N; 1] = Some [N; L].
Proof.
  unfold broadcast_shapes. cbn. rewrite Nat.eqb_refl.
  destruct (Nat.eqb_spec L 1) as [->|_]; reflexivity.
Qed.

(** X14 -- In multi-label mode, for explanations of shape (N, L, C, H, W)
    and logits of shape (N, K), [relative_output_stability_objective]
    returns one value per sample and label; the value of sample [i] and
    label [l] is computed from the explanation block of that sample and
    label and from row [i] of the logits only, and all the labels of a sample
    are divided by the same guarded norm of the difference of its logits. *)
Theorem objective_per_sample_and_label
    (W : Type) (self : metric W) (h_x h_xs e_x e_xs : ndarray)
    (N L C Ht Wd K : nat) :
  multi_label self = true ->
  wf h_x -> wf h_xs -> wf e_x -> wf e_xs ->
  shape h_x = [N; K] -> shape h_xs = [N; K] ->
  shape e_x = [N; L; C; Ht; Wd] -> shape e_xs = [N; L; C; Ht; Wd] ->
  exists r,
    relative_output_stability_objective self h_x h_xs e_x e_xs = Ok r /\
    shape r = [N; L] /\
    forall i l, i < N -> l < L ->
      nth (i * L + l) (data r) 0%float
      = sample_objective (eps_min self) [C; Ht; Wd]
          (row h_x i) (row h_xs i)
          (nth (i * L + l) (chunks (size_of [C; Ht; Wd]) (N * L) (data e_x)) [])
          (nth (i * L + l) (chunks (size_of [C; Ht; Wd]) (N * L) (data e_xs)) []).
Proof.
  intros Hml Hhx Hhxs Hex Hexs Shx Shxs Sex Sexs.
  assert (Sq : shape e_xs = shape e_x) by (rewrite Sex, Sexs; reflexivity).
  pose proof (elementwise_quotient_data W self e_x e_xs Hex Hexs Sq) as Eq.
  rewrite Sex in Eq.
  set (Q := map2 (fun x xs => ((x - xs) / (x + float_of_bool (x =? 0) * eps_min self))%float)
              (data e_x) (data e_xs)) in Eq.
  pose proof (denominator_rows W self h_x h_xs N K Hhx Hhxs Shx Shxs) as Ed.
  set (D := map (guard (eps_min self))
              (map norm2 (chunks K N (map2 PrimFloat.sub (data h_x) (data h_xs))))) in Ed.
  assert (LD : length D = N).
  { unfold D. rewrite !length_map, chunks_length. reflexivity. }
  set (T := map norm2 (chunks C (N * L)
                         (map norm2 (chunks (size_of [Ht; Wd]) (N * L * C) Q)))).
  assert (LT : length T = N * L).
  { unfold T. rewrite length_map, chunks_length. reflexivity. }
  assert (En : (let? t := linalg_norm 2 (mk_array [N; L; C; Ht; Wd] Q) in
                linalg_norm 1 t)%res = Ok (mk_array [N; L] T)).
  { rewrite (linalg_norm_split 2 (mk_array [N; L; C; Ht; Wd] Q) [N; L; C] [Ht; Wd]
               eq_refl eq_refl).
    cbn [res_bind data].
    rewrite (linalg_norm_split 1
               (mk_array [N; L; C]
                  (map norm2 (chunks (size_of [Ht; Wd]) (size_of [N; L; C]) Q)))
               [N; L] [C] eq_refl eq_refl).
    cbn [data]. rewrite size_of_one, size_of_two.
    replace (size_of [N; L; C]) with (N * L * C)
      by (unfold size_of; cbn [fold_right]; rewrite Nat.mul_1_r, Nat.mul_assoc;
          reflexivity).
    reflexivity. }
  exists (mk_array [N; L]
            (map2 PrimFloat.div T (concat (map (fun x => repeat x L) D)))).
  split.
  { unfold relative_output_stability_objective. cbv zeta. unfold ndim. rewrite Sex.
    cbn [length]. unfold norm_function. cbn [Nat.eqb andb]. rewrite Hml.
    cbn [res_bind]. rewrite Eq. cbn [res_bind]. rewrite En. cbn [res_bind].
    rewrite Ed. cbn [res_bind]. unfold divide, ufunc2, expand_dims_last.
    cbn [shape data app]. rewrite broadcast_shapes_column.
    unfold broadcast_to, pad_shape. cbn [shape data length Nat.sub repeat app].
    rewrite (broadcast_data_same float [N; L] T)
      by (rewrite LT; symmetry; apply size_of_two).
    rewrite (broadcast_column_data float N L D LD). reflexivity. }
  split; [reflexivity|].
  intros i l Hi Hl. cbn [data].
  assert (Hb : i * L + l < N * L) by (apply matrix_cell_bound; assumption).
  rewrite (nth_map2 _ _ _ PrimFloat.div T _ (i * L + l) 0%float 0%float 0%float)
    by (rewrite ?LT, ?length_concat_repeat, ?LD; exact Hb).
  rewrite (nth_concat_repeat float L 0%float D i l) by (rewrite ?LD; assumption).
  unfold sample_objective. rewrite (row_chunks float h_x N [K] i Shx),
    (row_chunks float h_xs N [K] i Shxs), size_of_one. f_equal.
  - unfold T. cbn [sample_norm].
    rewrite (nth_map_lt _ _ norm2 _ (i * L + l) 0%float [])
      by (rewrite chunks_length; exact Hb).
    rewrite (nth_chunks_of_chunks float float norm2 (size_of [Ht; Wd]) C (N * L) Q
               (i * L + l) Hb).
    f_equal. f_equal. f_equal. unfold Q. rewrite chunks_map2.
    apply (nth_map2 _ _ _ (map2 (fun x xs => ((x - xs) / guard (eps_min self) x)%float))
             _ _ (i * L + l) [] [] []); rewrite chunks_length; exact Hb.
  - unfold D.
    rewrite (nth_map_lt _ _ (guard (eps_min self)) _ i 0%float 0%float)
      by (rewrite length_map, chunks_length; exact Hi).
    f_equal.
    rewrite (nth_map_lt _ _ norm2 _ i 0%float [])
      by (rewrite chunks_length; exact Hi).
    f_equal. rewrite chunks_map2.
    apply (nth_map2 _ _ _ (map2 PrimFloat.sub) _ _ i [] [] []);
      rewrite chunks_length; exact Hi.
Qed.

Lemma objective_per_sample_and_label_witness :
  exists r,
    relative_output_stability_objective Ex.multi5 Ex.logits Ex.logits
      Ex.a_batch5 Ex.a_batch5 = Ok r /\
    shape r = [2; 3] /\
    forall i l, i < 2 -> l < 3 ->
      nth (i * 3 + l) (data r) 0%float
      = sample_objective (eps_min Ex.multi5) [1; 1; 4]
          (row Ex.logits i) (row Ex.logits i)
          (nth (i * 3 + l) (chunks (size_of [1; 1; 4]) (2 * 3) (data Ex.a_batch5)) [])
          (nth (i * 3 + l) (chunks (size_of [1; 1; 4]) (2 * 3) (data Ex.a_batch5)) []).
Proof.
  apply (objective_per_sample_and_label nat Ex.multi5 Ex.logits Ex.logits
           Ex.a_batch5 Ex.a_batch5 2 3 1 1 4 2); reflexivity.
Defined.
